(** * Universal price tracker

    A shallow embedding of the multi-source consolidation engine
    ([verifyAndConsolidate] of the collector classes), of the per-symbol
    collection routines with their adapters and scrapers, and of the
    history store, the data file, the query handlers, the schedule and
    the update orchestrator of [background-agent.js].

    Conventions of the embedding.
    - A JavaScript number is a real number ([R]): arithmetic is exact, so
      rounding of binary64 is not modelled.  A value that may be missing
      ([undefined], [null], [NaN]) is an [option R] with [None] for the
      missing value.
    - A quotient [a / b] is the quotient of real numbers.  It is
      JavaScript's quotient when [b] is not 0; JavaScript's results of a
      division by 0 ([Infinity], [-Infinity], [NaN]) are not real numbers
      and are not modelled, so a statement about a quotient is made under
      hypotheses that keep its divisor away from 0.
    - An array is a [list]; a function that mutates an array it received
      returns the array's contents after the call next to its result.
    - A [Map] keyed by symbol is a [gmap string _].
    - [Date.now()] is an explicit argument.
    - A statement that can throw yields a [Js.completion]. *)

From Stdlib Require Import Reals Lra Lia ZArith.
From stdpp Require Import gmap strings list fin_maps sorting.

(** ** The fragment of JavaScript the sources rely on *)

Module Js.

(** Result of evaluating a piece of code: a value, or a thrown error. *)
Inductive completion (A : Type) : Type :=
| Normal (a : A)
| Throw (e : string).
Arguments Normal {A} a.
Arguments Throw {A} e.

(** [if (v)] on a number that may be missing: [undefined], [null], [NaN]
    and [0] are falsy, every other number (negative ones too) is truthy. *)
Definition truthy (v : option R) : bool :=
  match v with
  | Some x => if Req_dec_T x 0 then false else true
  | None => false
  end.

(** [a < b] and [a > b] on numbers, as booleans. *)
Definition ltb (a b : R) : bool := if Rlt_dec a b then true else false.
Definition gtb (a b : R) : bool := if Rgt_dec a b then true else false.

(** [Math.pow(x, 2)]. *)
Definition Math_pow2 (x : R) : R := (x ^ 2)%R.

(** [arr.reduce(f)] without an initial value: the first element seeds the
    accumulator; on an empty array it throws a [TypeError]. *)
Definition reduce {A : Type} (f : A -> A -> A) (arr : list A) : completion A :=
  match arr with
  | [] => Throw "TypeError: Reduce of empty array with no initial value"
  | x :: rest => Normal (fold_left f rest x)
  end.

Section Sort.
Context {A : Type}.
Variable compareFn : A -> A -> R.

(** [Array.prototype.sort(compareFn)] is a stable sort (ECMAScript 2019,
    every Node.js release since 11): [a] is moved after [b] only when
    [compareFn a b > 0], and elements that compare equal keep their
    relative order.  (Older V8 releases sorted arrays of up to ten
    elements by insertion, which is stable as well.)  For a comparator
    that is a difference of keys every stable sort returns the same
    array; it is written here as insertion from the right. *)
Fixpoint insert (a : A) (sorted : list A) : list A :=
  match sorted with
  | [] => [a]
  | b :: rest =>
      if Rgt_dec (compareFn a b) 0 then b :: insert a rest
      else a :: b :: rest
  end.

Definition sort (arr : list A) : list A := foldr insert [] arr.

End Sort.

End Js.

(** ** Data exchanged by the collectors *)

(** One entry of a collector's [sources] array:
    [{ source, price, reliability }]. *)
Module Observation.
Record t : Type := mk { source : string; price : R; reliability : R }.
End Observation.

(** The object returned by [verifyAndConsolidate]:
    [{ price, primarySource, verified, variance }], where [variance] holds
    the coefficient of variation. *)
Module Consolidated.
Record t : Type :=
  mk { price : R; primarySource : string; verified : bool; variance : R }.
End Consolidated.

(** What the collectors hand to [this.logger]; [Invoked] is a ghost entry
    recording a call of [verifyAndConsolidate] with its argument. *)
Inductive LogEntry : Type :=
| LogInfo (msg : string)
| LogWarn (msg : string)
| LogError (msg : string)
| LogVerification (label : string) (cv : R) (verified : bool)
| Invoked (sources : list Observation.t).

(** ** [verifyAndConsolidate]

    The six collector classes carry textually the same method; the copies
    differ in the constant the coefficient of variation is compared with
    and in the label of the log line.  The method is written once, over
    these two, and instantiated per class below.

    The method divides twice: [weightedSum / totalWeight] and
    [standardDeviation / mean] ([prices.length] is at least 2 where it is
    a divisor).  The definition follows the code wherever [totalWeight]
    and [mean] are not 0, in particular on every array of positive prices
    and positive reliabilities.  Where one of them is 0 the code computes
    [Infinity] or [NaN], which the definition does not represent; every
    theorem below that gives the value of [price], [verified] or
    [variance] for two or more observations carries hypotheses under
    which the divisor it depends on is not 0. *)

Module Consolidation.

Record Outcome : Type :=
  mkOutcome {
    returned : Js.completion Consolidated.t;  (* value of the call *)
    sourcesAfter : list Observation.t;        (* the argument array afterwards *)
    logged : list LogEntry                    (* logger calls made *)
  }.

(** The comparator [(a, b) => b.reliability - a.reliability]. *)
Definition byReliabilityDesc (a b : Observation.t) : R :=
  (Observation.reliability b - Observation.reliability a)%R.

Section Method.
Variable threshold : R.
Variable label : Observation.t -> string.

Definition verifyAndConsolidate (sources : list Observation.t) : Outcome :=
  match sources with
  | [only] =>
      mkOutcome
        (Js.Normal
           {| Consolidated.price := Observation.price only;
              Consolidated.primarySource := Observation.source only;
              Consolidated.verified := false;
              Consolidated.variance := 0%R |})
        sources []
  | _ =>
      (* sources.forEach: totalWeight += ..., weightedSum += ... *)
      let '(totalWeight, weightedSum) :=
        fold_left
          (fun '(tw, ws) s =>
             ((tw + Observation.reliability s)%R,
              (ws + Observation.price s * Observation.reliability s)%R))
          sources (0%R, 0%R) in
      let weightedAverage := (weightedSum / totalWeight)%R in
      let prices := map Observation.price sources in
      match Js.reduce Rplus prices with
      | Js.Throw e => mkOutcome (Js.Throw e) sources []
      | Js.Normal total =>
          let mean := (total / INR (length prices))%R in
          let variance :=
            (fold_left (fun acc p => (acc + Js.Math_pow2 (p - mean))%R) prices 0%R
             / INR (length prices))%R in
          let standardDeviation := sqrt variance in
          let coefficientOfVariation := (standardDeviation / mean)%R in
          let verified := Js.ltb coefficientOfVariation threshold in
          (* sources.sort(...) reorders the argument array itself *)
          let sorted := Js.sort byReliabilityDesc sources in
          match sorted with
          | [] => mkOutcome (Js.Throw "TypeError: Cannot read properties of undefined") sorted []
          | primarySource :: _ =>
              mkOutcome
                (Js.Normal
                   {| Consolidated.price :=
                        if verified then weightedAverage
                        else Observation.price primarySource;
                      Consolidated.primarySource := Observation.source primarySource;
                      Consolidated.verified := verified;
                      Consolidated.variance := coefficientOfVariation |})
                sorted
                [LogVerification (label primarySource) coefficientOfVariation verified]
          end
      end
  end.

End Method.

End Consolidation.

(** ** The consolidation contract, from the specification's words

    Section 4.1 of the specification, written down independently of the
    code so that the method above can be compared with it: plain sums over
    the observation list, population statistics, and a left-to-right scan
    for the most reliable observation in which a later observation
    replaces the current best only when strictly more reliable. *)

Module Reference.

Definition sum (xs : list R) : R := foldr Rplus 0%R xs.

Fixpoint mostReliable (best : Observation.t) (rest : list Observation.t)
  : Observation.t :=
  match rest with
  | [] => best
  | o :: rest' =>
      mostReliable
        (if Rlt_dec (Observation.reliability best) (Observation.reliability o)
         then o else best)
        rest'
  end.

Definition weightedMean (observations : list Observation.t) : R :=
  (sum (map (fun o => Observation.price o * Observation.reliability o) observations)
   / sum (map Observation.reliability observations))%R.

Definition populationMean (observations : list Observation.t) : R :=
  (sum (map Observation.price observations) / INR (length observations))%R.

Definition populationVariance (observations : list Observation.t) : R :=
  (sum (map (fun o => Rsqr (Observation.price o - populationMean observations))
          observations)
   / INR (length observations))%R.

Definition coefficientOfVariation (observations : list Observation.t) : R :=
  (sqrt (populationVariance observations) / populationMean observations)%R.


End Reference.

(** ** Per-symbol collection *)

(** What a source adapter (a [getXPrice] / [scrapeX] method, a black box
    here) does when awaited: it returns a number or a missing value, or it
    throws. *)
Inductive AdapterOutcome : Type :=
| Returns (v : option R)
| Fails (message : string).

(** The object a [collectXPrice] method returns.  Fields the code leaves
    out of an object literal are [None]; [price: null] is [None] too. *)
Module Result.
Record t : Type :=
  mk {
    symbol : string;
    success : bool;
    price : option R;
    source : option string;
    verified : option bool;
    sources : option nat;
    variance : option R;
    error : option string
  }.
End Result.

Module Collector.

(** The failure object
    [{ symbol, success: false, error, price: null, source: null, verified: false }]. *)
Definition failure (symbol message : string) : Result.t :=
  {| Result.symbol := symbol;
     Result.success := false;
     Result.price := None;
     Result.source := None;
     Result.verified := Some false;
     Result.sources := None;
     Result.variance := None;
     Result.error := Some message |}.

(** The success object built from the consolidated price and the length
    of the array that was consolidated. *)
Definition consolidated (symbol : string) (verifiedPrice : Consolidated.t)
    (count : nat) : Result.t :=
  {| Result.symbol := symbol;
     Result.success := true;
     Result.price := Some (Consolidated.price verifiedPrice);
     Result.source := Some (Consolidated.primarySource verifiedPrice);
     Result.verified := Some (Consolidated.verified verifiedPrice);
     Result.sources := Some count;
     Result.variance := Some (Consolidated.variance verifiedPrice);
     Result.error := None |}.

(** One guarded adapter block:
    [try { const p = await adapter(); if (p) sources.push({ source, price: p, reliability }); }
     catch (error) { this.logger.warn(..., error.message); }]. *)
Definition tryAdapter (name : string) (reliability : R) (warning : string)
    (outcome : AdapterOutcome)
    (acc : list Observation.t * list LogEntry)
  : list Observation.t * list LogEntry :=
  match outcome with
  | Returns (Some p) =>
      if Js.truthy (Some p)
      then (acc.1 ++ [Observation.mk name p reliability], acc.2)
      else acc
  | Returns None => acc
  | Fails message => (acc.1, acc.2 ++ [LogWarn (warning ++ " " ++ message)])
  end.

(** The tail shared by the [collectXPrice] methods once the array to
    consolidate is known: the empty-array exit, the call of
    [verifyAndConsolidate], and the enclosing [catch] that turns a thrown
    error into a failure object. *)
Definition finish (method : list Observation.t -> Consolidation.Outcome)
    (emptyMessage symbol : string)
    (sources : list Observation.t) (log : list LogEntry)
  : Js.completion Result.t * list LogEntry :=
  if (length sources =? 0)%nat then
    (Js.Normal (failure symbol emptyMessage), log)
  else
    let out := method sources in
    match Consolidation.returned out with
    | Js.Normal verifiedPrice =>
        (Js.Normal
           (consolidated symbol verifiedPrice
              (length (Consolidation.sourcesAfter out))),
         log ++ Invoked sources :: Consolidation.logged out)
    | Js.Throw e =>
        (Js.Normal (failure symbol e),
         log ++ Invoked sources :: Consolidation.logged out
             ++ [LogError ("Failed to collect " ++ symbol)])
    end.

End Collector.

(** [CryptoCollector]: [verifyAndConsolidate] with threshold 2% (its log
    line starts with [sources[0].source], read after the sort) and
    [collectCryptoPrice].  The argument [mappings] only selects what is
    sent to the adapters and is dropped. *)
Module CryptoCollector.

Definition verifyAndConsolidate :=
  Consolidation.verifyAndConsolidate 0.02%R Observation.source.

Record Env : Type :=
  mkEnv {
    getCoinGeckoPrice : AdapterOutcome;
    getBinancePrice : AdapterOutcome;
    getCoinMarketCapPrice : AdapterOutcome;
    COINMARKETCAP_API_KEY : bool   (* is process.env.COINMARKETCAP_API_KEY set *)
  }.

(** The [sources] array after the three adapter blocks, with the
    warnings logged on the way. *)
Definition gather (env : Env) (symbol : string)
  : list Observation.t * list LogEntry :=
  let acc := ([], []) in
  let acc :=
    Collector.tryAdapter "CoinGecko" 0.9%R ("CoinGecko failed for " ++ symbol ++ ":")
      (getCoinGeckoPrice env) acc in
  let acc :=
    Collector.tryAdapter "Binance" 0.95%R ("Binance failed for " ++ symbol ++ ":")
      (getBinancePrice env) acc in
  if COINMARKETCAP_API_KEY env then
    Collector.tryAdapter "CoinMarketCap" 0.92%R
      ("CoinMarketCap failed for " ++ symbol ++ ":")
      (getCoinMarketCapPrice env) acc
  else acc.

Definition collectCryptoPrice (env : Env) (symbol : string)
  : Js.completion Result.t * list LogEntry :=
  let '(sources, log) := gather env symbol in
  Collector.finish verifyAndConsolidate
    "No sources available" symbol sources log.

End CryptoCollector.

(** [MetalsCollector.verifyAndConsolidate]: threshold 1%. *)
Module MetalsCollector.

Definition verifyAndConsolidate :=
  Consolidation.verifyAndConsolidate 0.01%R (fun _ => "Metals"%string).

End MetalsCollector.

(** [RealEstateCollector]: [verifyAndConsolidate] with threshold 10% and
    [collectRealEstatePrice] with the three [collect...Prices] helpers it
    dispatches to. *)
Module RealEstateCollector.

Definition verifyAndConsolidate :=
  Consolidation.verifyAndConsolidate 0.10%R (fun _ => "Real estate"%string).

Record Env : Type :=
  mkEnv {
    FRED_API_KEY : bool;
    getFredHousingPrice : AdapterOutcome;
    getZillowResearchData : AdapterOutcome;
    getRedfinData : AdapterOutcome;
    scrapeNarData : AdapterOutcome;
    getStatCanHousingPrice : AdapterOutcome;
    scrapeCreaData : AdapterOutcome;
    getNycOpenDataPrice : AdapterOutcome;
    scrapeStreetEasyData : AdapterOutcome
  }.

Definition collectUSHousingPrices (env : Env)
  : list Observation.t * list LogEntry :=
  let acc := ([], []) in
  let acc :=
    if FRED_API_KEY env then
      Collector.tryAdapter "FRED" 0.95%R "FRED API failed:" (getFredHousingPrice env) acc
    else acc in
  let acc :=
    Collector.tryAdapter "Zillow Research" 0.90%R "Zillow Research failed:"
      (getZillowResearchData env) acc in
  let acc :=
    Collector.tryAdapter "Redfin" 0.88%R "Redfin data failed:" (getRedfinData env) acc in
  Collector.tryAdapter "NAR" 0.92%R "NAR scraping failed:" (scrapeNarData env) acc.

Definition collectCanadaHousingPrices (env : Env)
  : list Observation.t * list LogEntry :=
  let acc := ([], []) in
  let acc :=
    Collector.tryAdapter "Statistics Canada" 0.95%R "Statistics Canada failed:"
      (getStatCanHousingPrice env) acc in
  Collector.tryAdapter "CREA" 0.90%R "CREA scraping failed:" (scrapeCreaData env) acc.

Definition collectNYCPricesPerSqft (env : Env)
  : list Observation.t * list LogEntry :=
  let acc := ([], []) in
  let acc :=
    Collector.tryAdapter "NYC Open Data" 0.92%R "NYC Open Data failed:"
      (getNycOpenDataPrice env) acc in
  Collector.tryAdapter "StreetEasy" 0.88%R "StreetEasy scraping failed:"
    (scrapeStreetEasyData env) acc.

(** [sources.filter(s => s && s.price > 0)]; the entries are objects, so
    [s &&] never rejects one. *)
Definition validSources (sources : list Observation.t) : list Observation.t :=
  List.filter (fun s => Js.gtb (Observation.price s) 0) sources.

Definition collectRealEstatePrice (env : Env) (symbol : string)
  : Js.completion Result.t * list LogEntry :=
  let '(sources, log) :=
    if String.eqb symbol "HOUSE-US" then collectUSHousingPrices env
    else if String.eqb symbol "HOUSE-CA" then collectCanadaHousingPrices env
    else if String.eqb symbol "NYC-SQFT" then collectNYCPricesPerSqft env
    else ([], []) in
  Collector.finish verifyAndConsolidate
    "No valid sources available" symbol (validSources sources) log.

End RealEstateCollector.

(** ** [UniversalPriceAgent]: the stores *)

(** An element of a symbol's history array,
    [{ price, timestamp, source, verified }].  Arrays hydrated from disk
    may lack [verified], hence the option. *)
Module HistoryPoint.
Record t : Type :=
  mk { price : R; timestamp : Z; source : option string; verified : option bool }.
End HistoryPoint.

(** A value of [dataStore], [{ currentPrice, timestamp, source, verified }]. *)
Module Current.
Record t : Type :=
  mk { currentPrice : R; timestamp : Z; source : option string; verified : bool }.
End Current.

(** An element of the array [getHistoricalData] returns,
    [{ price, timestamp, verified }]. *)
Module Sample.
Record t : Type := mk { price : R; timestamp : Z; verified : bool }.
End Sample.

Module UniversalPriceAgent.

Record t : Type :=
  mk {
    dataStore : gmap string Current.t;
    lastUpdate : gmap string Z;
    updateHistory : gmap string (list HistoryPoint.t);
    isUpdating : bool
  }.

(** The fields as the constructor leaves them. *)
Definition create : t := mk ∅ ∅ ∅ false.

(** [updateItemData(symbol, price, source, verified = false)];
    [now] is the value of [Date.now()]. *)
Definition updateItemData (now : Z) (symbol : string) (price : R)
    (source : option string) (verified : option bool) (this : t) : t :=
  let verified := default false verified in
  let timestamp := now in
  (* history.push({ price, timestamp, source, verified }) *)
  let history :=
    default [] (updateHistory this !! symbol)
      ++ [HistoryPoint.mk price timestamp source (Some verified)] in
  (* if (history.length > 1000) history.splice(0, history.length - 1000) *)
  let history :=
    if (1000 <? length history)%nat
    then drop (length history - 1000) history
    else history in
  {| dataStore := <[symbol := Current.mk price timestamp source verified]> (dataStore this);
     lastUpdate := <[symbol := timestamp]> (lastUpdate this);
     updateHistory := <[symbol := history]> (updateHistory this);
     isUpdating := isUpdating this |}.

(** [history.slice(-1000)]: the last 1000 elements, all of them when there
    are fewer. *)
Definition sliceLast1000 (history : list HistoryPoint.t) : list HistoryPoint.t :=
  drop (length history - 1000) history.

(** The object [saveData] writes to disk. *)
Definition saveData (this : t) : gmap string (list HistoryPoint.t) :=
  sliceLast1000 <$> updateHistory this.

(** The [switch (period)] of [getHistoricalData]: the window length in
    milliseconds. *)
Definition windowMillis (period : string) : Z :=
  if String.eqb period "1H" then 60 * 60 * 1000
  else if String.eqb period "1D" then 24 * 60 * 60 * 1000
  else if String.eqb period "1W" then 7 * 24 * 60 * 60 * 1000
  else if String.eqb period "1M" then 30 * 24 * 60 * 60 * 1000
  else if String.eqb period "3M" then 90 * 24 * 60 * 60 * 1000
  else if String.eqb period "1Y" then 365 * 24 * 60 * 60 * 1000
  else 7 * 24 * 60 * 60 * 1000.

(** The [.map] callback of [getHistoricalData]. *)
Definition toSample (point : HistoryPoint.t) : Sample.t :=
  {| Sample.price := HistoryPoint.price point;
     Sample.timestamp := HistoryPoint.timestamp point;
     Sample.verified := default false (HistoryPoint.verified point) || false |}.

Definition getHistoricalData (now : Z) (symbol period : string) (this : t)
  : list Sample.t :=
  let history := default [] (updateHistory this !! symbol) in
  if (length history =? 0)%nat then []
  else
    let cutoffTime := (now - windowMillis period)%Z in
    map toSample
      (List.filter (fun point => (cutoffTime <=? HistoryPoint.timestamp point)%Z)
         history).

End UniversalPriceAgent.

(** ** [UniversalPriceAgent]: the update cycle

    JavaScript runs each callback to completion; other callbacks interleave
    only at an [await].  An activation of [updateAllPrices] is therefore a
    sequence of atomic steps: entry (the guard, raising the flag, starting
    every collector), one step per collector whose promise settles (the
    code after [await collector.collectData()]), and the continuation after
    [await Promise.all(updatePromises)] with the [finally] block.  The
    machine below interleaves these steps with arriving triggers. *)

Module Orchestrator.

Import UniversalPriceAgent.

(** The keys of [this.collectors], in the order of [Object.entries]. *)
Inductive Category : Type :=
| crypto | stocks | metals | consumer | luxury | realestate.

#[global] Instance Category_eq_dec : EqDecision Category.
Proof. solve_decision. Defined.

Definition collectors : list Category :=
  [crypto; stocks; metals; consumer; luxury; realestate].

(** How the promise of [collector.collectData()] settles.  Each result
    comes with the value [Date.now()] has when the loop reaches it. *)
Inductive CollectorOutcome : Type :=
| Resolved (results : list (Z * Result.t))
| Rejected (error : string).

(** Who called: the [POST /api/update] handler or a cron callback. *)
Inductive Trigger : Type := Manual | Scheduled.

Inductive Output : Type :=
| Logger (entry : LogEntry)
| CycleCompleted (successCount errorCount : nat)
| HttpResponse (status : nat) (body : string).

(** The locals of one activation of [updateAllPrices] that got past the
    guard: the promises still unsettled and the two counters. *)
Record Cycle : Type :=
  mkCycle {
    origin : Trigger;
    pending : list Category;
    successCount : nat;
    errorCount : nat
  }.

Record System : Type :=
  mkSystem { agent : UniversalPriceAgent.t; running : list Cycle }.

(** [result.success && result.price && result.price > 0], yielding the
    price when the test passes. *)
Definition accepted (result : Result.t) : option R :=
  match Result.price result with
  | Some price =>
      if Result.success result && Js.truthy (Some price) && Js.gtb price 0
      then Some price else None
  | None => None
  end.

(** The body of [results.forEach]. *)
Definition applyResult
    (acc : UniversalPriceAgent.t * (nat * nat) * list Output)
    (timed : Z * Result.t)
  : UniversalPriceAgent.t * (nat * nat) * list Output :=
  let '(this, (successes, errors), out) := acc in
  let '(now, result) := timed in
  match accepted result with
  | Some price =>
      (updateItemData now (Result.symbol result) price
         (Result.source result) (Result.verified result) this,
       (S successes, errors), out)
  | None =>
      (this, (successes, S errors),
       out ++ [Logger (LogWarn ("Failed to update " ++ Result.symbol result ++ ": "
                                  ++ default "undefined" (Result.error result)))])
  end.

(** What the caller does once the promise of [updateAllPrices] resolves. *)
Definition afterReturn (origin : Trigger) : list Output :=
  match origin with
  | Manual => [HttpResponse 200 "Update completed"]
  | Scheduled => []
  end.

Definition setUpdating (flag : bool) (this : UniversalPriceAgent.t)
  : UniversalPriceAgent.t :=
  {| dataStore := dataStore this;
     lastUpdate := lastUpdate this;
     updateHistory := updateHistory this;
     isUpdating := flag |}.

(** Entry of [updateAllPrices] up to its first [await]. *)
Definition updateAllPrices (origin : Trigger) (s : System)
  : System * list Output :=
  if isUpdating (agent s) then
    (s, Logger (LogWarn "Update already in progress, skipping") :: afterReturn origin)
  else
    ({| agent := setUpdating true (agent s);
        running := running s ++ [mkCycle origin collectors 0 0] |},
     [Logger (LogInfo "Starting price update cycle")]).

(** The [POST /api/update] handler up to its first [await]. *)
Definition postUpdate (s : System) : System * list Output :=
  if isUpdating (agent s) then
    (s, [HttpResponse 429 "Update already in progress"])
  else updateAllPrices Manual s.

(** The code after [await collector.collectData()] inside the [map]
    callback, with its [catch]. *)
Definition settle (category : Category) (outcome : CollectorOutcome)
    (cycle : Cycle) (this : UniversalPriceAgent.t)
  : UniversalPriceAgent.t * Cycle * list Output :=
  let rest := filter (λ c, c ≠ category) (pending cycle) in
  match outcome with
  | Resolved results =>
      let '(this', (successes, errors), out) :=
        fold_left applyResult results
          (this, (successCount cycle, errorCount cycle), []) in
      (this', mkCycle (origin cycle) rest successes errors, out)
  | Rejected error =>
      (this, mkCycle (origin cycle) rest (successCount cycle) (S (errorCount cycle)),
       [Logger (LogError ("Collector failed: " ++ error))])
  end.

Inductive Event : Type :=
| PostUpdate                       (* a POST /api/update request arrives *)
| CronTick                         (* a cron callback calls updateAllPrices *)
| Settles (k : nat) (category : Category) (outcome : CollectorOutcome)
                                   (* a collector promise of cycle k settles *)
| AllSettled (k : nat).            (* Promise.all of cycle k resolves *)

Definition step (e : Event) (s : System) : option (System * list Output) :=
  match e with
  | PostUpdate => Some (postUpdate s)
  | CronTick => Some (updateAllPrices Scheduled s)
  | Settles k category outcome =>
      match running s !! k with
      | Some cycle =>
          if decide (category ∈ pending cycle) then
            let '(this, cycle', out) := settle category outcome cycle (agent s) in
            Some ({| agent := this; running := <[k := cycle']> (running s) |}, out)
          else None
      | None => None
      end
  | AllSettled k =>
      match running s !! k with
      | Some cycle =>
          match pending cycle with
          | [] =>
              Some ({| agent := setUpdating false (agent s);
                       running := delete k (running s) |},
                    CycleCompleted (successCount cycle) (errorCount cycle)
                      :: afterReturn (origin cycle))
          | _ :: _ => None
          end
      | None => None
      end
  end.

(** Running a list of events in order, collecting the outputs. *)
Fixpoint exec (events : list Event) (s : System)
  : option (System * list Output) :=
  match events with
  | [] => Some (s, [])
  | e :: rest =>
      match step e s with
      | Some (s', out) =>
          match exec rest s' with
          | Some (s'', out') => Some (s'', out ++ out')
          | None => None
          end
      | None => None
      end
  end.

(** No cycle in flight: the state between cycles, in particular the state
    the constructor (and the hydration from disk) leaves. *)
Definition idle (s : System) : Prop :=
  isUpdating (agent s) = false ∧ running s = [].

Definition initial : System := mkSystem create [].

Inductive reachableFrom (s0 : System) : System -> Prop :=
| reach_start : reachableFrom s0 s0
| reach_step s e s' out :
    reachableFrom s0 s -> step e s = Some (s', out) -> reachableFrom s0 s'.

End Orchestrator.

(** * Further parts of the sources *)

(** ** More of the JavaScript the sources rely on *)

Module JsMore.

(** What an awaited [axios.get] gives: the response data, or a thrown
    error (network failure, timeout, non-2xx status). *)
Inductive Http (A : Type) : Type :=
| Responds (data : A)
| HttpError (message : string).
Arguments Responds {A} data.
Arguments HttpError {A} message.

(** [s.includes(needle)]. *)
Definition includes (s needle : string) : bool :=
  match String.index 0 needle s with
  | Some _ => true
  | None => false
  end.

(** [a >= b] and [a <= b] on numbers, as booleans. *)
Definition geb (a b : R) : bool := if Rge_dec a b then true else false.
Definition leb (a b : R) : bool := if Rle_dec a b then true else false.

(** [source || 'stored'] on a string that may be missing: the empty
    string is falsy too. *)
Definition orStored (source : option string) : string :=
  match source with
  | Some s => if String.eqb s "" then "stored" else s
  | None => "stored"
  end.

(** A timestamp or [-Infinity]. *)
Inductive Extended : Type :=
| NegInfinity
| Finite (z : Z).

(** [Math.max(...values)]: [-Infinity] when there is no argument. *)
Definition Math_max (values : list Z) : Extended :=
  fold_left
    (fun acc z =>
       match acc with
       | NegInfinity => Finite z
       | Finite m => Finite (Z.max m z)
       end)
    values NegInfinity.

(** [prices.sort((a, b) => a - b); prices[Math.floor(prices.length / 2)]]:
    [undefined] ([None]) on an empty array. *)
Definition sortAscending (prices : list R) : list R :=
  Js.sort (fun a b => (a - b)%R) prices.

Definition middle (prices : list R) : option R :=
  sortAscending prices !! (length prices / 2)%nat.

(** The scraping loops that return the first parsed price inside an open
    range: [for (...) { if (price > lo && price < hi) return price; } return null].
    A text that does not parse ([NaN]) is [None] and fails both tests. *)
Fixpoint firstWithin (lo hi : R) (parsed : list (option R)) : option R :=
  match parsed with
  | [] => None
  | Some price :: rest =>
      if Js.gtb price lo && Js.ltb price hi then Some price
      else firstWithin lo hi rest
  | None :: rest => firstWithin lo hi rest
  end.

End JsMore.

(** ** [MetalsCollector]: the adapters and [collectMetalPrice]

    Each adapter is given what its request yields, already parsed: the
    text clean-up and [parseFloat] are left to the caller of the model, a
    text that does not parse being [None].  The warnings the adapters log
    themselves are left out. *)

Module MetalsCollection.

Import JsMore.

(** [getMetalsApiPrice]: without a key no request is made; the request is
    not guarded, so its failure is thrown to the caller. *)
Definition getMetalsApiPrice (apiKey : bool) (response : Http (bool * option R))
  : AdapterOutcome :=
  if negb apiKey then Returns None
  else
    match response with
    | HttpError message => Fails message
    | Responds (success, Some rate) =>
        if success && Js.truthy (Some rate) then Returns (Some (1 / rate)%R)
        else Returns None
    | Responds (_, None) => Returns None
    end.

(** [scrapeGoldPriceOrg]: the parsed price when it lies strictly between
    1000 and 5000; every failure is caught and gives [null]. *)
Definition scrapeGoldPriceOrg (response : Http (option R)) : AdapterOutcome :=
  match response with
  | HttpError _ => Returns None
  | Responds (Some price) =>
      if Js.gtb price 1000 && Js.ltb price 5000 then Returns (Some price)
      else Returns None
  | Responds None => Returns None
  end.

(** The table [ranges] of [scrapeApmexPrice]; [None] for a symbol that
    [metalNames] does not know. *)
Definition ranges (symbol : string) : option (R * R) :=
  if String.eqb symbol "XAU" then Some (1500, 3000)%R
  else if String.eqb symbol "XAG" then Some (15, 50)%R
  else if String.eqb symbol "XPT" then Some (800, 1500)%R
  else if String.eqb symbol "XPD" then Some (1000, 3000)%R
  else None.

(** [scrapeApmexPrice]: [null] for an unknown metal, when the page has no
    price element or on any failure; else the parsed price when it lies
    within the metal's range, bounds included. *)
Definition scrapeApmexPrice (symbol : string) (response : Http (option R))
  : AdapterOutcome :=
  match ranges symbol with
  | None => Returns None
  | Some (min, max) =>
      match response with
      | HttpError _ => Returns None
      | Responds (Some price) =>
          if geb price min && leb price max then Returns (Some price)
          else Returns None
      | Responds None => Returns None
      end
  end.

(** [getFmpPrice]: the price of the first quote, [null] when there is
    none or on any failure. *)
Definition getFmpPrice (response : Http (option R)) : AdapterOutcome :=
  match response with
  | HttpError _ => Returns None
  | Responds price => Returns price
  end.

Record Env : Type :=
  mkEnv {
    METALS_API_KEY : bool;
    FMP_API_KEY : bool;
    metalsApi : Http (bool * option R);
    goldPriceOrg : Http (option R);
    apmex : Http (option R);
    fmp : Http (option R)
  }.

(** The [sources] array after the four adapter blocks. *)
Definition gather (env : Env) (symbol : string)
  : list Observation.t * list LogEntry :=
  let acc := ([], []) in
  let acc :=
    Collector.tryAdapter "MetalsAPI" 0.9%R ("MetalsAPI failed for " ++ symbol ++ ":")
      (getMetalsApiPrice (METALS_API_KEY env) (metalsApi env)) acc in
  let acc :=
    if String.eqb symbol "XAU" then
      Collector.tryAdapter "GoldPrice.org" 0.85%R "GoldPrice.org failed:"
        (scrapeGoldPriceOrg (goldPriceOrg env)) acc
    else acc in
  let acc :=
    Collector.tryAdapter "APMEX" 0.88%R ("APMEX failed for " ++ symbol ++ ":")
      (scrapeApmexPrice symbol (apmex env)) acc in
  if FMP_API_KEY env then
    Collector.tryAdapter "FinancialModelingPrep" 0.92%R
      ("FMP failed for " ++ symbol ++ ":")
      (getFmpPrice (fmp env)) acc
  else acc.

Definition collectMetalPrice (env : Env) (symbol : string)
  : Js.completion Result.t * list LogEntry :=
  let '(sources, log) := gather env symbol in
  Collector.finish MetalsCollector.verifyAndConsolidate
    "No sources available" symbol sources log.

End MetalsCollection.

(** ** [RealEstateCollector]: the adapters *)

Module RealEstateAdapters.

Import JsMore.

(** A row of the NYC sales data set: [sale_price] and
    [gross_square_feet], parsed; [None] when missing or not a number. *)
Record Sale : Type := mkSale { sale_price : option R; gross_square_feet : option R }.

(** [getFredHousingPrice]: no key, no observation or a failure give
    [null]; else the parsed value of the latest observation. *)
Definition getFredHousingPrice (apiKey : bool) (response : Http (option R))
  : AdapterOutcome :=
  if negb apiKey then Returns None
  else
    match response with
    | HttpError _ => Returns None
    | Responds value => Returns value
    end.

(** The placeholders: whatever the page holds, [null]. *)
Definition getZillowResearchData (response : Http unit) : AdapterOutcome :=
  Returns None.
Definition scrapeNarData (response : Http unit) : AdapterOutcome :=
  Returns None.
Definition getStatCanHousingPrice (response : Http unit) : AdapterOutcome :=
  Returns None.

(** The three scrapers that walk the price elements of a page. *)
Definition scrapeWithin (lo hi : R) (response : Http (list (option R)))
  : AdapterOutcome :=
  match response with
  | HttpError _ => Returns None
  | Responds parsed => Returns (firstWithin lo hi parsed)
  end.

Definition getRedfinData := scrapeWithin 200000 1000000.
Definition scrapeCreaData := scrapeWithin 400000 2000000.
Definition scrapeStreetEasyData := scrapeWithin 500 5000.

(** The [.filter] and [.map] of [getNycOpenDataPrice]: the price per
    square foot of the sales above 100000 for more than 100 square feet. *)
Definition validSale (sale : Sale) : option R :=
  match sale_price sale, gross_square_feet sale with
  | Some price, Some feet =>
      if Js.gtb price 100000 && Js.gtb feet 100 then Some (price / feet)%R
      else None
  | _, _ => None
  end.

Definition validSales (sales : list Sale) : list R :=
  sortAscending (omap validSale sales).

(** [getNycOpenDataPrice]: the middle price per square foot when more
    than ten sales are valid. *)
Definition getNycOpenDataPrice (response : Http (list Sale)) : AdapterOutcome :=
  match response with
  | HttpError _ => Returns None
  | Responds sales =>
      if (10 <? length (validSales sales))%nat
      then Returns (validSales sales !! (length (validSales sales) / 2)%nat)
      else Returns None
  end.

(** What the requests of one collection yield. *)
Record Web : Type :=
  mkWeb {
    FRED_API_KEY : bool;
    fred : Http (option R);
    zillow : Http unit;
    redfin : Http (list (option R));
    nar : Http unit;
    statCan : Http unit;
    crea : Http (list (option R));
    nycOpenData : Http (list Sale);
    streetEasy : Http (list (option R))
  }.

(** The adapters of the collector, run on these. *)
Definition adapters (web : Web) : RealEstateCollector.Env :=
  {| RealEstateCollector.FRED_API_KEY := FRED_API_KEY web;
     RealEstateCollector.getFredHousingPrice :=
       getFredHousingPrice (FRED_API_KEY web) (fred web);
     RealEstateCollector.getZillowResearchData := getZillowResearchData (zillow web);
     RealEstateCollector.getRedfinData := getRedfinData (redfin web);
     RealEstateCollector.scrapeNarData := scrapeNarData (nar web);
     RealEstateCollector.getStatCanHousingPrice := getStatCanHousingPrice (statCan web);
     RealEstateCollector.scrapeCreaData := scrapeCreaData (crea web);
     RealEstateCollector.getNycOpenDataPrice := getNycOpenDataPrice (nycOpenData web);
     RealEstateCollector.scrapeStreetEasyData := scrapeStreetEasyData (streetEasy web) |}.

End RealEstateAdapters.

(** ** [LuxuryCollector] *)

Module LuxuryCollector.

Import JsMore.

Definition verifyAndConsolidate :=
  Consolidation.verifyAndConsolidate 0.25%R (fun _ => "Luxury"%string).

(** [this.luxuryItems[symbol]], reduced to [searchTerms[0]], the one
    field the collector reads; [None] for a symbol that is not tracked. *)
Definition luxuryItems (symbol : string) : option string :=
  if String.eqb symbol "ROLEX-SUB" then Some "rolex submariner"
  else if String.eqb symbol "ROLEX-DAY" then Some "rolex daytona"
  else if String.eqb symbol "AP-RO" then Some "audemars piguet royal oak"
  else if String.eqb symbol "PATEK-NAU" then Some "patek philippe nautilus"
  else if String.eqb symbol "CHAR-PSA10" then Some "charizard psa 10 base set"
  else if String.eqb symbol "MTG-LOTUS" then Some "black lotus alpha mtg"
  else if String.eqb symbol "AC1" then Some "action comics 1 cgc"
  else None.

(** The parsed prices a scraper keeps: those that pass its test. *)
Definition keep (test : R -> bool) (parsed : list (option R)) : list R :=
  omap (fun p => match p with
                 | Some price => if test price then Some price else None
                 | None => None
                 end) parsed.

(** [scrapeChrono24]: the middle one of the prices strictly between 5000
    and 500000; [null] when there is none or on any failure. *)
Definition scrapeChrono24 (response : Http (list (option R))) : AdapterOutcome :=
  match response with
  | HttpError _ => Returns None
  | Responds parsed =>
      let prices := keep (fun price => Js.gtb price 5000 && Js.ltb price 500000) parsed in
      if (0 <? length prices)%nat then Returns (middle prices) else Returns None
  end.

(** [scrapeEbaySoldListings]: the middle one of the prices above 100
    among the first ten listings. *)
Definition scrapeEbaySoldListings (response : Http (list (option R)))
  : AdapterOutcome :=
  match response with
  | HttpError _ => Returns None
  | Responds parsed =>
      let prices := keep (fun price => Js.gtb price 100) (take 10 parsed) in
      if (0 <? length prices)%nat then Returns (middle prices) else Returns None
  end.

(** The placeholders. *)
Definition scrapeBobsWatches (searchTerm : string) : AdapterOutcome := Returns None.
Definition scrapeWatchStation (searchTerm : string) : AdapterOutcome := Returns None.
Definition scrapePwcc (searchTerm : string) : AdapterOutcome := Returns None.
Definition scrapeGoldin (searchTerm : string) : AdapterOutcome := Returns None.
Definition scrapeGoCollect (searchTerm : string) : AdapterOutcome := Returns None.
Definition scrapeHeritage (searchTerm : string) : AdapterOutcome := Returns None.

(** The argument [item.searchTerms[0]] is evaluated inside the [try]:
    for an item that is [undefined] the block throws a [TypeError]
    before the adapter is called. *)
Definition withItem (item : option string) (adapter : string -> AdapterOutcome)
  : AdapterOutcome :=
  match item with
  | Some searchTerm => adapter searchTerm
  | None => Fails "Cannot read properties of undefined (reading 'searchTerms')"
  end.

Record Web : Type :=
  mkWeb { chrono24 : Http (list (option R)); ebay : Http (list (option R)) }.

Definition collectWatchPrices (web : Web) (symbol : string) (item : option string)
  : list Observation.t * list LogEntry :=
  let acc := ([], []) in
  let acc :=
    Collector.tryAdapter "Chrono24" 0.88%R ("Chrono24 failed for " ++ symbol ++ ":")
      (withItem item (fun _ => scrapeChrono24 (chrono24 web))) acc in
  let acc :=
    Collector.tryAdapter "Bob's Watches" 0.85%R
      ("Bob's Watches failed for " ++ symbol ++ ":")
      (withItem item scrapeBobsWatches) acc in
  Collector.tryAdapter "WatchStation" 0.82%R
    ("WatchStation failed for " ++ symbol ++ ":")
    (withItem item scrapeWatchStation) acc.

Definition collectCardPrices (web : Web) (symbol : string) (item : option string)
  : list Observation.t * list LogEntry :=
  let acc := ([], []) in
  let acc :=
    Collector.tryAdapter "eBay Sold" 0.90%R ("eBay failed for " ++ symbol ++ ":")
      (withItem item (fun _ => scrapeEbaySoldListings (ebay web))) acc in
  let acc :=
    Collector.tryAdapter "PWCC" 0.92%R ("PWCC failed for " ++ symbol ++ ":")
      (withItem item scrapePwcc) acc in
  Collector.tryAdapter "Goldin" 0.88%R ("Goldin failed for " ++ symbol ++ ":")
    (withItem item scrapeGoldin) acc.

Definition collectComicPrices (web : Web) (symbol : string) (item : option string)
  : list Observation.t * list LogEntry :=
  let acc := ([], []) in
  let acc :=
    Collector.tryAdapter "GoCollect" 0.90%R ("GoCollect failed for " ++ symbol ++ ":")
      (withItem item scrapeGoCollect) acc in
  Collector.tryAdapter "Heritage" 0.92%R ("Heritage failed for " ++ symbol ++ ":")
    (withItem item scrapeHeritage) acc.

(** [sources.filter(s => s && s.price > 0)]. *)
Definition validSources (sources : list Observation.t) : list Observation.t :=
  List.filter (fun s => Js.gtb (Observation.price s) 0) sources.

Definition collectLuxuryPrice (web : Web) (symbol : string)
  : Js.completion Result.t * list LogEntry :=
  let item := luxuryItems symbol in
  let '(sources, log) :=
    if includes symbol "ROLEX" || includes symbol "AP" || includes symbol "PATEK"
    then collectWatchPrices web symbol item
    else if includes symbol "CHAR" || includes symbol "MTG"
    then collectCardPrices web symbol item
    else if includes symbol "AC"
    then collectComicPrices web symbol item
    else ([], []) in
  Collector.finish verifyAndConsolidate
    "No valid sources available" symbol (validSources sources) log.

End LuxuryCollector.

(** ** [collectData]

    The method has the same text in every collector class: a loop over
    the tracked symbols inside a [try], with the status field set on
    entry, on normal exit and in the [catch]. *)

Module CollectorRun.

(** The fields [collectData] writes. *)
Record State : Type := mkState { lastUpdate : Z; status : string }.

(** The constructor's values. *)
Definition initialized : State := mkState 0 "initialized".

(** The [for ... of] loop: results are pushed until a call throws. *)
Fixpoint loop (collectOne : string -> Js.completion Result.t * list LogEntry)
    (symbols : list string) (results : list Result.t) (log : list LogEntry)
  : Js.completion unit * list Result.t * list LogEntry :=
  match symbols with
  | [] => (Js.Normal tt, results, log)
  | symbol :: rest =>
      match collectOne symbol with
      | (Js.Normal result, entries) =>
          loop collectOne rest (results ++ [result]) (log ++ entries)
      | (Js.Throw e, entries) => (Js.Throw e, results, log ++ entries)
      end
  end.

(** [collectData]; [now] is the value of [Date.now()] after the loop. *)
Definition collectData
    (collectOne : string -> Js.completion Result.t * list LogEntry)
    (symbols : list string) (failed : string) (now : Z) (this : State)
  : list Result.t * State * list LogEntry :=
  match loop collectOne symbols [] [] with
  | (Js.Normal _, results, log) => (results, mkState now "completed", log)
  | (Js.Throw e, results, log) =>
      (results, mkState (lastUpdate this) "error", log ++ [LogError failed])
  end.

(** The tracked symbols, in the order of the object keys. *)
Definition cryptoSymbols : list string := ["BTC"; "ETH"; "SOL"; "DOGE"]%string.
Definition metals : list string := ["XAU"; "XAG"; "XPT"; "XPD"]%string.
Definition properties : list string := ["HOUSE-US"; "HOUSE-CA"; "NYC-SQFT"]%string.
Definition luxurySymbols : list string :=
  ["ROLEX-SUB"; "ROLEX-DAY"; "AP-RO"; "PATEK-NAU"; "CHAR-PSA10"; "MTG-LOTUS"; "AC1"]%string.

(** [collectData] of the four classes; the adapters may answer
    differently for each symbol. *)
Definition cryptoCollectData (env : string -> CryptoCollector.Env) :=
  collectData (fun symbol => CryptoCollector.collectCryptoPrice (env symbol) symbol)
    cryptoSymbols "Crypto collection failed:".

Definition metalsCollectData (env : string -> MetalsCollection.Env) :=
  collectData (fun symbol => MetalsCollection.collectMetalPrice (env symbol) symbol)
    metals "Metals collection failed:".

Definition realEstateCollectData (env : string -> RealEstateCollector.Env) :=
  collectData (fun symbol => RealEstateCollector.collectRealEstatePrice (env symbol) symbol)
    properties "Real estate collection failed:".

Definition luxuryCollectData (web : string -> LuxuryCollector.Web) :=
  collectData (fun symbol => LuxuryCollector.collectLuxuryPrice (web symbol) symbol)
    luxurySymbols "Luxury collection failed:".

End CollectorRun.

(** ** [UniversalPriceAgent]: hydration, query surface and schedule *)

Module Persistence.

Import UniversalPriceAgent JsMore.

(** What reading [./data/historical-data.json] gives: no such file, a
    failure, or the entries of the stored object. *)
Inductive StoredFile : Type :=
| NoFile
| Unreadable (message : string)
| Stored (data : list (string * list HistoryPoint.t)).

(** The value [loadStoredData] puts in [dataStore] for the last point of
    a stored history. *)
Definition latestOf (latest : HistoryPoint.t) : Current.t :=
  {| Current.currentPrice := HistoryPoint.price latest;
     Current.timestamp := HistoryPoint.timestamp latest;
     Current.source := Some (orStored (HistoryPoint.source latest));
     Current.verified := default false (HistoryPoint.verified latest) || false |}.

(** The body of [Object.entries(data).forEach]. *)
Definition hydrate (this : t) (entry : string * list HistoryPoint.t) : t :=
  let '(symbol, history) := entry in
  match last history with
  | Some latest =>
      {| dataStore := <[symbol := latestOf latest]> (dataStore this);
         lastUpdate := <[symbol := HistoryPoint.timestamp latest]> (lastUpdate this);
         updateHistory := <[symbol := history]> (updateHistory this);
         isUpdating := isUpdating this |}
  | None =>
      {| dataStore := dataStore this;
         lastUpdate := lastUpdate this;
         updateHistory := <[symbol := history]> (updateHistory this);
         isUpdating := isUpdating this |}
  end.

Definition loadStoredData (file : StoredFile) (this : t) : t * list LogEntry :=
  match file with
  | NoFile => (this, [])
  | Unreadable message => (this, [LogError "Failed to load stored data:"])
  | Stored data => (fold_left hydrate data this, [LogInfo "Loaded historical data"])
  end.

(** The file [saveData] leaves: the entries of the object it writes. *)
Definition savedFile (this : t) : StoredFile :=
  Stored (map_to_list (saveData this)).

End Persistence.

Module QuerySurface.

Import UniversalPriceAgent JsMore.

(** [Math.max(...Array.from(this.lastUpdate.values()))]. *)
Definition latestUpdate (this : t) : Extended :=
  Math_max ((map_to_list (lastUpdate this)).*2).

(** The body of the answer of [GET /api/prices]. *)
Record Prices : Type :=
  mkPrices { prices : gmap string R; lastUpdate : Extended; totalItems : nat }.

Definition getPrices (this : t) : Prices :=
  {| prices := Current.currentPrice <$> dataStore this;
     lastUpdate := latestUpdate this;
     totalItems := size (dataStore this) |}.

(** The body of the answer of [GET /api/historical/:symbol]; [period] is
    the query parameter, [None] when the request has none. *)
Record Historical : Type :=
  mkHistorical {
    symbol : string;
    period : string;
    data : list Sample.t;
    dataPoints : nat
  }.

Definition getHistorical (now : Z) (symbol : string) (period : option string)
    (this : t) : Historical :=
  let period := default "1W"%string period in
  let data := getHistoricalData now symbol period this in
  {| symbol := symbol; period := period; data := data; dataPoints := length data |}.

End QuerySurface.

Module Schedule.

(** The cron patterns of [startScheduledUpdates], as tests on the minute
    of the hour: ['*/5 * * * *'], ['0 * * * *'] and ['*/15 * * * *']. *)
Definition everyFiveMinutes (minute : nat) : bool := (minute mod 5 =? 0)%nat.
Definition onTheHour (minute : nat) : bool := (minute =? 0)%nat.
Definition everyFifteenMinutes (minute : nat) : bool := (minute mod 15 =? 0)%nat.

(** Does the first job call [updateAllPrices] at this time of day:
    [hour >= 6 && hour <= 22]. *)
Definition marketHoursUpdate (hour minute : nat) : bool :=
  everyFiveMinutes minute && ((6 <=? hour)%nat && (hour <=? 22)%nat).

(** Does the second job: [hour < 6 || hour > 22]. *)
Definition offHoursUpdate (hour minute : nat) : bool :=
  onTheHour minute && ((hour <? 6)%nat || (22 <? hour)%nat).

(** Does the third job call [saveData]. *)
Definition saves (hour minute : nat) : bool := everyFifteenMinutes minute.

End Schedule.

(** * Notions used in the statements *)

(** The most reliable observation of a list. *)
Module Selection.

Import Observation.

(** The more reliable of two observations, the left one on a tie. *)
Definition pick (a b : Observation.t) : Observation.t :=
  if Rlt_dec (reliability a) (reliability b) then b else a.

(** [top] has the highest reliability of [l] and is the first to have it. *)
Definition firstMostReliable (l : list Observation.t) (top : Observation.t) : Prop :=
  ∃ before after,
    l = before ++ top :: after
    ∧ Forall (λ o, (reliability o < reliability top)%R) before
    ∧ Forall (λ o, (reliability o <= reliability top)%R) after.

End Selection.

(** The two observations of the worked example of the specification. *)
Module WorkedExample.

Definition obsA : Observation.t := Observation.mk "A" 100 0.9.
Definition obsB : Observation.t := Observation.mk "B" 104 0.8.

End WorkedExample.

(** Adapter outcomes and logs of the collectors. *)
Module CollectorNotions.

(** [Invoked] entries of a log: the arrays [verifyAndConsolidate] was
    called with. *)
Definition invocations (log : list LogEntry) : list (list Observation.t) :=
  flat_map (λ entry, match entry with Invoked sources => [sources] | _ => [] end) log.

(** An adapter that throws, returns a missing value or returns 0 adds
    nothing to the array. *)
Definition falsyOutcome (outcome : AdapterOutcome) : Prop :=
  match outcome with
  | Returns (Some p) => p = 0%R
  | Returns None => True
  | Fails _ => True
  end.

(** An adapter that gives no price above 0. *)
Definition noValidPrice (outcome : AdapterOutcome) : Prop :=
  match outcome with
  | Returns (Some p) => (p <= 0)%R
  | Returns None => True
  | Fails _ => True
  end.

(** A run of the crypto adapters in which CoinGecko answers -5, Binance
    answers nothing and no CoinMarketCap key is configured. *)
Definition negativeQuote : CryptoCollector.Env :=
  CryptoCollector.mkEnv (Returns (Some (-5)%R)) (Returns None) (Returns None) false.

(** The like run of the real-estate adapters: with a FRED key
    configured, FRED answers -5 and every other adapter answers
    nothing. *)
Definition negativeListing : RealEstateCollector.Env :=
  RealEstateCollector.mkEnv true
    (Returns (Some (-5)%R)) (Returns None) (Returns None) (Returns None)
    (Returns None) (Returns None) (Returns None) (Returns None).

(** A run of the metals adapters with a gold quote from APMEX and
    nothing else. *)
Definition apmexOnly : MetalsCollection.Env :=
  MetalsCollection.mkEnv false false
    (JsMore.HttpError "no key") (JsMore.HttpError "down")
    (JsMore.Responds (Some 2000%R)) (JsMore.HttpError "no key").

End CollectorNotions.

(** Histories and sequences of appends. *)
Module HistoryNotions.

Import UniversalPriceAgent.

(** [this.updateHistory.get(symbol) || []]. *)
Definition historyOf (symbol : string) (this : t) : list HistoryPoint.t :=
  default [] (updateHistory this !! symbol).

(** The point [updateItemData] pushes. *)
Definition pointOf (now : Z) (price : R) (source : option string)
    (verified : option bool) : HistoryPoint.t :=
  HistoryPoint.mk price now source (Some (default false verified)).

(** One call of [updateItemData]: when, for which symbol, with which
    price, source and verified flag. *)
Definition Update : Type := Z * string * R * option string * option bool.

(** Performing one call, and a sequence of calls in order. *)
Definition applyUpdate (this : t) (u : Update) : t :=
  let '(now, symbol, price, source, verified) := u in
  updateItemData now symbol price source verified this.

Definition appendAll (updates : list Update) (this : t) : t :=
  fold_left applyUpdate updates this.

(** A sequence of appends to one symbol. *)
Definition onSymbol (symbol : string)
    (p : Z * R * option string * option bool) : Update :=
  let '(now, price, source, verified) := p in
  (now, symbol, price, source, verified).

(** The point such an append pushes. *)
Definition pointOfAppend (p : Z * R * option string * option bool)
  : HistoryPoint.t :=
  let '(now, price, source, verified) := p in
  pointOf now price source verified.

(** No history is longer than 1000 points. *)
Definition capped (this : t) : Prop :=
  ∀ symbol history,
    updateHistory this !! symbol = Some history -> length history <= 1000.

(** One stored history for the window query: a point just outside the
    one-hour window that ends at 3601000 and a point at its boundary. *)
Definition boundaryAgent : t :=
  mk ∅ ∅
    {[ "BTC"%string :=
         [HistoryPoint.mk 1 999 None None; HistoryPoint.mk 2 1000 None (Some true)] ]}
    false.

End HistoryNotions.

(** States, runs and invariants of the update cycle. *)
Module CycleNotions.

Import UniversalPriceAgent Orchestrator.

(** At most one activation of [updateAllPrices] is past the guard, and
    the flag is raised exactly while there is one. *)
Definition singleFlight (s : System) : Prop :=
  length (running s) <= 1
  ∧ (isUpdating (agent s) = true ↔ running s ≠ []).

(** A state with a cycle in flight, started by a cron callback. *)
Definition busy : System := (updateAllPrices Scheduled initial).1.

(** An HTTP 429 answer, the only conflict signal the code has. *)
Definition conflictSignal (o : Output) : Prop :=
  ∃ body, o = HttpResponse 429 body.

(** The results a settled promise delivers to [results.forEach]. *)
Definition resultsOf (outcome : CollectorOutcome) : list (Z * Result.t) :=
  match outcome with
  | Resolved results => results
  | Rejected _ => []
  end.

(** Was the promise rejected. *)
Definition isFault (outcome : CollectorOutcome) : bool :=
  match outcome with
  | Resolved _ => false
  | Rejected _ => true
  end.

(** For the collectors in the order their promises settle: the results
    delivered, the number of rejected promises, and the events. *)
Definition delivered (outs : list (Category * CollectorOutcome))
  : list (Z * Result.t) :=
  flat_map (λ co, resultsOf co.2) outs.

Definition faults (outs : list (Category * CollectorOutcome)) : nat :=
  length (List.filter (λ co, isFault co.2) outs).

Definition settlements (outs : list (Category * CollectorOutcome))
  : list Event :=
  map (λ co, Settles 0 co.1 co.2) outs.

(** The stores and the counters [(successes, errors)] after the loop
    body has run over [results], starting from zeroed counters. *)
Definition tally (results : list (Z * Result.t)) (this : UniversalPriceAgent.t)
  : UniversalPriceAgent.t * (nat * nat) :=
  (fold_left applyResult results (this, (0, 0), [])).1.

(** Every price in the current-price map and in the histories is above 0. *)
Definition positive (this : UniversalPriceAgent.t) : Prop :=
  (∀ symbol entry,
     dataStore this !! symbol = Some entry -> (0 < Current.currentPrice entry)%R)
  ∧ (∀ symbol history,
       updateHistory this !! symbol = Some history ->
       Forall (λ point, (0 < HistoryPoint.price point)%R) history).

(** A cycle in which the crypto collector delivers one good quote and
    the stocks collector is rejected. *)
Definition oneFault : list (Category * CollectorOutcome) :=
  [(crypto,
    Resolved
      [(1000%Z,
        Result.mk "BTC" true (Some 100%R) (Some "Binance"%string) (Some true)
          (Some 2) (Some 0%R) None)]);
   (stocks, Rejected "boom");
   (metals, Resolved []);
   (consumer, Resolved []);
   (luxury, Resolved []);
   (realestate, Resolved [])].

End CycleNotions.

(** Arrays ordered by reliability. *)
Module Ordering.

Import Observation.

(** Every observation is at least as reliable as those after it. *)
Definition descending (l : list Observation.t) : Prop :=
  StronglySorted (λ a b, (reliability b <= reliability a)%R) l.

End Ordering.

(** What a caller can rely on in the object a [collectXPrice] method
    returns for [symbol]. *)
Module ResultShape.

(** Either the failure object, or a success with a price and the number
    of consolidated sources, which is at least two when the result is
    verified. *)
Definition wellFormed (symbol : string) (r : Result.t) : Prop :=
  Result.symbol r = symbol
  ∧ ((Result.success r = false
      ∧ Result.price r = None
      ∧ Result.source r = None
      ∧ Result.verified r = Some false
      ∧ is_Some (Result.error r))
     ∨ (Result.success r = true
        ∧ is_Some (Result.price r)
        ∧ is_Some (Result.source r)
        ∧ ∃ n, Result.sources r = Some n
               ∧ 1 <= n
               ∧ (Result.verified r = Some true -> 2 <= n))).

(** A result that is not verified and rests on one source at most. *)
Definition unverifiable (r : Result.t) : Prop :=
  Result.verified r = Some false
  ∧ (Result.success r = true -> Result.sources r = Some 1).

End ResultShape.

(** Counting and ordering of prices. *)
Module PriceLists.

(** How many of the prices pass a test. *)
Definition countIf (test : R -> bool) (prices : list R) : nat :=
  length (List.filter test prices).

(** Every price is at most those after it. *)
Definition ascending (prices : list R) : Prop := StronglySorted Rle prices.

(** No parsed price of the list lies strictly between the bounds. *)
Definition noneWithin (lo hi : R) (parsed : list (option R)) : Prop :=
  Forall (λ q, ∀ x, q = Some x -> ¬ (lo < x < hi)%R) parsed.

End PriceLists.

(** Times of day at which the scheduled jobs act. *)
Module ScheduleNotions.

(** Does one of the two update jobs call [updateAllPrices] at this time. *)
Definition updates (hour minute : nat) : bool :=
  Schedule.marketHoursUpdate hour minute || Schedule.offHoursUpdate hour minute.

(** The minutes of a day, as hour and minute of the hour. *)
Definition minutesOfDay : list (nat * nat) :=
  hour ← seq 0 24; minute ← seq 0 60; [(hour, minute)].

(** How many times a day [updateAllPrices] is called by the schedule. *)
Definition updatesPerDay : nat :=
  length (List.filter (λ '(hour, minute), updates hour minute) minutesOfDay).

End ScheduleNotions.

(** The three stores of the agent, taken together. *)
Module StoreNotions.

Import UniversalPriceAgent HistoryNotions.






End StoreNotions.

(** The middle of a list of prices. *)
Module Medians.

Import JsMore PriceLists.

(** [m] is one of the prices, more than half of the prices are at most
    [m] and at least half of them, rounded up, are at least [m]: the
    median, the upper one of the two middle prices when their number is
    even. *)
Definition centre (prices : list R) (m : R) : Prop :=
  m ∈ prices
  ∧ length prices / 2 < countIf (λ x, leb x m) prices
  ∧ length prices - length prices / 2 <= countIf (λ x, geb x m) prices.

End Medians.

(** Counting the results of a cycle. *)
Module CountNotions.

Import Orchestrator.

(** Does a result pass the orchestrator's test. *)
Definition passes (timed : Z * Result.t) : bool :=
  match accepted timed.2 with
  | Some _ => true
  | None => false
  end.

(** How many of the results pass it. *)
Definition acceptedCount (results : list (Z * Result.t)) : nat :=
  length (List.filter passes results).

End CountNotions.

(** Eleven sales of 200000 for 200 square feet each. *)
Module SalesExample.

Definition elevenSales : list RealEstateAdapters.Sale :=
  replicate 11 (RealEstateAdapters.mkSale (Some 200000%R) (Some 200%R)).

End SalesExample.

(** The HTTP answers among the outputs of a run. *)
Module ResponseNotions.

Import Orchestrator.

Definition responses (out : list Output) : list (nat * string) :=
  omap (λ o, match o with
             | HttpResponse status body => Some (status, body)
             | _ => None
             end) out.

End ResponseNotions.

(** * Properties *)

(** ** Sorting by descending reliability *)

Module SortFacts.

Import Observation Consolidation Selection.

Lemma insert_perm {A : Type} (cmp : A -> A -> R) (a : A) (l : list A) :
  Js.insert cmp a l ≡ₚ a :: l.
Proof.
  induction l as [|b l IH]; simpl; [done|].
  destruct (Rgt_dec (cmp a b) 0); [|done].
  rewrite IH. apply Permutation_swap.
Qed.

Lemma sort_perm {A : Type} (cmp : A -> A -> R) (l : list A) :
  Js.sort cmp l ≡ₚ l.
Proof.
  induction l as [|a l IH]; simpl; [done|].
  rewrite insert_perm. by rewrite IH.
Qed.

Lemma sort_length {A : Type} (cmp : A -> A -> R) (l : list A) :
  length (Js.sort cmp l) = length l.
Proof. apply Permutation_length, sort_perm. Qed.

Lemma pick_assoc a b c : pick (pick a b) c = pick a (pick b c).
Proof.
  unfold pick.
  repeat (destruct (Rlt_dec _ _); try done; try lra).
Qed.

Lemma head_insert a l :
  head (Js.insert byReliabilityDesc a l)
  = Some (match head l with Some b => pick a b | None => a end).
Proof.
  destruct l as [|b l]; simpl; [done|].
  unfold byReliabilityDesc, pick.
  destruct (Rgt_dec _ _), (Rlt_dec _ _); try done; lra.
Qed.

Lemma head_sort_cons a l :
  head (Js.sort byReliabilityDesc (a :: l))
  = Some (match head (Js.sort byReliabilityDesc l) with
          | Some b => pick a b
          | None => a
          end).
Proof. apply head_insert. Qed.

Lemma mostReliable_fold best rest :
  Reference.mostReliable best rest = fold_left pick rest best.
Proof. revert best. induction rest as [|o rest IH]; intros best; simpl; [done|]. apply IH. Qed.

Lemma fold_pick_cons a b l :
  fold_left pick (b :: l) a = pick a (fold_left pick l b).
Proof.
  revert a b. induction l as [|c l IH]; intros a b; [done|].
  change (fold_left pick (c :: l) (pick a b) = pick a (fold_left pick (c :: l) b)).
  rewrite !IH. apply pick_assoc.
Qed.

(** The first element after the sort is the observation the left-to-right
    scan of the specification selects. *)
Lemma head_sort_mostReliable a l :
  head (Js.sort byReliabilityDesc (a :: l)) = Some (Reference.mostReliable a l).
Proof.
  revert a. induction l as [|b l IH]; intros a; [done|].
  rewrite head_sort_cons, IH, !mostReliable_fold. by rewrite fold_pick_cons.
Qed.

Lemma mostReliable_first a l :
  firstMostReliable (a :: l) (Reference.mostReliable a l).
Proof.
  revert a. induction l as [|b l IH]; intros a.
  - exists [], []. by repeat split.
  - rewrite mostReliable_fold, fold_pick_cons, <- mostReliable_fold.
    destruct (IH b) as (before & after & Heq & Hlt & Hle).
    set (top := Reference.mostReliable b l) in *.
    unfold pick. destruct (Rlt_dec _ _) as [Hat|Hat].
    + exists (a :: before), after. rewrite Heq. repeat split; [|done].
      by constructor.
    + exists [], (b :: l). repeat split; [constructor|].
      rewrite Heq. apply Forall_app. split.
      * eapply Forall_impl; [exact Hlt|]. simpl. intros; lra.
      * constructor; [lra|]. eapply Forall_impl; [exact Hle|]. simpl. intros; lra.
Qed.

Lemma firstMostReliable_unique l top top' :
  firstMostReliable l top -> firstMostReliable l top' -> top = top'.
Proof.
  intros (b1 & a1 & E1 & L1 & G1) (b2 & a2 & E2 & L2 & G2).
  revert b2 E1 E2 L1 L2. revert l.
  induction b1 as [|x b1 IH]; intros l b2 E1 E2 L1 L2.
  - destruct b2 as [|y b2]; simpl in *; subst l; [congruence|].
    injection E2 as -> Ht.
    apply Forall_cons in L2 as [Hy _]. 
    assert (Hin : top' ∈ a1) by (rewrite Ht; set_solver).
    rewrite Forall_forall in G1. specialize (G1 _ Hin). lra.
  - destruct b2 as [|y b2]; simpl in *; subst l.
    + injection E2 as -> Ht.
      apply Forall_cons in L1 as [Hx _].
      assert (Hin : top ∈ a2) by (rewrite <- Ht; set_solver).
      rewrite Forall_forall in G2. specialize (G2 _ Hin). lra.
    + injection E2 as -> Ht.
      apply Forall_cons in L1 as [_ L1]. apply Forall_cons in L2 as [_ L2].
      by eapply (IH (b1 ++ top :: a1) b2).
Qed.

End SortFacts.

(** ** The consolidation method against its contract *)

Module ConsolidationFacts.

Import Observation Consolidation Selection WorkedExample SortFacts.

Lemma forEach_sums (l : list Observation.t) (tw ws : R) :
  fold_left
    (fun '(tw, ws) s =>
       ((tw + reliability s)%R, (ws + price s * reliability s)%R))
    l (tw, ws)
  = ((tw + Reference.sum (map reliability l))%R,
     (ws + Reference.sum (map (fun o => price o * reliability o) l))%R)%R.
Proof.
  revert tw ws. induction l as [|s l IH]; intros tw ws; simpl.
  - f_equal; lra.
  - rewrite IH. f_equal; lra.
Qed.

Lemma reduce_plus (l : list R) (x : R) :
  fold_left Rplus l x = (x + Reference.sum l)%R.
Proof.
  revert x. induction l as [|y l IH]; intros x; simpl; [lra|].
  rewrite IH. lra.
Qed.

Lemma reduce_squares (m : R) (l : list R) (acc : R) :
  fold_left (fun acc p => (acc + Js.Math_pow2 (p - m))%R) l acc
  = (acc + Reference.sum (map (fun p => Rsqr (p - m)) l))%R.
Proof.
  revert acc. induction l as [|y l IH]; intros acc; simpl; [lra|].
  rewrite IH. unfold Js.Math_pow2, Rsqr. lra.
Qed.





Section Method.
Variable threshold : R.
Variable label : Observation.t -> string.

(** What the method does on two or more observations, in the terms of
    the contract. *)
Lemma verifyAndConsolidate_many a b l :
  let sources := a :: b :: l in
  let cv := Reference.coefficientOfVariation sources in
  let verified := Js.ltb cv threshold in
  let top := Reference.mostReliable a (b :: l) in
  ∃ rest,
    Js.sort byReliabilityDesc sources = top :: rest
    ∧ verifyAndConsolidate threshold label sources
      = mkOutcome
          (Js.Normal
             {| Consolidated.price :=
                  if verified then Reference.weightedMean sources else price top;
                Consolidated.primarySource := source top;
                Consolidated.verified := verified;
                Consolidated.variance := cv |})
          (top :: rest)
          [LogVerification (label top) cv verified].
Proof.
  intros sources cv verified top.
  pose proof (head_sort_mostReliable a (b :: l)) as Hhead.
  fold sources top in Hhead.
  destruct (Js.sort byReliabilityDesc sources) as [|top' rest] eqn:Hsort;
    [done|].
  injection Hhead as ->. exists rest. split; [done|].
  unfold verifyAndConsolidate. fold sources. 
  unfold sources at 1. cbv beta iota.
  fold sources.
  rewrite forEach_sums.
  assert (Hred : Js.reduce Rplus (map price sources)
                 = Js.Normal (Reference.sum (map price sources))).
  { unfold sources. simpl. f_equal. rewrite reduce_plus. lra. }
  rewrite Hred, Hsort, reduce_squares, length_map, map_map.
  rewrite !Rplus_0_l.
  reflexivity.
Qed.

(** Outside the two-or-more case: one observation is passed through, an
    empty array makes [reduce] throw; the array is not touched and nothing
    is logged. *)
Lemma verifyAndConsolidate_single o :
  verifyAndConsolidate threshold label [o]
  = mkOutcome
      (Js.Normal
         {| Consolidated.price := price o;
            Consolidated.primarySource := source o;
            Consolidated.verified := false;
            Consolidated.variance := 0%R |})
      [o] [].
Proof. reflexivity. Qed.

Lemma verifyAndConsolidate_empty :
  verifyAndConsolidate threshold label []
  = mkOutcome
      (Js.Throw "TypeError: Reduce of empty array with no initial value") [] [].
Proof. reflexivity. Qed.

Lemma verifyAndConsolidate_logged sources :
  logged (verifyAndConsolidate threshold label sources) = []
  ∨ ∃ l cv v,
      logged (verifyAndConsolidate threshold label sources) = [LogVerification l cv v].
Proof.
  destruct sources as [|a [|b l]]; [by left|by left|].
  destruct (verifyAndConsolidate_many a b l) as (rest & _ & ->).
  right. cbn [logged]. eauto.
Qed.

End Method.

(** *** The worked example of the specification *)








End ConsolidationFacts.

(** ** Claims on the consolidation engine *)

Module ConsolidationClaims.

Import Observation Consolidation Selection WorkedExample SortFacts ConsolidationFacts.



(** C2.  With two or more observations the [primarySource] of the result
    is the source of the observation of highest reliability, the first in
    input order among those that share it; this holds for every threshold,
    hence whether or not the result is verified. *)
Theorem primarySource_most_reliable threshold label sources :
  2 <= length sources ->
  ∃ result top,
    returned (verifyAndConsolidate threshold label sources) = Js.Normal result
    ∧ firstMostReliable sources top
    ∧ Consolidated.primarySource result = source top.
Proof.
  destruct sources as [|a [|b l]]; cbn [length]; [lia|lia|]. intros _.
  destruct (verifyAndConsolidate_many threshold label a b l) as (rest & _ & ->).
  eexists _, (Reference.mostReliable a (b :: l)).
  split; [reflexivity|]. split; [apply mostReliable_first|done].
Qed.

Lemma primarySource_most_reliable_witness :
  ∃ result,
    returned (MetalsCollector.verifyAndConsolidate [obsB; obsA; obsA]) = Js.Normal result
    ∧ Consolidated.primarySource result = "A"%string.
Proof.
  destruct (primarySource_most_reliable 0.01%R (fun _ => "Metals"%string)
              [obsB; obsA; obsA]) as (result & top & Hret & Htop & Hsrc);
    [simpl; lia|].
  exists result. split; [exact Hret|].
  rewrite Hsrc.
  assert (Hfirst : firstMostReliable [obsB; obsA; obsA] obsA).
  { exists [obsB], [obsA]. split; [done|]. split.
    - apply Forall_singleton. simpl. lra.
    - apply Forall_singleton. simpl. lra. }
  by rewrite (firstMostReliable_unique _ _ _ Htop Hfirst).
Defined.

(** C8 fails as stated: the crypto method called on CoinGecko (0.9)
    followed by Binance (0.95) leaves the array as Binance, CoinGecko. *)
Lemma input_order_not_preserved :
  let coinGecko := Observation.mk "CoinGecko" 100 0.9 in
  let binance := Observation.mk "Binance" 101 0.95 in
  sourcesAfter (CryptoCollector.verifyAndConsolidate [coinGecko; binance])
  = [binance; coinGecko]
  ∧ sourcesAfter (CryptoCollector.verifyAndConsolidate [coinGecko; binance])
    ≠ [coinGecko; binance].
Proof.
  intros coinGecko binance.
  assert (Hafter : sourcesAfter (CryptoCollector.verifyAndConsolidate [coinGecko; binance])
                   = [binance; coinGecko]).
  { unfold CryptoCollector.verifyAndConsolidate.
    destruct (verifyAndConsolidate_many 0.02%R Observation.source coinGecko binance [])
      as (rest & Hsort & Hout).
    cbv zeta in Hout. rewrite Hout. cbn [sourcesAfter]. rewrite <- Hsort.
    simpl. unfold byReliabilityDesc.
    destruct (Rgt_dec _ _) as [Hgt|Hgt]; [done|]. simpl in Hgt. lra. }
  split; [exact Hafter|]. rewrite Hafter. by intros [= ? ?].
Qed.

(** C8, amended.  The effects of the method are one diagnostic log entry
    at most and, when it is given two or more observations, a stable
    re-sort of the argument array by descending reliability: afterwards
    the array holds the same observations (a permutation of the input),
    not necessarily in the input order.  An array of fewer than two
    observations is left as it is. *)
Theorem consolidate_effects threshold label sources :
  let out := verifyAndConsolidate threshold label sources in
  sourcesAfter out ≡ₚ sources
  ∧ sourcesAfter out
    = (if (2 <=? length sources)%nat
       then Js.sort byReliabilityDesc sources else sources)
  ∧ (logged out = [] ∨ ∃ l cv v, logged out = [LogVerification l cv v]).
Proof.
  destruct sources as [|a [|b l]].
  - repeat split; [done|by left].
  - repeat split; [done|by left].
  - destruct (verifyAndConsolidate_many threshold label a b l)
      as (rest & Hsort & Hout).
    cbv zeta in *. rewrite Hout. cbn [sourcesAfter logged].
    rewrite <- Hsort. split; [apply sort_perm|]. split; [done|].
    right. eauto.
Qed.

End ConsolidationClaims.

(** ** Claims on the collectors *)

Module CollectorFacts.

Import Collector CollectorNotions.

Lemma invocations_app l1 l2 :
  invocations (l1 ++ l2) = invocations l1 ++ invocations l2.
Proof. unfold invocations. apply flat_map_app. Qed.

(** An adapter block never logs a call of the consolidation method. *)
Lemma tryAdapter_invocations name reliability warning outcome acc :
  invocations (tryAdapter name reliability warning outcome acc).2
  = invocations acc.2.
Proof.
  destruct outcome as [[p|]|message]; simpl; try done.
  - by destruct (Req_dec_T p 0).
  - rewrite invocations_app. simpl. by rewrite app_nil_r.
Qed.

Lemma tryAdapter_falsy name reliability warning outcome acc :
  falsyOutcome outcome ->
  (tryAdapter name reliability warning outcome acc).1 = acc.1.
Proof.
  destruct outcome as [[p|]|message]; simpl; try done.
  intros ->. by destruct (Req_dec_T 0 0).
Qed.

Lemma validSources_positive sources :
  Forall (λ s, (0 < Observation.price s)%R) (RealEstateCollector.validSources sources).
Proof.
  apply Forall_forall. intros s Hin.
  apply list_elem_of_In, filter_In in Hin as [_ Hgt].
  unfold Js.gtb in Hgt. destruct (Rgt_dec _ _) as [H|H]; [lra|done].
Qed.

Lemma tryAdapter_noValid name reliability warning outcome acc :
  noValidPrice outcome ->
  RealEstateCollector.validSources (tryAdapter name reliability warning outcome acc).1
  = RealEstateCollector.validSources acc.1.
Proof.
  destruct outcome as [[p|]|message]; simpl; try done.
  intros Hp. destruct (Req_dec_T p 0); [done|]. simpl.
  unfold RealEstateCollector.validSources. rewrite List.filter_app. simpl.
  unfold Js.gtb. destruct (Rgt_dec p 0); [lra|]. by rewrite app_nil_r.
Qed.

Lemma gather_invocations env symbol :
  invocations (CryptoCollector.gather env symbol).2 = [].
Proof.
  unfold CryptoCollector.gather.
  destruct (CryptoCollector.COINMARKETCAP_API_KEY env);
    by rewrite !tryAdapter_invocations.
Qed.

(** The common tail on an empty array: the failure object, no exception,
    no call of the consolidation method. *)
Lemma finish_empty method emptyMessage symbol log :
  finish method emptyMessage symbol [] log
  = (Js.Normal (failure symbol emptyMessage), log).
Proof. reflexivity. Qed.

(** The common tail calls the consolidation method once, with the array
    it was given, unless that array is empty. *)
Lemma finish_invocations method emptyMessage symbol sources log :
  (∀ arr, invocations (Consolidation.logged (method arr)) = []) ->
  invocations log = [] ->
  invocations (finish method emptyMessage symbol sources log).2
  = if (length sources =? 0)%nat then [] else [sources].
Proof.
  intros Hmethod Hlog. unfold finish.
  destruct (length sources =? 0)%nat; [done|].
  destruct (Consolidation.returned (method sources)); cbn [snd];
    rewrite invocations_app, Hlog;
    change (invocations (Invoked sources :: ?l)) with (sources :: invocations l);
    rewrite ?invocations_app, Hmethod; done.
Qed.

(** The common tail never lets an exception escape. *)
Lemma finish_normal method emptyMessage symbol sources log :
  ∃ result, (finish method emptyMessage symbol sources log).1 = Js.Normal result.
Proof.
  unfold finish. destruct (length sources =? 0)%nat; [by eexists|].
  destruct (Consolidation.returned _); by eexists.
Qed.

End CollectorFacts.

Module CollectorClaims.

Import Collector CollectorNotions CollectorFacts.

(** X12.  A symbol for which no observation remains after the collector's
    filtering gets the structured failure object ([success: false] with
    the collector's message, 'No sources available' in the crypto
    collector and 'No valid sources available' in the real-estate
    collector), returned normally, and the consolidation method is not
    called for it.  For the real-estate collector this covers every
    symbol whose adapters all throw, return nothing or return a price
    that is not above 0; for the crypto collector every symbol whose
    adapters all throw, return nothing or return 0.  Whatever the
    adapters do, both methods return normally: no exception leaves
    them. *)
Theorem no_sources_structured_failure :
  (∀ env symbol,
     (CryptoCollector.gather env symbol).1 = [] ->
     (CryptoCollector.collectCryptoPrice env symbol).1
       = Js.Normal (failure symbol "No sources available")
     ∧ invocations (CryptoCollector.collectCryptoPrice env symbol).2 = [])
  ∧ (∀ env symbol,
       falsyOutcome (CryptoCollector.getCoinGeckoPrice env) ->
       falsyOutcome (CryptoCollector.getBinancePrice env) ->
       falsyOutcome (CryptoCollector.getCoinMarketCapPrice env) ->
       (CryptoCollector.gather env symbol).1 = [])
  ∧ (∀ env symbol,
       noValidPrice (RealEstateCollector.getFredHousingPrice env) ->
       noValidPrice (RealEstateCollector.getZillowResearchData env) ->
       noValidPrice (RealEstateCollector.getRedfinData env) ->
       noValidPrice (RealEstateCollector.scrapeNarData env) ->
       noValidPrice (RealEstateCollector.getStatCanHousingPrice env) ->
       noValidPrice (RealEstateCollector.scrapeCreaData env) ->
       noValidPrice (RealEstateCollector.getNycOpenDataPrice env) ->
       noValidPrice (RealEstateCollector.scrapeStreetEasyData env) ->
       (RealEstateCollector.collectRealEstatePrice env symbol).1
         = Js.Normal (failure symbol "No valid sources available")
       ∧ invocations (RealEstateCollector.collectRealEstatePrice env symbol).2 = [])
  ∧ (∀ env env' symbol,
       (∃ result,
          (CryptoCollector.collectCryptoPrice env symbol).1 = Js.Normal result)
       ∧ (∃ result,
            (RealEstateCollector.collectRealEstatePrice env' symbol).1
            = Js.Normal result)).
Proof.
  split; [|split; [|split]].
  - intros env symbol Hempty.
    unfold CryptoCollector.collectCryptoPrice.
    pose proof (gather_invocations env symbol) as Hinv.
    destruct (CryptoCollector.gather env symbol) as [sources log].
    simpl in Hempty, Hinv. subst sources. by rewrite finish_empty.
  - intros env symbol H1 H2 H3. unfold CryptoCollector.gather.
    destruct (CryptoCollector.COINMARKETCAP_API_KEY env);
      by rewrite !tryAdapter_falsy.
  - intros env symbol H1 H2 H3 H4 H5 H6 H7 H8.
    unfold RealEstateCollector.collectRealEstatePrice.
    set (gathered := if String.eqb symbol "HOUSE-US" then _ else _).
    assert (Hvalid : RealEstateCollector.validSources gathered.1 = []
                      ∧ invocations gathered.2 = []).
    { unfold gathered, RealEstateCollector.collectUSHousingPrices,
        RealEstateCollector.collectCanadaHousingPrices,
        RealEstateCollector.collectNYCPricesPerSqft.
      repeat case_match; rewrite ?tryAdapter_noValid, ?tryAdapter_invocations;
        done. }
    destruct gathered as [sources log]. simpl in Hvalid.
    destruct Hvalid as [-> Hlog]. by rewrite finish_empty.
  - intros env env' symbol. split.
    + unfold CryptoCollector.collectCryptoPrice.
      destruct (CryptoCollector.gather env symbol) as [sources log].
      apply finish_normal.
    + unfold RealEstateCollector.collectRealEstatePrice.
      destruct (if String.eqb symbol "HOUSE-US" then _ else _) as [sources log].
      apply finish_normal.
Qed.

Lemma no_sources_structured_failure_witness :
  (CryptoCollector.collectCryptoPrice
     (CryptoCollector.mkEnv (Fails "timeout") (Returns None) (Returns None) false)
     "BTC").1
  = Js.Normal (failure "BTC" "No sources available").
Proof.
  apply (proj1 no_sources_structured_failure
           (CryptoCollector.mkEnv (Fails "timeout") (Returns None) (Returns None) false)
           "BTC").
  reflexivity.
Defined.

(** C6 does not hold in the crypto collector.  In the run [negativeQuote]
    no adapter yields a price above 0 (CoinGecko answers -5, Binance
    nothing, CoinMarketCap is not asked), so the symbol has no valid
    observation; yet [collectCryptoPrice] calls the consolidation method
    with the CoinGecko observation and returns the success object with
    price -5 and no error, where the claim prescribes the failure object
    and no call.  The real-estate collector, given -5 by FRED and
    nothing by its other adapters, filters the observation out, returns
    its failure object and does not call the consolidation method. *)
Theorem crypto_reports_success_without_valid_price :
  (noValidPrice (CryptoCollector.getCoinGeckoPrice negativeQuote)
   ∧ noValidPrice (CryptoCollector.getBinancePrice negativeQuote)
   ∧ noValidPrice (CryptoCollector.getCoinMarketCapPrice negativeQuote))
  ∧ (∃ result,
       (CryptoCollector.collectCryptoPrice negativeQuote "BTC").1 = Js.Normal result
       ∧ Result.success result = true
       ∧ Result.price result = Some (-5)%R
       ∧ Result.error result = None)
  ∧ invocations (CryptoCollector.collectCryptoPrice negativeQuote "BTC").2
    = [[Observation.mk "CoinGecko" (-5) 0.9]]
  ∧ (RealEstateCollector.collectRealEstatePrice negativeListing "HOUSE-US").1
    = Js.Normal (failure "HOUSE-US" "No valid sources available")
  ∧ invocations
      (RealEstateCollector.collectRealEstatePrice negativeListing "HOUSE-US").2
    = [].
Proof.
  assert (Hrun : CryptoCollector.collectCryptoPrice negativeQuote "BTC"
                 = (Js.Normal
                      (consolidated "BTC"
                         {| Consolidated.price := (-5)%R;
                            Consolidated.primarySource := "CoinGecko";
                            Consolidated.verified := false;
                            Consolidated.variance := 0%R |} 1),
                    [Invoked [Observation.mk "CoinGecko" (-5) 0.9]])).
  { unfold CryptoCollector.collectCryptoPrice, CryptoCollector.gather, negativeQuote.
    cbn [CryptoCollector.getCoinGeckoPrice CryptoCollector.getBinancePrice
         CryptoCollector.COINMARKETCAP_API_KEY tryAdapter Js.truthy fst snd].
    destruct (Req_dec_T (-5) 0) as [H|H]; [lra|]. reflexivity. }
  assert (Hsibling :
            RealEstateCollector.collectRealEstatePrice negativeListing "HOUSE-US"
            = (Js.Normal (failure "HOUSE-US" "No valid sources available"), [])).
  { unfold RealEstateCollector.collectRealEstatePrice.
    change (String.eqb "HOUSE-US" "HOUSE-US") with true. cbv iota.
    unfold RealEstateCollector.collectUSHousingPrices, negativeListing.
    cbn [RealEstateCollector.FRED_API_KEY RealEstateCollector.getFredHousingPrice
         RealEstateCollector.getZillowResearchData RealEstateCollector.getRedfinData
         RealEstateCollector.scrapeNarData tryAdapter Js.truthy fst snd].
    destruct (Req_dec_T (-5) 0) as [H|H]; [lra|].
    cbn [app fst snd]. unfold RealEstateCollector.validSources.
    cbn [List.filter Observation.price]. unfold Js.gtb.
    destruct (Rgt_dec (-5) 0) as [H'|H']; [lra|]. reflexivity. }
  split; [simpl; repeat split; lra|].
  rewrite Hrun, Hsibling. cbn [fst snd].
  split; [eexists; split; [reflexivity|]; by repeat split|].
  by repeat split.
Qed.

(** C7 does not hold in the crypto collector: its adapter blocks test the
    price for truthiness only, so a negative price is pushed and the
    consolidation method is called with it; the result reports success
    with price -5. *)
Theorem crypto_consolidates_negative_price :
  CryptoCollector.collectCryptoPrice negativeQuote "BTC"
  = (Js.Normal
       (consolidated "BTC"
          {| Consolidated.price := (-5)%R;
             Consolidated.primarySource := "CoinGecko";
             Consolidated.verified := false;
             Consolidated.variance := 0%R |} 1),
     [Invoked [Observation.mk "CoinGecko" (-5) 0.9]]).
Proof.
  unfold CryptoCollector.collectCryptoPrice, CryptoCollector.gather, negativeQuote.
  cbn [CryptoCollector.getCoinGeckoPrice CryptoCollector.getBinancePrice
       CryptoCollector.COINMARKETCAP_API_KEY tryAdapter Js.truthy fst snd].
  destruct (Req_dec_T (-5) 0) as [H|H]; [lra|].
  reflexivity.
Qed.

(** The sibling path: every array the real-estate collector hands to the
    consolidation method holds prices above 0 only. *)
Lemma realEstate_consolidates_positive_prices env symbol sources :
  sources ∈ invocations (RealEstateCollector.collectRealEstatePrice env symbol).2 ->
  Forall (λ s, (0 < Observation.price s)%R) sources.
Proof.
  unfold RealEstateCollector.collectRealEstatePrice.
  set (gathered := if String.eqb symbol "HOUSE-US" then _ else _).
  assert (Hlog : invocations gathered.2 = []).
  { unfold gathered, RealEstateCollector.collectUSHousingPrices,
      RealEstateCollector.collectCanadaHousingPrices,
      RealEstateCollector.collectNYCPricesPerSqft.
    repeat case_match; rewrite ?tryAdapter_invocations; done. }
  destruct gathered as [gatheredSources log]. simpl in Hlog.
  rewrite finish_invocations; [|intros arr|done].
  - destruct (length _ =? 0)%nat; [set_solver|].
    intros ->%list_elem_of_singleton. apply validSources_positive.
  - destruct (ConsolidationFacts.verifyAndConsolidate_logged 0.10%R
                (fun _ => "Real estate"%string) arr)
      as [H|(l & cv & v & H)];
      unfold RealEstateCollector.verifyAndConsolidate; by rewrite H.
Qed.

End CollectorClaims.

(** ** Claims on the history store *)

Module HistoryFacts.

Import UniversalPriceAgent HistoryNotions.

Lemma updateItemData_history now symbol price source verified this :
  let appended := historyOf symbol this ++ [pointOf now price source verified] in
  historyOf symbol (updateItemData now symbol price source verified this)
  = drop (length appended - 1000) appended.
Proof.
  unfold historyOf, updateItemData, pointOf. cbn [updateHistory].
  rewrite lookup_insert_eq. cbn [default].
  set (appended := _ ++ [_]).
  destruct (Nat.ltb_spec 1000 (length appended)) as [H|H]; [done|].
  by replace (length appended - 1000) with 0 by lia.
Qed.

Lemma updateItemData_other now symbol price source verified this other :
  symbol ≠ other ->
  updateHistory (updateItemData now symbol price source verified this) !! other
  = updateHistory this !! other.
Proof. intros Hne. unfold updateItemData. cbn [updateHistory]. by rewrite lookup_insert_ne. Qed.

Lemma updateItemData_length now symbol price source verified this :
  length (historyOf symbol (updateItemData now symbol price source verified this))
  <= 1000.
Proof. rewrite updateItemData_history. cbv zeta. rewrite length_drop. lia. Qed.

Lemma updateItemData_lookup now symbol price source verified this :
  updateHistory (updateItemData now symbol price source verified this) !! symbol
  = Some (historyOf symbol (updateItemData now symbol price source verified this)).
Proof. unfold historyOf, updateItemData. cbn [updateHistory]. by rewrite lookup_insert_eq. Qed.

Lemma updateItemData_capped now symbol price source verified this :
  capped this -> capped (updateItemData now symbol price source verified this).
Proof.
  intros Hcap other history.
  destruct (decide (symbol = other)) as [<-|Hne].
  - rewrite updateItemData_lookup. intros [= <-]. apply updateItemData_length.
  - rewrite updateItemData_other by done. apply Hcap.
Qed.

Lemma appendAll_capped updates this :
  capped this -> capped (appendAll updates this).
Proof.
  revert this. induction updates as [|[[[[now symbol] price] source] verified] updates IH];
    intros this Hcap; [done|].
  apply IH. by apply updateItemData_capped.
Qed.

Lemma create_capped : capped create.
Proof. intros symbol history. unfold create. cbn [updateHistory]. by rewrite lookup_empty. Qed.

Lemma historyOf_create symbol : historyOf symbol create = [].
Proof. unfold historyOf, create. cbn [updateHistory]. by rewrite lookup_empty. Qed.

(** Appending a run of points to one symbol keeps the last 1000 of the
    old history followed by the run. *)
Lemma appendAll_history symbol points this :
  length (historyOf symbol this) <= 1000 ->
  let all := historyOf symbol this ++ map pointOfAppend points in
  historyOf symbol (appendAll (map (onSymbol symbol) points) this)
  = drop (length all - 1000) all.
Proof.
  revert this. induction points as [|[[[now price] source] verified] points IH];
    intros this Hlen; cbv zeta.
  - simpl. rewrite app_nil_r.
    by replace (length (historyOf symbol this) - 1000) with 0 by lia.
  - cbn [map fold_left appendAll onSymbol applyUpdate pointOfAppend].
    fold (appendAll (map (onSymbol symbol) points)
            (updateItemData now symbol price source verified this)).
    rewrite IH by apply updateItemData_length.
    cbv zeta. rewrite updateItemData_history. cbv zeta.
    set (old := historyOf symbol this) in *.
    set (p := pointOf now price source verified).
    set (rest := map pointOfAppend points).
    replace (old ++ p :: rest) with ((old ++ [p]) ++ rest)
      by (by rewrite <- app_assoc).
    set (A := old ++ [p]).
    rewrite <- (drop_app_le A rest (length A - 1000)) by lia.
    rewrite drop_drop. f_equal.
    rewrite length_drop, !length_app. lia.
Qed.

End HistoryFacts.

Module HistoryClaims.

Import UniversalPriceAgent HistoryNotions HistoryFacts.

(** C4.  [updateItemData] puts the new point at the end of the symbol's
    history and then keeps the last 1000 points only, dropping from the
    front; so the history it leaves has at most 1000 points, every
    history stays within 1000 points under any sequence of appends, and
    1001 appends to a fresh symbol leave exactly the last 1000 of them:
    only the oldest point is gone.  What [saveData] writes for a symbol
    is again at most 1000 points long. *)
Theorem history_cap :
  (∀ now symbol price source verified this,
     let appended := historyOf symbol this ++ [pointOf now price source verified] in
     let after := historyOf symbol (updateItemData now symbol price source verified this) in
     after = drop (length appended - 1000) appended
     ∧ length after <= 1000
     ∧ (length (historyOf symbol this) < 1000 -> after = appended))
  ∧ (∀ updates, capped (appendAll updates create))
  ∧ (∀ updates this, capped this -> capped (appendAll updates this))
  ∧ (∀ symbol points,
       length points = 1001 ->
       let after := historyOf symbol (appendAll (map (onSymbol symbol) points) create) in
       after = drop 1 (map pointOfAppend points) ∧ length after = 1000)
  ∧ (∀ this symbol saved,
       saveData this !! symbol = Some saved -> length saved <= 1000).
Proof.
  split; [|split; [|split; [|split]]].
  - intros now symbol price source verified this. cbv zeta.
    split; [apply updateItemData_history|].
    split; [apply updateItemData_length|].
    intros Hlt. rewrite updateItemData_history. cbv zeta.
    set (appended := _ ++ _).
    assert (length appended <= 1000)
      by (subst appended; rewrite length_app; simpl; lia).
    by replace (length appended - 1000) with 0 by lia.
  - intros updates. apply appendAll_capped, create_capped.
  - apply appendAll_capped.
  - intros symbol points Hlen. cbv zeta.
    rewrite appendAll_history by (rewrite historyOf_create; simpl; lia).
    cbv zeta. rewrite historyOf_create, app_nil_l, length_map, Hlen.
    split; [done|]. rewrite length_drop, length_map, Hlen. done.
  - intros this symbol saved. unfold saveData. rewrite lookup_fmap.
    destruct (updateHistory this !! symbol) as [history|]; [|done].
    intros [= <-]. unfold sliceLast1000. rewrite length_drop. lia.
Qed.

Lemma history_cap_witness :
  let points := replicate 1001 (0%Z, 1%R, @None string, @None bool) in
  length (historyOf "BTC" (appendAll (map (onSymbol "BTC") points) create)) = 1000.
Proof.
  intros points.
  apply (proj1 (proj2 (proj2 (proj2 history_cap))) "BTC"%string points).
  reflexivity.
Defined.

(** C5.  [getHistoricalData] returns, in stored order, the points of the
    symbol whose timestamp is at least [now] minus the window, each
    reduced to price, timestamp and verified flag (a missing flag reads
    false).  The windows are one hour, one day, 7, 30, 90 and 365 days in
    milliseconds; any other period string is treated as 1W.  A point
    exactly at [now - window] is returned, no older point is. *)
Theorem historical_window :
  (windowMillis "1H" = 3600000 ∧ windowMillis "1D" = 86400000
   ∧ windowMillis "1W" = 604800000 ∧ windowMillis "1M" = 2592000000
   ∧ windowMillis "3M" = 7776000000 ∧ windowMillis "1Y" = 31536000000)%Z
  ∧ (∀ period : string,
       period ∉ ["1H"; "1D"; "1W"; "1M"; "3M"; "1Y"]%string ->
       windowMillis period = windowMillis "1W")
  ∧ (∀ now symbol period this,
       getHistoricalData now symbol period this
       = map toSample
           (List.filter
              (λ point, (now - windowMillis period <=? HistoryPoint.timestamp point)%Z)
              (historyOf symbol this)))
  ∧ (∀ now symbol period this point,
       point ∈ historyOf symbol this ->
       (now - windowMillis period <= HistoryPoint.timestamp point)%Z ->
       toSample point ∈ getHistoricalData now symbol period this)
  ∧ (∀ now symbol period this sample,
       sample ∈ getHistoricalData now symbol period this ->
       ∃ point,
         point ∈ historyOf symbol this
         ∧ (now - windowMillis period <= HistoryPoint.timestamp point)%Z
         ∧ Sample.price sample = HistoryPoint.price point
         ∧ Sample.timestamp sample = HistoryPoint.timestamp point
         ∧ Sample.verified sample = default false (HistoryPoint.verified point)).
Proof.
  assert (Heq : ∀ now symbol period this,
             getHistoricalData now symbol period this
             = map toSample
                 (List.filter
                    (λ point, (now - windowMillis period <=? HistoryPoint.timestamp point)%Z)
                    (historyOf symbol this))).
  { intros now symbol period this. unfold getHistoricalData.
    fold (historyOf symbol this).
    by destruct (historyOf symbol this). }
  split; [by repeat split|]. split; [|split; [exact Heq|split]].
  - intros period Hnot.
    transitivity (7 * 24 * 60 * 60 * 1000)%Z; [|done].
    unfold windowMillis.
    repeat match goal with
           | |- context [String.eqb period ?s] =>
               destruct (String.eqb_spec period s) as [->|_];
               [exfalso; apply Hnot; set_solver|]
           end.
    done.
  - intros now symbol period this point Hin Hts. rewrite Heq.
    apply list_elem_of_fmap_2, list_elem_of_In, filter_In.
    split; [by apply list_elem_of_In|]. by apply Z.leb_le.
  - intros now symbol period this sample. rewrite Heq.
    intros (point & -> & Hin)%list_elem_of_fmap.
    apply list_elem_of_In, filter_In in Hin as [Hin Hts].
    exists point. split; [by apply list_elem_of_In|].
    split; [by apply Z.leb_le|]. repeat split.
    unfold toSample. cbn [Sample.verified]. by rewrite orb_false_r.
Qed.

Lemma historical_window_witness :
  toSample (HistoryPoint.mk 2 1000 None (Some true))
  ∈ getHistoricalData 3601000 "BTC" "1H" boundaryAgent.
Proof.
  apply (proj1 (proj2 (proj2 (proj2 historical_window)))).
  - unfold historyOf, boundaryAgent. cbn [updateHistory].
    rewrite lookup_singleton_eq. cbn [default]. set_solver.
  - vm_compute. discriminate.
Defined.

Example boundary_query_example :
  getHistoricalData 3601000 "BTC" "1H" boundaryAgent
  = [Sample.mk 2 1000 true].
Proof.
  unfold getHistoricalData, boundaryAgent. cbn [updateHistory].
  rewrite lookup_singleton_eq. reflexivity.
Qed.

End HistoryClaims.

(** ** Claims on the update cycle *)

Module OrchestratorFacts.

Import UniversalPriceAgent Orchestrator CycleNotions.

Lemma applyResult_isUpdating acc timed :
  isUpdating (applyResult acc timed).1.1 = isUpdating acc.1.1.
Proof.
  destruct acc as [[this [successes errors]] out], timed as [now result].
  simpl. by destruct (accepted result).
Qed.

Lemma fold_applyResult_isUpdating results acc :
  isUpdating (fold_left applyResult results acc).1.1 = isUpdating acc.1.1.
Proof.
  revert acc. induction results as [|timed results IH]; intros acc; [done|].
  simpl. by rewrite IH, applyResult_isUpdating.
Qed.

Lemma settle_isUpdating category outcome cycle this :
  isUpdating (settle category outcome cycle this).1.1 = isUpdating this.
Proof.
  unfold settle. destruct outcome as [results|error]; [|done].
  pose proof (fold_applyResult_isUpdating results
                (this, (successCount cycle, errorCount cycle), [])) as H.
  destruct (fold_left _ _ _) as [[this' [successes errors]] out]. exact H.
Qed.

Lemma idle_singleFlight s : idle s -> singleFlight s.
Proof.
  intros [Hflag Hrun]. unfold singleFlight. rewrite Hflag, Hrun.
  split; [simpl; lia|]. split; [done|]. by intros [].
Qed.

Lemma singleFlight_idle s :
  singleFlight s -> isUpdating (agent s) = false -> running s = [].
Proof.
  intros [_ Hiff] Hflag. destruct (running s) as [|cycle rest]; [done|].
  assert (isUpdating (agent s) = true) by (by apply Hiff). congruence.
Qed.

Lemma updateAllPrices_singleFlight origin s :
  singleFlight s -> singleFlight (updateAllPrices origin s).1.
Proof.
  intros Hinv. unfold updateAllPrices.
  destruct (isUpdating (agent s)) eqn:Hflag; [done|].
  rewrite (singleFlight_idle s Hinv Hflag).
  unfold singleFlight. simpl. split; [lia|]. by split.
Qed.

Lemma step_singleFlight e s s' out :
  singleFlight s -> step e s = Some (s', out) -> singleFlight s'.
Proof.
  intros Hinv. destruct e as [| |k category outcome|k]; simpl.
  - intros [= H]. replace s' with (postUpdate s).1 by (by rewrite H).
    unfold postUpdate. destruct (isUpdating (agent s)); [done|].
    by apply updateAllPrices_singleFlight.
  - intros [= H]. replace s' with (updateAllPrices Scheduled s).1 by (by rewrite H).
    by apply updateAllPrices_singleFlight.
  - destruct (running s !! k) as [cycle|] eqn:Hk; [|done].
    destruct (decide _); [|done].
    pose proof (settle_isUpdating category outcome cycle (agent s)) as Hflag.
    destruct (settle _ _ _ _) as [[this cycle'] out'].
    intros [= <- _]. destruct Hinv as [Hlen Hiff].
    unfold singleFlight. cbn [agent running]. rewrite length_insert.
    simpl in Hflag. rewrite Hflag. split; [done|].
    rewrite Hiff. split; intros Hne Heq.
    + apply (f_equal length) in Heq. rewrite length_insert in Heq.
      destruct (running s); [done|discriminate].
    + rewrite Heq in Hk. by rewrite lookup_nil in Hk.
  - destruct (running s !! k) as [cycle|] eqn:Hk; [|done].
    destruct (pending cycle); [|done]. intros [= <- _].
    destruct Hinv as [Hlen _]. unfold singleFlight. cbn [agent running setUpdating isUpdating].
    destruct (running s) as [|c [|c' rest]]; simpl in *; [done| |lia].
    destruct k; simpl; [|done]. split; [lia|]. by split.
Qed.

Lemma reachable_singleFlight s0 s :
  idle s0 -> reachableFrom s0 s -> singleFlight s.
Proof.
  intros Hidle Hreach. induction Hreach as [|s e s' out _ IH Hstep].
  - by apply idle_singleFlight.
  - by eapply step_singleFlight.
Qed.

(** The only step that lowers the flag is the continuation after
    [Promise.all], taken when no collector promise is pending. *)
Lemma step_clears_flag e s s' out :
  step e s = Some (s', out) ->
  isUpdating (agent s) = true -> isUpdating (agent s') = false ->
  ∃ k cycle, e = AllSettled k ∧ running s !! k = Some cycle ∧ pending cycle = [].
Proof.
  destruct e as [| |k category outcome|k]; simpl.
  - unfold postUpdate. intros [= H] Hflag. rewrite Hflag in H.
    injection H as <- _. congruence.
  - unfold updateAllPrices. intros [= H] Hflag. rewrite Hflag in H.
    injection H as <- _. congruence.
  - destruct (running s !! k) as [cycle|] eqn:Hk; [|done].
    destruct (decide _); [|done].
    pose proof (settle_isUpdating category outcome cycle (agent s)) as Hflag.
    destruct (settle _ _ _ _) as [[this cycle'] out'].
    intros [= <- _]. simpl in *. congruence.
  - destruct (running s !! k) as [cycle|] eqn:Hk; [|done].
    destruct (pending cycle) eqn:Hp; [|done]. intros _ _ _. by exists k, cycle.
Qed.

(** A trigger that finds the flag raised changes nothing. *)
Lemma busy_trigger s :
  isUpdating (agent s) = true ->
  step PostUpdate s
    = Some (s, [HttpResponse 429 "Update already in progress"])
  ∧ step CronTick s
    = Some (s, [Logger (LogWarn "Update already in progress, skipping")]).
Proof.
  intros Hflag. simpl. unfold postUpdate, updateAllPrices. by rewrite Hflag.
Qed.

Lemma busy_reachable : reachableFrom initial busy.
Proof.
  apply (reach_step initial initial CronTick busy
           [Logger (LogInfo "Starting price update cycle")]);
    [apply reach_start|reflexivity].
Defined.

Lemma busy_isUpdating : isUpdating (agent busy) = true.
Proof. reflexivity. Qed.

(** *** One whole cycle *)

Lemma fold_applyResult_counts results this successes errors out :
  (fold_left applyResult results (this, (successes, errors), out)).1
  = ((tally results this).1,
     (successes + (tally results this).2.1, errors + (tally results this).2.2)).
Proof.
  unfold tally.
  revert this successes errors out.
  induction results as [|[now result] results IH]; intros this successes errors out.
  - simpl. by rewrite !Nat.add_0_r.
  - cbn [fold_left applyResult]. destruct (accepted result) as [price|].
    + rewrite IH, (IH _ 1 0 []). cbn [fst snd]. do 2 f_equal; lia.
    + rewrite IH, (IH _ 0 1 (_ ++ _)). cbn [fst snd]. do 2 f_equal; lia.
Qed.

Lemma tally_app results results' this :
  tally (results ++ results') this
  = ((tally results' (tally results this).1).1,
     ((tally results this).2.1 + (tally results' (tally results this).1).2.1,
      (tally results this).2.2 + (tally results' (tally results this).1).2.2)).
Proof.
  assert (Ht : tally results this
               = (fold_left applyResult results (this, (0, 0), [])).1) by done.
  unfold tally at 1. rewrite fold_left_app.
  destruct (fold_left applyResult results _) as [[this' [successes errors]] out].
  rewrite fold_applyResult_counts, Ht. done.
Qed.

Lemma tally_isUpdating results this :
  isUpdating (tally results this).1 = isUpdating this.
Proof. apply (fold_applyResult_isUpdating results (this, (0, 0), [])). Qed.

Lemma tally_setUpdating flag results this :
  tally results (setUpdating flag this)
  = (setUpdating flag (tally results this).1, (tally results this).2).
Proof.
  unfold tally.
  assert (H : ∀ acc,
             (fold_left applyResult results
                (setUpdating flag acc.1.1, acc.1.2, acc.2))
             = let r := fold_left applyResult results acc in
               (setUpdating flag r.1.1, r.1.2, r.2)).
  { induction results as [|[now result] results IH]; intros [[a [k e]] o];
      [done|].
    cbn [fold_left applyResult fst snd].
    destruct (accepted result) as [price|].
    - exact (IH (updateItemData now (Result.symbol result) price
                   (Result.source result) (Result.verified result) a,
                 (S k, e), o)).
    - exact (IH (a, (k, S e), o ++ _)). }
  specialize (H (this, (0, 0), [])). cbn [fst snd] in H. rewrite H.
  cbv zeta. by destruct (fold_left applyResult results _) as [[? [? ?]] ?].
Qed.

Lemma settle_spec category outcome cycle this :
  let r := tally (resultsOf outcome) this in
  ∃ out,
    settle category outcome cycle this
    = (r.1,
       mkCycle (origin cycle) (filter (λ c, c ≠ category) (pending cycle))
         (successCount cycle + r.2.1)
         (errorCount cycle + r.2.2 + (if isFault outcome then 1 else 0)),
       out).
Proof.
  cbv zeta. unfold settle. destruct outcome as [results|error]; cbn [resultsOf isFault].
  - pose proof (fold_applyResult_counts results this
                  (successCount cycle) (errorCount cycle) []) as H.
    destruct (fold_left applyResult results (this, _, [])) as [[this' [k e]] out].
    cbn [fst] in H. injection H as -> -> ->. exists out.
    by rewrite Nat.add_0_r.
  - eexists. unfold tally. cbn [fold_left fst snd].
    do 3 f_equal; lia.
Qed.

Lemma step_settles category outcome cycle this :
  category ∈ pending cycle ->
  let r := tally (resultsOf outcome) this in
  ∃ out,
    step (Settles 0 category outcome) (mkSystem this [cycle])
    = Some (mkSystem r.1
              [mkCycle (origin cycle) (filter (λ c, c ≠ category) (pending cycle))
                 (successCount cycle + r.2.1)
                 (errorCount cycle + r.2.2 + (if isFault outcome then 1 else 0))],
            out).
Proof.
  intros Hin. cbv zeta. cbn [step running agent].
  change ([cycle] !! 0) with (Some cycle). cbv beta iota.
  rewrite decide_True by done.
  destruct (settle_spec category outcome cycle this) as (out & ->).
  by exists out.
Qed.

Lemma faults_cons category outcome outs :
  faults ((category, outcome) :: outs)
  = (if isFault outcome then 1 else 0) + faults outs.
Proof. unfold faults. simpl. by destruct (isFault outcome). Qed.

Lemma exec_app events events' s :
  exec (events ++ events') s
  = match exec events s with
    | Some (s1, out1) =>
        match exec events' s1 with
        | Some (s2, out2) => Some (s2, out1 ++ out2)
        | None => None
        end
    | None => None
    end.
Proof.
  revert s. induction events as [|e events IH]; intros s; simpl.
  - by destruct (exec events' s) as [[s2 out2]|].
  - destruct (step e s) as [[s1 out1]|]; [|done]. rewrite IH.
    destruct (exec events s1) as [[s2 out2]|]; [|done].
    destruct (exec events' s2) as [[s3 out3]|]; [|done].
    by rewrite app_assoc.
Qed.

Lemma filter_absent (category : Category) (l : list Category) :
  category ∉ l -> filter (λ c, c ≠ category) l = l.
Proof.
  induction l as [|c l IH]; [done|].
  intros [Hne Hl]%not_elem_of_cons.
  rewrite filter_cons_True by done. by rewrite IH.
Qed.

(** Every promise of the running cycle settles, in any order: all the
    delivered results go through the loop body, rejected promises only
    add to the error counter, and no promise is left pending. *)
Lemma exec_settlements outs :
  ∀ this cycle,
    NoDup (pending cycle) ->
    map fst outs ≡ₚ pending cycle ->
    let r := tally (delivered outs) this in
    ∃ out,
      exec (settlements outs) (mkSystem this [cycle])
      = Some (mkSystem r.1
                [mkCycle (origin cycle) []
                   (successCount cycle + r.2.1)
                   (errorCount cycle + r.2.2 + faults outs)],
              out).
Proof.
  induction outs as [|[category outcome] outs IH]; intros this cycle Hnodup Hperm.
  - cbv zeta. simpl in Hperm. symmetry in Hperm.
    apply Permutation_nil_r in Hperm.
    exists []. simpl. unfold tally, faults. simpl.
    destruct cycle as [o p k e]. simpl in *. subst p.
    by rewrite !Nat.add_0_r.
  - cbv zeta. cbn [settlements map exec fst snd].
    assert (Hin : category ∈ pending cycle).
    { rewrite <- Hperm. simpl. set_solver. }
    destruct (step_settles category outcome cycle this Hin) as (out1 & ->).
    set (cycle1 := mkCycle _ _ _ _).
    assert (Hnodup' : NoDup (category :: map fst outs)).
    { simpl in Hperm. by rewrite Hperm. }
    apply NoDup_cons in Hnodup' as [Hfresh Hnodup'].
    destruct (IH (tally (resultsOf outcome) this).1 cycle1) as (out2 & Hexec).
    { by apply NoDup_filter. }
    { unfold cycle1. cbn [pending]. rewrite <- Hperm. simpl.
      rewrite filter_cons_False by (intros H; by apply H).
      by rewrite filter_absent. }
    fold (settlements outs). rewrite Hexec. eexists.
    unfold delivered. cbn [flat_map snd]. fold (delivered outs).
    rewrite tally_app. cbn [fst snd].
    unfold cycle1. cbn [origin successCount errorCount].
    rewrite faults_cons.
    do 5 f_equal; lia.
Qed.

Lemma collectors_NoDup : NoDup collectors.
Proof. by apply (bool_decide_unpack _). Qed.

Lemma setUpdating_restore flag flag' this :
  isUpdating this = flag -> setUpdating flag (setUpdating flag' this) = this.
Proof. destruct this. simpl. by intros ->. Qed.

(** A whole cycle from an idle state, whoever starts it and in whatever
    order the collector promises settle. *)
Lemma exec_cycle this start outs :
  isUpdating this = false ->
  start = PostUpdate ∨ start = CronTick ->
  map fst outs ≡ₚ collectors ->
  let r := tally (delivered outs) this in
  ∃ out,
    exec (start :: settlements outs ++ [AllSettled 0]) (mkSystem this [])
    = Some (mkSystem r.1 [], out)
    ∧ CycleCompleted r.2.1 (r.2.2 + faults outs) ∈ out.
Proof.
  intros Hflag Hstart Hperm. cbv zeta.
  set (origin := match start with PostUpdate => Manual | _ => Scheduled end).
  assert (Hstep : step start (mkSystem this [])
                   = Some (mkSystem (setUpdating true this)
                             [mkCycle origin collectors 0 0],
                           [Logger (LogInfo "Starting price update cycle")])).
  { destruct Hstart as [-> | ->]; simpl;
      unfold postUpdate, updateAllPrices; simpl; by rewrite Hflag. }
  cbn [exec]. rewrite Hstep, exec_app.
  destruct (exec_settlements outs (setUpdating true this)
              (mkCycle origin collectors 0 0)) as (out1 & ->).
  { cbn [pending]. apply collectors_NoDup. }
  { done. }
  rewrite tally_setUpdating. cbn [fst snd exec step running agent].
  change ([?c] !! 0) with (Some c). cbv beta iota. cbn [pending].
  rewrite setUpdating_restore by (by rewrite tally_isUpdating).
  cbn [successCount errorCount Orchestrator.origin delete list_delete].
  eexists. split; [reflexivity|].
  apply elem_of_app. right. apply elem_of_app. right.
  apply elem_of_cons. by left.
Qed.




(** *** Positive prices in the stores *)

Lemma accepted_spec result price :
  accepted result = Some price
  ↔ Result.success result = true
    ∧ Result.price result = Some price
    ∧ (0 < price)%R.
Proof.
  unfold accepted, Js.truthy, Js.gtb.
  destruct (Result.price result) as [p|];
    [|split; [done|by intros (_ & [=] & _)]].
  destruct (Result.success result), (Req_dec_T p 0), (Rgt_dec p 0); simpl;
    split;
    try (intros [= <-]; repeat split; try done; lra);
    try (intros (Hs & [= <-] & Hp); try done; lra).
Qed.

Lemma create_positive : positive create.
Proof. split; intros symbol x; unfold create; simpl; by rewrite lookup_empty. Qed.

Lemma updateItemData_positive now symbol price source verified this :
  (0 < price)%R -> positive this ->
  positive (updateItemData now symbol price source verified this).
Proof.
  intros Hprice [Hstore Hhistory]. split; unfold updateItemData;
    cbn [dataStore updateHistory]; intros other x.
  - destruct (decide (symbol = other)) as [<-|Hne].
    + rewrite lookup_insert_eq. by intros [= <-].
    + rewrite lookup_insert_ne by done. apply Hstore.
  - destruct (decide (symbol = other)) as [<-|Hne].
    + rewrite lookup_insert_eq. intros [= <-].
      assert (Hall : Forall (λ point, (0 < HistoryPoint.price point)%R)
                       (default [] (updateHistory this !! symbol)
                          ++ [HistoryPoint.mk price now source
                                (Some (default false verified))])).
      { apply Forall_app. split.
        - destruct (updateHistory this !! symbol) as [old|] eqn:Hold; simpl;
            [by eapply Hhistory|constructor].
        - by apply Forall_singleton. }
      destruct (_ <? _)%nat; [by apply Forall_drop|done].
    + rewrite lookup_insert_ne by done. apply Hhistory.
Qed.

Lemma setUpdating_positive flag this : positive this -> positive (setUpdating flag this).
Proof. by intros H. Qed.

Lemma fold_applyResult_positive results acc :
  positive acc.1.1 -> positive (fold_left applyResult results acc).1.1.
Proof.
  revert acc. induction results as [|[now result] results IH]; intros acc H; [done|].
  simpl. apply IH. destruct acc as [[this [k e]] out]. simpl in *.
  destruct (accepted result) as [price|] eqn:Hacc; [|done]. simpl.
  apply updateItemData_positive; [|done].
  by apply accepted_spec in Hacc as (_ & _ & ?).
Qed.

Lemma step_positive e s s' out :
  positive (agent s) -> step e s = Some (s', out) -> positive (agent s').
Proof.
  intros Hpos. destruct e as [| |k category outcome|k]; simpl.
  - intros [= H]. replace s' with (postUpdate s).1 by (by rewrite H).
    unfold postUpdate, updateAllPrices. by destruct (isUpdating (agent s)).
  - intros [= H]. replace s' with (updateAllPrices Scheduled s).1 by (by rewrite H).
    unfold updateAllPrices. by destruct (isUpdating (agent s)).
  - destruct (running s !! k) as [cycle|]; [|done].
    destruct (decide _); [|done].
    destruct (settle_spec category outcome cycle (agent s)) as (out' & ->).
    intros [= <- _]. cbn [agent].
    by apply (fold_applyResult_positive _ (agent s, (0, 0), [])).
  - destruct (running s !! k) as [cycle|]; [|done].
    destruct (pending cycle); [|done]. by intros [= <- _].
Qed.

Lemma exec_reachable events s0 s s' out :
  reachableFrom s0 s -> exec events s = Some (s', out) -> reachableFrom s0 s'.
Proof.
  revert s out. induction events as [|e events IH]; intros s out Hreach; simpl.
  - by intros [= <- _].
  - destruct (step e s) as [[s1 out1]|] eqn:Hstep; [|done].
    destruct (exec events s1) as [[s2 out2]|] eqn:Hexec; [|done].
    intros [= <- _]. eapply IH; [|exact Hexec].
    by eapply reach_step.
Qed.

Lemma reachable_positive s0 s :
  positive (agent s0) -> reachableFrom s0 s -> positive (agent s).
Proof.
  intros H0 Hreach. induction Hreach as [|s e s' out _ IH Hstep]; [done|].
  by eapply step_positive.
Qed.

End OrchestratorFacts.

Module OrchestratorClaims.

Import UniversalPriceAgent Orchestrator CycleNotions OrchestratorFacts.

(** C3 fails as stated for scheduled triggers: a cron callback that
    fires while a cycle is in flight gets no conflict signal; the call
    logs a warning and returns normally. *)
Lemma scheduled_trigger_not_signalled :
  isUpdating (agent busy) = true
  ∧ step CronTick busy
    = Some (busy, [Logger (LogWarn "Update already in progress, skipping")])
  ∧ ¬ (∃ s' out, step CronTick busy = Some (s', out) ∧ Exists conflictSignal out).
Proof.
  split; [exact busy_isUpdating|].
  pose proof (proj2 (busy_trigger busy busy_isUpdating)) as Hstep.
  split; [exact Hstep|].
  intros (s' & out & Hstep' & Hsig). rewrite Hstep in Hstep'.
  injection Hstep' as _ <-.
  apply Exists_cons in Hsig as [[body Hbody]|Hsig]; [discriminate|].
  by apply Exists_nil in Hsig.
Qed.

(** C3, amended.  While a cycle is in flight a manual trigger is answered
    with HTTP 429 and a scheduled trigger is skipped with the warning
    'Update already in progress, skipping', without a conflict signal;
    either way the state is left exactly as it was: no collector is
    started, nothing is written, the running cycle is untouched.  In every
    state reachable from an idle one at most one cycle is running and the
    flag is raised exactly while one is; the flag is lowered only by the
    step after [Promise.all], when no collector of the cycle is pending. *)
Theorem single_flight :
  (∀ s, isUpdating (agent s) = true ->
        step PostUpdate s
          = Some (s, [HttpResponse 429 "Update already in progress"])
        ∧ step CronTick s
          = Some (s, [Logger (LogWarn "Update already in progress, skipping")]))
  ∧ (∀ s0 s, idle s0 -> reachableFrom s0 s ->
             length (running s) <= 1
             ∧ (isUpdating (agent s) = true ↔ running s ≠ []))
  ∧ (∀ s0 s e s' out,
       idle s0 -> reachableFrom s0 s -> step e s = Some (s', out) ->
       isUpdating (agent s) = true -> isUpdating (agent s') = false ->
       ∃ cycle, e = AllSettled 0 ∧ running s = [cycle] ∧ pending cycle = []).
Proof.
  split; [|split].
  - apply busy_trigger.
  - intros s0 s Hidle Hreach. by apply (reachable_singleFlight s0).
  - intros s0 s e s' out Hidle Hreach Hstep Hon Hoff.
    destruct (step_clears_flag e s s' out Hstep Hon Hoff)
      as (k & cycle & -> & Hk & Hp).
    destruct (reachable_singleFlight s0 s Hidle Hreach) as [Hlen _].
    exists cycle. destruct (running s) as [|c [|c' rest]]; simpl in *; [done| |lia].
    destruct k; simpl in Hk; [|done]. by injection Hk as ->.
Qed.

Lemma single_flight_witness :
  step PostUpdate busy
  = Some (busy, [HttpResponse 429 "Update already in progress"])
  ∧ length (running busy) <= 1.
Proof.
  split.
  - apply (proj1 single_flight busy). reflexivity.
  - apply (proj1 (proj2 single_flight) initial busy).
    + split; reflexivity.
    + apply busy_reachable.
Defined.



(** C10.  The orchestrator's test passes exactly the results with
    [success] true and a price above 0; a result that fails it leaves
    the stores as they are, a result that passes is written with
    [updateItemData].  The stores are empty at construction, and positive
    prices in the current-price map and in every history are preserved
    by every step of the cycle machine: at every reachable state each
    stored price is above 0. *)
Theorem stored_prices_positive :
  (∀ result price,
     accepted result = Some price
     ↔ Result.success result = true
       ∧ Result.price result = Some price
       ∧ (0 < price)%R)
  ∧ (∀ this counters out now result,
       accepted result = None ->
       (applyResult (this, counters, out) (now, result)).1.1 = this)
  ∧ (∀ this counters out now result price,
       accepted result = Some price ->
       (applyResult (this, counters, out) (now, result)).1.1
       = updateItemData now (Result.symbol result) price
           (Result.source result) (Result.verified result) this)
  ∧ positive (agent initial)
  ∧ (∀ s0 s, positive (agent s0) -> reachableFrom s0 s -> positive (agent s)).
Proof.
  split; [exact accepted_spec|].
  split; [|split; [|split; [exact create_positive|exact reachable_positive]]].
  - intros this [k e] out now result Hacc. simpl. by rewrite Hacc.
  - intros this [k e] out now result price Hacc. simpl. by rewrite Hacc.
Qed.

Lemma stored_prices_positive_witness :
  positive (tally (delivered oneFault) create).1.
Proof.
  destruct (exec_cycle create CronTick oneFault eq_refl (or_intror eq_refl)
              (reflexivity _)) as (out & Hexec & _).
  apply (proj2 (proj2 (proj2 (proj2 stored_prices_positive))) initial
           (mkSystem (tally (delivered oneFault) create).1 [])).
  - apply create_positive.
  - eapply exec_reachable; [apply reach_start|exact Hexec].
Defined.

End OrchestratorClaims.

(** ** Further properties of the consolidation method *)

Module ConsolidationMore.

Import Observation Consolidation Selection Ordering SortFacts ConsolidationFacts.




















Lemma insert_descending a l :
  descending l -> descending (Js.insert byReliabilityDesc a l).
Proof.
  unfold descending. induction 1 as [|b l Hl IH Hb]; simpl.
  - repeat constructor.
  - unfold byReliabilityDesc at 1. destruct (Rgt_dec _ _) as [Hgt|Hle].
    + constructor; [done|].
      rewrite (insert_perm byReliabilityDesc a l).
      constructor; [lra|done].
    + constructor; [by constructor|].
      constructor; [lra|]. eapply Forall_impl; [exact Hb|]. simpl. intros; lra.
Qed.

Lemma sort_descending l : descending (Js.sort byReliabilityDesc l).
Proof.
  induction l as [|a l IH]; simpl; [constructor|]. by apply insert_descending.
Qed.

Lemma sort_of_descending l :
  descending l -> Js.sort byReliabilityDesc l = l.
Proof.
  unfold descending. induction 1 as [|a l Hl IH Ha]; [done|].
  simpl. rewrite IH. destruct l as [|b l]; [done|]. simpl.
  apply Forall_cons in Ha as [Hb _]. unfold byReliabilityDesc.
  destruct (Rgt_dec _ _); [lra|done].
Qed.

(** X5.  The array the method leaves behind is ordered by descending
    reliability; a second call on it leaves it as it is and names the
    same primary source. *)
Theorem second_call_keeps_order threshold label sources :
  let out := verifyAndConsolidate threshold label sources in
  let again := verifyAndConsolidate threshold label (sourcesAfter out) in
  (2 <= length sources -> descending (sourcesAfter out))
  ∧ (descending sources -> sourcesAfter out = sources)
  ∧ (2 <= length sources -> sourcesAfter again = sourcesAfter out)
  ∧ (∀ result result',
       returned out = Js.Normal result -> returned again = Js.Normal result' ->
       Consolidated.primarySource result' = Consolidated.primarySource result).
Proof.
  cbv zeta. destruct sources as [|a [|b l]].
  - repeat split; try (cbn [length]; lia); try done.
  - repeat split; try (cbn [length]; lia); try done.
    intros result result'. cbn. by intros [= <-] [= <-].
  - destruct (verifyAndConsolidate_many threshold label a b l)
      as (rest & Hsort & Hout).
    cbv zeta in Hout. rewrite Hout. cbn [sourcesAfter returned].
    pose proof (sort_descending (a :: b :: l)) as Hdesc. rewrite Hsort in Hdesc.
    pose proof (sort_length byReliabilityDesc (a :: b :: l)) as Hlen.
    rewrite Hsort in Hlen.
    set (top := Reference.mostReliable a (b :: l)) in *.
    destruct rest as [|second rest]; [simpl in Hlen; lia|].
    destruct (verifyAndConsolidate_many threshold label top second rest)
      as (rest' & Hsort' & Hout').
    cbv zeta in Hout'. rewrite Hout'. cbn [sourcesAfter returned].
    rewrite (sort_of_descending _ Hdesc) in Hsort'.
    set (top' := Reference.mostReliable top (second :: rest)) in *.
    injection Hsort' as Htop Hrest. rewrite <- Htop, <- Hrest.
    split; [done|]. split.
    { intros Hd. rewrite <- Hsort. by apply sort_of_descending. }
    split; [done|].
    intros result result' [= <-] [= <-]. done.
Qed.

Lemma second_call_keeps_order_witness :
  descending
    (sourcesAfter (CryptoCollector.verifyAndConsolidate
                     [WorkedExample.obsB; WorkedExample.obsA])).
Proof.
  apply (proj1 (second_call_keeps_order 0.02%R Observation.source
                  [WorkedExample.obsB; WorkedExample.obsA])).
  simpl. lia.
Defined.

End ConsolidationMore.

(** ** Further properties of the collectors *)

Module CollectorMore.

Import Collector CollectorNotions CollectorFacts ResultShape JsMore.

(** The consolidation method returns normally on every nonempty array
    and keeps its length. *)
Lemma verifyAndConsolidate_nonempty threshold label sources :
  sources ≠ [] ->
  ∃ c,
    Consolidation.returned
      (Consolidation.verifyAndConsolidate threshold label sources) = Js.Normal c
    ∧ length (Consolidation.sourcesAfter
                (Consolidation.verifyAndConsolidate threshold label sources))
      = length sources
    ∧ (Consolidated.verified c = true -> 2 <= length sources)
    ∧ (length sources = 1 -> Consolidated.verified c = false).
Proof.
  intros Hne. destruct sources as [|a [|b l]]; [done| |].
  - eexists. split; [reflexivity|]. repeat split; try done.
  - destruct (ConsolidationFacts.verifyAndConsolidate_many threshold label a b l)
      as (rest & Hsort & ->).
    eexists. split; [reflexivity|]. cbn [Consolidation.sourcesAfter].
    rewrite <- Hsort, SortFacts.sort_length.
    repeat split; try done; simpl; intros; lia.
Qed.

(** What the common tail returns, for every instance of the method. *)
Lemma finish_shape threshold label emptyMessage symbol sources log :
  ∃ r,
    (finish (Consolidation.verifyAndConsolidate threshold label)
       emptyMessage symbol sources log).1 = Js.Normal r
    ∧ wellFormed symbol r
    ∧ (Result.success r = true -> Result.sources r = Some (length sources))
    ∧ (Result.success r = true ->
       ∃ c, Consolidation.returned
              (Consolidation.verifyAndConsolidate threshold label sources)
            = Js.Normal c
            ∧ r = consolidated symbol c (length sources))
    ∧ (length sources <= 1 -> unverifiable r).
Proof.
  unfold finish. destruct sources as [|a l] eqn:Hs.
  - simpl. eexists. split; [reflexivity|].
    split; [split; [done|left; repeat split; by eexists]|].
    repeat split; try done.
  - rewrite <- Hs.
    assert (Hne : sources ≠ []) by (by rewrite Hs).
    destruct (verifyAndConsolidate_nonempty threshold label sources Hne)
      as (c & Hret & Hlen & Hver & Hone).
    replace (length sources =? 0)%nat with false
      by (symmetry; apply Nat.eqb_neq; rewrite Hs; simpl; lia).
    cbv zeta. rewrite Hret, Hlen. cbn [fst].
    eexists. split; [reflexivity|].
    split; [split; [done|right]|].
    { cbn. repeat split; try by eexists.
      exists (length sources). repeat split.
      - rewrite Hs. simpl. lia.
      - intros [= Hv]. by apply Hver. }
    split; [done|]. split; [intros _; by exists c|].
    intros Hle. assert (Hlen1 : length sources = 1) by (rewrite Hs in *; simpl in *; lia).
    split; cbn; [by rewrite Hone|by rewrite Hlen1].
Qed.

(** Each method returns normally an object for the symbol it was given. *)
Lemma collected_for_symbol symbol :
  (∀ env, ∃ r,
     (CryptoCollector.collectCryptoPrice env symbol).1 = Js.Normal r
     ∧ Result.symbol r = symbol)
  ∧ (∀ env, ∃ r,
       (MetalsCollection.collectMetalPrice env symbol).1 = Js.Normal r
       ∧ Result.symbol r = symbol)
  ∧ (∀ env, ∃ r,
       (RealEstateCollector.collectRealEstatePrice env symbol).1 = Js.Normal r
       ∧ Result.symbol r = symbol)
  ∧ (∀ web, ∃ r,
       (LuxuryCollector.collectLuxuryPrice web symbol).1 = Js.Normal r
       ∧ Result.symbol r = symbol).
Proof.
  split; [|split; [|split]].
  - intros env. unfold CryptoCollector.collectCryptoPrice.
    destruct (CryptoCollector.gather env symbol) as [sources log].
    destruct (finish_shape 0.02%R Observation.source "No sources available"
                symbol sources log) as (r & Hr & [Hsym _] & _).
    by exists r.
  - intros env. unfold MetalsCollection.collectMetalPrice.
    destruct (MetalsCollection.gather env symbol) as [sources log].
    destruct (finish_shape 0.01%R (fun _ => "Metals"%string) "No sources available"
                symbol sources log) as (r & Hr & [Hsym _] & _).
    by exists r.
  - intros env. unfold RealEstateCollector.collectRealEstatePrice.
    destruct (if String.eqb symbol "HOUSE-US" then _ else _) as [sources log].
    destruct (finish_shape 0.10%R (fun _ => "Real estate"%string)
                "No valid sources available" symbol
                (RealEstateCollector.validSources sources) log)
      as (r & Hr & [Hsym _] & _).
    by exists r.
  - intros web. unfold LuxuryCollector.collectLuxuryPrice. cbv zeta.
    destruct (if _ || _ || _ then _ else _) as [sources log].
    destruct (finish_shape 0.25%R (fun _ => "Luxury"%string)
                "No valid sources available" symbol
                (LuxuryCollector.validSources sources) log)
      as (r & Hr & [Hsym _] & _).
    by exists r.
Qed.

(** X6.  Whatever the adapters do, each of the four [collectXPrice]
    methods modelled returns normally an object for its symbol that is
    either the failure object (no price, no source, not verified, an
    error message) or a success with a price, a source and the number of
    consolidated sources; a verified result rests on at least two
    sources. *)
Theorem collected_result_well_formed symbol :
  (∀ env, ∃ r,
     (CryptoCollector.collectCryptoPrice env symbol).1 = Js.Normal r
     ∧ wellFormed symbol r)
  ∧ (∀ env, ∃ r,
       (MetalsCollection.collectMetalPrice env symbol).1 = Js.Normal r
       ∧ wellFormed symbol r)
  ∧ (∀ env, ∃ r,
       (RealEstateCollector.collectRealEstatePrice env symbol).1 = Js.Normal r
       ∧ wellFormed symbol r)
  ∧ (∀ web, ∃ r,
       (LuxuryCollector.collectLuxuryPrice web symbol).1 = Js.Normal r
       ∧ wellFormed symbol r).
Proof.
  split; [|split; [|split]].
  - intros env. unfold CryptoCollector.collectCryptoPrice.
    destruct (CryptoCollector.gather env symbol) as [sources log].
    destruct (finish_shape 0.02%R Observation.source "No sources available"
                symbol sources log) as (r & Hr & Hwf & _).
    by exists r.
  - intros env. unfold MetalsCollection.collectMetalPrice.
    destruct (MetalsCollection.gather env symbol) as [sources log].
    destruct (finish_shape 0.01%R (fun _ => "Metals"%string) "No sources available"
                symbol sources log) as (r & Hr & Hwf & _).
    by exists r.
  - intros env. unfold RealEstateCollector.collectRealEstatePrice.
    destruct (if String.eqb symbol "HOUSE-US" then _ else _) as [sources log].
    destruct (finish_shape 0.10%R (fun _ => "Real estate"%string)
                "No valid sources available" symbol
                (RealEstateCollector.validSources sources) log) as (r & Hr & Hwf & _).
    by exists r.
  - intros web. unfold LuxuryCollector.collectLuxuryPrice. cbv zeta.
    destruct (if _ || _ || _ then _ else _) as [sources log].
    destruct (finish_shape 0.25%R (fun _ => "Luxury"%string)
                "No valid sources available" symbol
                (LuxuryCollector.validSources sources) log) as (r & Hr & Hwf & _).
    by exists r.
Qed.

(** The loop of [collectData] over methods that return normally an
    object for the symbol they are given. *)
Lemma loop_complete collectOne symbols :
  (∀ symbol, ∃ r, (collectOne symbol).1 = Js.Normal r ∧ Result.symbol r = symbol) ->
  ∀ results log,
    ∃ results' log',
      CollectorRun.loop collectOne symbols results log
      = (Js.Normal tt, results ++ results', log')
      ∧ map Result.symbol results' = symbols.
Proof.
  intros Hone. induction symbols as [|symbol symbols IH]; intros results log.
  - exists [], log. simpl. by rewrite app_nil_r.
  - simpl. destruct (Hone symbol) as (r & Hr & Hsym).
    destruct (collectOne symbol) as [ret entries]. simpl in Hr. subst ret.
    destruct (IH (results ++ [r]) (log ++ entries)) as (results' & log' & -> & Hmap).
    exists (r :: results'), log'. split.
    + by rewrite <- app_assoc.
    + simpl. by rewrite Hsym, Hmap.
Qed.

Lemma collectData_complete collectOne symbols failed now this :
  (∀ symbol, ∃ r, (collectOne symbol).1 = Js.Normal r ∧ Result.symbol r = symbol) ->
  ∃ results log,
    CollectorRun.collectData collectOne symbols failed now this
    = (results, CollectorRun.mkState now "completed", log)
    ∧ map Result.symbol results = symbols.
Proof.
  intros Hone. unfold CollectorRun.collectData.
  destruct (loop_complete collectOne symbols Hone [] []) as (results & log & -> & Hmap).
  by exists results, log.
Qed.

(** X7.  [collectData] of the crypto, metals, real-estate and luxury
    collectors returns exactly one result per tracked symbol, in the
    order of the symbol table, records the time and ends in status
    'completed': since no [collectXPrice] call throws, the status
    'error' is never reached. *)
Theorem collectData_one_result_per_symbol now this :
  (∀ env, ∃ results log,
     CollectorRun.cryptoCollectData env now this
     = (results, CollectorRun.mkState now "completed", log)
     ∧ map Result.symbol results = ["BTC"; "ETH"; "SOL"; "DOGE"]%string)
  ∧ (∀ env, ∃ results log,
       CollectorRun.metalsCollectData env now this
       = (results, CollectorRun.mkState now "completed", log)
       ∧ map Result.symbol results = ["XAU"; "XAG"; "XPT"; "XPD"]%string)
  ∧ (∀ env, ∃ results log,
       CollectorRun.realEstateCollectData env now this
       = (results, CollectorRun.mkState now "completed", log)
       ∧ map Result.symbol results = ["HOUSE-US"; "HOUSE-CA"; "NYC-SQFT"]%string)
  ∧ (∀ web, ∃ results log,
       CollectorRun.luxuryCollectData web now this
       = (results, CollectorRun.mkState now "completed", log)
       ∧ map Result.symbol results
         = ["ROLEX-SUB"; "ROLEX-DAY"; "AP-RO"; "PATEK-NAU"; "CHAR-PSA10";
            "MTG-LOTUS"; "AC1"]%string).
Proof.
  split; [|split; [|split]]; intros env; apply collectData_complete; intros symbol.
  - exact (proj1 (collected_for_symbol symbol) (env symbol)).
  - exact (proj1 (proj2 (collected_for_symbol symbol)) (env symbol)).
  - exact (proj1 (proj2 (proj2 (collected_for_symbol symbol))) (env symbol)).
  - exact (proj2 (proj2 (proj2 (collected_for_symbol symbol))) (env symbol)).
Qed.

End CollectorMore.

(** ** Adapters, plausibility ranges and medians *)

Module AdapterFacts.

Import Collector CollectorNotions CollectorFacts CollectorMore ResultShape JsMore
  PriceLists.

(** Case analysis on the comparisons of concrete numbers. *)
Ltac rdec :=
  repeat match goal with
    | |- context [Rlt_dec ?a ?b] => destruct (Rlt_dec a b); try lra
    | |- context [Rgt_dec ?a ?b] => destruct (Rgt_dec a b); try lra
    | |- context [Rle_dec ?a ?b] => destruct (Rle_dec a b); try lra
    | |- context [Rge_dec ?a ?b] => destruct (Rge_dec a b); try lra
    | |- context [Req_dec_T ?a ?b] => destruct (Req_dec_T a b); try lra
    end.

Lemma andb_gt_lt (x lo hi : R) :
  Js.gtb x lo && Js.ltb x hi = true ↔ (lo < x < hi)%R.
Proof. unfold Js.gtb, Js.ltb. rdec; simpl; split; try done; lra. Qed.

Lemma andb_ge_le (x lo hi : R) :
  geb x lo && leb x hi = true ↔ (lo <= x <= hi)%R.
Proof. unfold geb, leb. rdec; simpl; split; try done; lra. Qed.

Lemma tryAdapter_elem name reliability warning outcome acc o :
  o ∈ (tryAdapter name reliability warning outcome acc).1 ->
  o ∈ acc.1
  ∨ ∃ p, outcome = Returns (Some p) ∧ o = Observation.mk name p reliability.
Proof.
  destruct outcome as [[p|]|message]; simpl; auto.
  destruct (Req_dec_T p 0); simpl; auto.
  intros [Hin|Hin%list_elem_of_singleton]%elem_of_app; eauto.
Qed.

(** One adapter on an empty array: nothing, or its one observation. *)
Lemma tryAdapter_first name reliability warning outcome :
  (tryAdapter name reliability warning outcome ([], [])).1 = []
  ∨ ∃ p, outcome = Returns (Some p)
         ∧ (tryAdapter name reliability warning outcome ([], [])).1
           = [Observation.mk name p reliability].
Proof.
  destruct outcome as [[p|]|message]; simpl; auto.
  destruct (Req_dec_T p 0); simpl; eauto.
Qed.

Lemma validSources_single o :
  RealEstateCollector.validSources [o] = []
  ∨ RealEstateCollector.validSources [o] = [o].
Proof. unfold RealEstateCollector.validSources. simpl. destruct (Js.gtb _ _); auto. Qed.

(** The common tail on one observation. *)
Lemma finish_one threshold label emptyMessage symbol o log :
  (finish (Consolidation.verifyAndConsolidate threshold label)
     emptyMessage symbol [o] log).1
  = Js.Normal
      (consolidated symbol
         {| Consolidated.price := Observation.price o;
            Consolidated.primarySource := Observation.source o;
            Consolidated.verified := false;
            Consolidated.variance := 0%R |} 1).
Proof. reflexivity. Qed.

Lemma failure_unverifiable symbol message : unverifiable (failure symbol message).
Proof. split; [done|]. simpl. discriminate. Qed.

Lemma metals_invocations env symbol :
  invocations (MetalsCollection.collectMetalPrice env symbol).2
  = if (length (MetalsCollection.gather env symbol).1 =? 0)%nat then []
    else [(MetalsCollection.gather env symbol).1].
Proof.
  unfold MetalsCollection.collectMetalPrice.
  assert (Hlog : invocations (MetalsCollection.gather env symbol).2 = []).
  { unfold MetalsCollection.gather.
    repeat case_match; by rewrite ?tryAdapter_invocations. }
  destruct (MetalsCollection.gather env symbol) as [sources log]. simpl in *.
  apply finish_invocations; [|done].
  intros arr.
  destruct (ConsolidationFacts.verifyAndConsolidate_logged 0.01%R
              (fun _ => "Metals"%string) arr) as [H|(l & cv & v & H)];
    unfold MetalsCollector.verifyAndConsolidate; by rewrite H.
Qed.

(** X8.  Every observation the metals collector consolidates under the
    name APMEX lies within the plausibility range of the metal (gold
    1500 to 3000, silver 15 to 50, platinum 800 to 1500, palladium 1000
    to 3000, bounds included), and an observation named GoldPrice.org
    occurs for XAU only, strictly between 1000 and 5000. *)
Theorem metals_scraped_prices_plausible env symbol sources o :
  sources ∈ invocations (MetalsCollection.collectMetalPrice env symbol).2 ->
  o ∈ sources ->
  (Observation.source o = "APMEX"%string ->
   ∃ min max,
     MetalsCollection.ranges symbol = Some (min, max)
     ∧ (min <= Observation.price o <= max)%R)
  ∧ (Observation.source o = "GoldPrice.org"%string ->
     symbol = "XAU"%string ∧ (1000 < Observation.price o < 5000)%R).
Proof.
  rewrite metals_invocations.
  destruct (length _ =? 0)%nat; [by intros ?%elem_of_nil|].
  intros ->%list_elem_of_singleton. unfold MetalsCollection.gather.
  assert (Hapmex : ∀ p,
             MetalsCollection.scrapeApmexPrice symbol (MetalsCollection.apmex env)
             = Returns (Some p) ->
             ∃ min max, MetalsCollection.ranges symbol = Some (min, max)
                        ∧ (min <= p <= max)%R).
  { intros p. unfold MetalsCollection.scrapeApmexPrice.
    destruct (MetalsCollection.ranges symbol) as [[min max]|]; [|done].
    destruct (MetalsCollection.apmex env) as [[price|]|]; try done.
    destruct (geb price min && leb price max) eqn:Hin; [|done].
    intros [= <-]. exists min, max. split; [done|]. by apply andb_ge_le. }
  assert (Hgold : ∀ p,
             MetalsCollection.scrapeGoldPriceOrg (MetalsCollection.goldPriceOrg env)
             = Returns (Some p) -> (1000 < p < 5000)%R).
  { intros p. unfold MetalsCollection.scrapeGoldPriceOrg.
    destruct (MetalsCollection.goldPriceOrg env) as [[price|]|]; try done.
    destruct (Js.gtb price 1000 && Js.ltb price 5000) eqn:Hin; [|done].
    intros [= <-]. by apply andb_gt_lt. }
  intros Hin.
  assert (Hcases :
            (∃ p, o = Observation.mk "MetalsAPI" p 0.9)
            ∨ (symbol = "XAU"%string
               ∧ ∃ p, MetalsCollection.scrapeGoldPriceOrg
                        (MetalsCollection.goldPriceOrg env) = Returns (Some p)
                      ∧ o = Observation.mk "GoldPrice.org" p 0.85)
            ∨ (∃ p, MetalsCollection.scrapeApmexPrice symbol
                      (MetalsCollection.apmex env) = Returns (Some p)
                    ∧ o = Observation.mk "APMEX" p 0.88)
            ∨ (∃ p, o = Observation.mk "FinancialModelingPrep" p 0.92)).
  { destruct (MetalsCollection.FMP_API_KEY env);
      [apply tryAdapter_elem in Hin as [Hin|(p & _ & ->)]; [|by eauto 10]|];
      (apply tryAdapter_elem in Hin as [Hin|(p & Hp & ->)]; [|by eauto 10]);
      (destruct (String.eqb_spec symbol "XAU") as [Hx|Hx];
       [apply tryAdapter_elem in Hin as [Hin|(p & Hp & ->)]; [|by eauto 10]|]);
      (apply tryAdapter_elem in Hin as [Hin|(p & Hp & ->)]; [|by eauto 10]);
      by apply elem_of_nil in Hin. }
  destruct Hcases as [(p & ->)|[(Hx & p & Hp & ->)|[(p & Hp & ->)|(p & ->)]]];
    simpl; split; try discriminate; intros _; auto.
Qed.

Lemma apmexOnly_gather :
  MetalsCollection.gather apmexOnly "XAU" = ([Observation.mk "APMEX" 2000 0.88], []).
Proof.
  unfold MetalsCollection.gather, apmexOnly, MetalsCollection.scrapeApmexPrice,
    geb, leb. simpl. rdec. simpl. rdec. done.
Qed.

Lemma metals_scraped_prices_plausible_witness :
  ∃ min max,
    MetalsCollection.ranges "XAU" = Some (min, max) ∧ (min <= 2000 <= max)%R.
Proof.
  apply (proj1 (metals_scraped_prices_plausible apmexOnly "XAU"
                  [Observation.mk "APMEX" 2000 0.88]
                  (Observation.mk "APMEX" 2000 0.88)
                  ltac:(rewrite metals_invocations, apmexOnly_gather;
                        simpl; apply elem_of_cons; by left)
                  ltac:(apply elem_of_cons; by left))).
  reflexivity.
Defined.

(** X9.  Without the Metals-API and FMP keys, silver, platinum and
    palladium have APMEX as their only source: the result is never
    verified, and when it succeeds its price is APMEX's, within the
    metal's plausibility range. *)
Theorem metals_without_keys_unverified env symbol :
  MetalsCollection.METALS_API_KEY env = false ->
  MetalsCollection.FMP_API_KEY env = false ->
  symbol ≠ "XAU"%string ->
  ∃ r,
    (MetalsCollection.collectMetalPrice env symbol).1 = Js.Normal r
    ∧ unverifiable r
    ∧ (Result.success r = true ->
       Result.source r = Some "APMEX"%string
       ∧ ∃ p min max,
           Result.price r = Some p
           ∧ MetalsCollection.ranges symbol = Some (min, max)
           ∧ (min <= p <= max)%R).
Proof.
  intros Hkey Hfmp Hsym.
  unfold MetalsCollection.collectMetalPrice, MetalsCollection.gather.
  rewrite Hkey, Hfmp. cbn [negb MetalsCollection.getMetalsApiPrice].
  destruct (String.eqb_spec symbol "XAU") as [|_]; [done|].
  cbn [tryAdapter].
  set (acc := tryAdapter "APMEX" _ _ _ _).
  destruct (tryAdapter_first "APMEX" 0.88%R ("APMEX failed for " ++ symbol ++ ":")
              (MetalsCollection.scrapeApmexPrice symbol (MetalsCollection.apmex env)))
    as [Hnone|(p & Hp & Hone)]; fold acc in Hnone || fold acc in Hone;
    destruct acc as [sources log]; simpl in *; subst sources.
  - eexists. split; [reflexivity|]. split; [apply failure_unverifiable|].
    simpl. discriminate.
  - unfold MetalsCollector.verifyAndConsolidate. rewrite finish_one.
    eexists. split; [reflexivity|]. split; [by split|].
    intros _. split; [done|]. cbn.
    revert Hp. unfold MetalsCollection.scrapeApmexPrice.
    destruct (MetalsCollection.ranges symbol) as [[min max]|]; [|done].
    destruct (MetalsCollection.apmex env) as [[price|]|]; try done.
    destruct (geb price min && leb price max) eqn:Hin; [|done].
    intros [= <-]. exists price, min, max.
    split; [done|]. split; [done|]. by apply andb_ge_le.
Qed.

Lemma metals_without_keys_unverified_witness :
  ∃ r,
    (MetalsCollection.collectMetalPrice
       (MetalsCollection.mkEnv false false (HttpError "no key") (HttpError "down")
          (Responds (Some 25%R)) (HttpError "no key")) "XAG").1 = Js.Normal r
    ∧ unverifiable r.
Proof.
  destruct (metals_without_keys_unverified
              (MetalsCollection.mkEnv false false (HttpError "no key")
                 (HttpError "down") (Responds (Some 25%R)) (HttpError "no key"))
              "XAG") as (r & Hr & Hu & _); [reflexivity|reflexivity|discriminate|].
  by exists r.
Defined.

End AdapterFacts.

(** ** Scrapers of the real-estate and luxury collectors *)

Module ScraperFacts.

Import Collector CollectorNotions CollectorFacts CollectorMore ResultShape JsMore
  PriceLists AdapterFacts.

Lemma firstWithin_some lo hi parsed p :
  firstWithin lo hi parsed = Some p ->
  ∃ before after,
    parsed = before ++ Some p :: after
    ∧ (lo < p < hi)%R
    ∧ noneWithin lo hi before.
Proof.
  induction parsed as [|[x|] parsed IH]; simpl; [done| |].
  - destruct (Js.gtb x lo && Js.ltb x hi) eqn:Hin.
    + intros [= <-]. exists [], parsed. split; [done|].
      split; [by apply andb_gt_lt|constructor].
    + intros (before & after & -> & Hp & Hnone)%IH.
      exists (Some x :: before), after. split; [done|]. split; [done|].
      constructor; [|done]. intros y [= <-] Hy.
      apply andb_gt_lt in Hy. congruence.
  - intros (before & after & -> & Hp & Hnone)%IH.
    exists (None :: before), after. split; [done|]. split; [done|].
    constructor; [|done]. by intros y.
Qed.

Lemma firstWithin_none lo hi parsed :
  firstWithin lo hi parsed = None -> noneWithin lo hi parsed.
Proof.
  induction parsed as [|[x|] parsed IH]; simpl; [constructor| |].
  - destruct (Js.gtb x lo && Js.ltb x hi) eqn:Hin; [done|].
    intros H. constructor; [|by apply IH]. intros y [= <-] Hy.
    apply andb_gt_lt in Hy. congruence.
  - intros H. constructor; [|by apply IH]. by intros y.
Qed.

Lemma scrapeWithin_bounds lo hi response p :
  RealEstateAdapters.scrapeWithin lo hi response = Returns (Some p) ->
  (lo < p < hi)%R.
Proof.
  unfold RealEstateAdapters.scrapeWithin. destruct response as [parsed|]; [|done].
  intros [= Hp]. by apply firstWithin_some in Hp as (_ & _ & _ & Hin & _).
Qed.

(** X10.  The page scrapers of the real-estate collector (Redfin with
    bounds 200000 and 1000000, CREA with 400000 and 2000000, StreetEasy
    with 500 and 5000) never throw; they return the first parsed price
    that lies strictly between the bounds, and [null] exactly when the
    request fails or no price on the page does. *)
Theorem scraper_returns_first_plausible lo hi response :
  (∃ v, RealEstateAdapters.scrapeWithin lo hi response = Returns v)
  ∧ (∀ p,
       RealEstateAdapters.scrapeWithin lo hi response = Returns (Some p) ->
       ∃ before after,
         response = Responds (before ++ Some p :: after)
         ∧ (lo < p < hi)%R
         ∧ noneWithin lo hi before)
  ∧ (RealEstateAdapters.scrapeWithin lo hi response = Returns None ->
     (∃ message, response = HttpError message)
     ∨ ∃ parsed, response = Responds parsed ∧ noneWithin lo hi parsed).
Proof.
  unfold RealEstateAdapters.scrapeWithin.
  destruct response as [parsed|message].
  - split; [by eexists|]. split.
    + intros p [= Hp]. apply firstWithin_some in Hp as (before & after & -> & ?).
      by exists before, after.
    + intros [= Hnone]. right. exists parsed. split; [done|].
      by apply firstWithin_none.
  - split; [by eexists|]. split; [done|]. intros _. left. by eexists.
Qed.

Lemma crea_page :
  RealEstateAdapters.scrapeCreaData (Responds [None; Some 100%R; Some 500000%R])
  = Returns (Some 500000%R).
Proof.
  unfold RealEstateAdapters.scrapeCreaData, RealEstateAdapters.scrapeWithin.
  simpl. unfold Js.gtb, Js.ltb. rdec. simpl. rdec. done.
Qed.

Lemma scraper_returns_first_plausible_witness :
  ∃ before after,
    Responds [None; Some 100%R; Some 500000%R]
    = Responds (before ++ Some 500000%R :: after)
    ∧ (400000 < 500000 < 2000000)%R
    ∧ noneWithin 400000 2000000 before.
Proof.
  apply (proj1 (proj2 (scraper_returns_first_plausible 400000 2000000
                         (Responds [None; Some 100%R; Some 500000%R])))).
  exact crea_page.
Defined.

Lemma tryAdapter_none name reliability warning acc :
  tryAdapter name reliability warning (Returns None) acc = acc.
Proof. reflexivity. Qed.

(** The result of the real-estate tail on what one adapter gathered. *)
Lemma realEstate_one_adapter name reliability warning outcome symbol log :
  ∃ r,
    (finish RealEstateCollector.verifyAndConsolidate "No valid sources available"
       symbol
       (RealEstateCollector.validSources
          (tryAdapter name reliability warning outcome ([], [])).1) log).1
    = Js.Normal r
    ∧ unverifiable r
    ∧ (Result.success r = true ->
       Result.source r = Some name
       ∧ ∃ p, outcome = Returns (Some p) ∧ Result.price r = Some p).
Proof.
  destruct (tryAdapter_first name reliability warning outcome) as [->|(p & Hp & ->)].
  - eexists. split; [reflexivity|]. split; [apply failure_unverifiable|].
    simpl. discriminate.
  - destruct (validSources_single (Observation.mk name p reliability)) as [->| ->].
    + eexists. split; [reflexivity|]. split; [apply failure_unverifiable|].
      simpl. discriminate.
    + unfold RealEstateCollector.verifyAndConsolidate. rewrite finish_one.
      eexists. split; [reflexivity|]. split; [by split|].
      intros _. split; [done|]. by exists p.
Qed.

(** X11.  The Statistics Canada adapter is a placeholder, so CREA is the
    only source of HOUSE-CA: its result is never verified, and when it
    succeeds the price is CREA's, strictly between 400000 and 2000000.
    Likewise, without the FRED key, Redfin is the only source of
    HOUSE-US (Zillow and NAR are placeholders as well). *)
Theorem single_source_housing_unverified web :
  (∃ r,
     (RealEstateCollector.collectRealEstatePrice
        (RealEstateAdapters.adapters web) "HOUSE-CA").1 = Js.Normal r
     ∧ unverifiable r
     ∧ (Result.success r = true ->
        Result.source r = Some "CREA"%string
        ∧ ∃ p, Result.price r = Some p ∧ (400000 < p < 2000000)%R))
  ∧ (RealEstateAdapters.FRED_API_KEY web = false ->
     ∃ r,
       (RealEstateCollector.collectRealEstatePrice
          (RealEstateAdapters.adapters web) "HOUSE-US").1 = Js.Normal r
       ∧ unverifiable r
       ∧ (Result.success r = true ->
          Result.source r = Some "Redfin"%string
          ∧ ∃ p, Result.price r = Some p ∧ (200000 < p < 1000000)%R)).
Proof.
  split.
  - unfold RealEstateCollector.collectRealEstatePrice.
    change (String.eqb "HOUSE-CA" "HOUSE-US") with false.
    change (String.eqb "HOUSE-CA" "HOUSE-CA") with true. cbv iota.
    unfold RealEstateCollector.collectCanadaHousingPrices.
    cbn [RealEstateAdapters.adapters RealEstateCollector.getStatCanHousingPrice
         RealEstateCollector.scrapeCreaData RealEstateAdapters.getStatCanHousingPrice].
    cbv zeta. unfold RealEstateAdapters.getStatCanHousingPrice.
    rewrite tryAdapter_none.
    destruct (tryAdapter "CREA" _ _ _ _) as [sources log] eqn:Hacc.
    destruct (realEstate_one_adapter "CREA" 0.90%R "CREA scraping failed:"
                (RealEstateAdapters.scrapeCreaData (RealEstateAdapters.crea web))
                "HOUSE-CA" log) as (r & Hr & Hu & Hs).
    rewrite Hacc in Hr. cbn [fst] in Hr.
    exists r. split; [exact Hr|]. split; [done|].
    intros Hok. destruct (Hs Hok) as (Hsrc & p & Hp & Hprice).
    split; [done|]. exists p. split; [done|].
    by apply (scrapeWithin_bounds _ _ _ _ Hp).
  - intros Hkey. unfold RealEstateCollector.collectRealEstatePrice.
    change (String.eqb "HOUSE-US" "HOUSE-US") with true. cbv iota.
    unfold RealEstateCollector.collectUSHousingPrices.
    cbn [RealEstateAdapters.adapters RealEstateCollector.FRED_API_KEY
         RealEstateCollector.getZillowResearchData RealEstateCollector.getRedfinData
         RealEstateCollector.scrapeNarData RealEstateAdapters.getZillowResearchData
         RealEstateAdapters.scrapeNarData].
    rewrite Hkey.
    cbv zeta. unfold RealEstateAdapters.getZillowResearchData,
      RealEstateAdapters.scrapeNarData.
    rewrite !tryAdapter_none.
    destruct (tryAdapter "Redfin" _ _ _ _) as [sources log] eqn:Hacc.
    destruct (realEstate_one_adapter "Redfin" 0.88%R "Redfin data failed:"
                (RealEstateAdapters.getRedfinData (RealEstateAdapters.redfin web))
                "HOUSE-US" log) as (r & Hr & Hu & Hs).
    rewrite Hacc in Hr. cbn [fst] in Hr.
    exists r. split; [exact Hr|]. split; [done|].
    intros Hok. destruct (Hs Hok) as (Hsrc & p & Hp & Hprice).
    split; [done|]. exists p. split; [done|].
    by apply (scrapeWithin_bounds _ _ _ _ Hp).
Qed.

Lemma single_source_housing_unverified_witness :
  ∃ r,
    (RealEstateCollector.collectRealEstatePrice
       (RealEstateAdapters.adapters
          (RealEstateAdapters.mkWeb false (HttpError "no key") (Responds tt)
             (Responds [Some 350000%R]) (Responds tt) (Responds tt)
             (HttpError "down") (HttpError "down") (HttpError "down")))
       "HOUSE-US").1 = Js.Normal r
    ∧ unverifiable r.
Proof.
  destruct (proj2 (single_source_housing_unverified
                     (RealEstateAdapters.mkWeb false (HttpError "no key") (Responds tt)
                        (Responds [Some 350000%R]) (Responds tt) (Responds tt)
                        (HttpError "down") (HttpError "down") (HttpError "down"))))
    as (r & Hr & Hu & _); [reflexivity|].
  by exists r.
Defined.

End ScraperFacts.

(** ** The schedule *)

Module ScheduleFacts.

Import Schedule ScheduleNotions.

Lemma fifteen_is_five minute :
  everyFifteenMinutes minute = true -> everyFiveMinutes minute = true.
Proof.
  unfold everyFifteenMinutes, everyFiveMinutes.
  intros H%Nat.eqb_eq. apply Nat.eqb_eq.
  apply Nat.Div0.mod_divides in H as [q ->].
  replace (15 * q) with (5 * (3 * q)) by lia.
  apply Nat.Div0.mod_divides. by exists (3 * q).
Qed.

(** X13.  The two update jobs never call [updateAllPrices] at the same
    minute, and at every full hour exactly one of them does: the
    five-minute job from 6:00 to 22:55, the hourly job from 23:00 to
    5:00.  The hourly job acts at minute 0 only, every time [saveData]
    is scheduled is a time of the five-minute pattern, and the schedule
    calls [updateAllPrices] 211 times a day. *)
Theorem update_jobs_alternate :
  (∀ hour minute,
     marketHoursUpdate hour minute && offHoursUpdate hour minute = false)
  ∧ (∀ hour, xorb (marketHoursUpdate hour 0) (offHoursUpdate hour 0) = true)
  ∧ (∀ hour minute,
       offHoursUpdate hour minute = true -> minute = 0 ∧ (hour < 6 ∨ 22 < hour))
  ∧ (∀ hour minute,
       marketHoursUpdate hour minute = true ->
       minute mod 5 = 0 ∧ 6 <= hour <= 22)
  ∧ (∀ hour minute, saves hour minute = true -> everyFiveMinutes minute = true)
  ∧ updatesPerDay = 211.
Proof.
  split; [|split; [|split; [|split; [|split]]]].
  - intros hour minute. unfold marketHoursUpdate, offHoursUpdate.
    destruct (Nat.leb_spec 6 hour), (Nat.leb_spec hour 22),
      (Nat.ltb_spec hour 6), (Nat.ltb_spec 22 hour); try lia;
      destruct (everyFiveMinutes minute), (onTheHour minute); reflexivity.
  - intros hour. unfold marketHoursUpdate, offHoursUpdate.
    change (everyFiveMinutes 0) with true. change (onTheHour 0) with true.
    destruct (Nat.leb_spec 6 hour), (Nat.leb_spec hour 22),
      (Nat.ltb_spec hour 6), (Nat.ltb_spec 22 hour); try lia; reflexivity.
  - intros hour minute. unfold offHoursUpdate, onTheHour.
    intros [Hm Hh]%andb_true_iff. apply Nat.eqb_eq in Hm.
    apply orb_true_iff in Hh as [Hh%Nat.ltb_lt|Hh%Nat.ltb_lt]; auto.
  - intros hour minute. unfold marketHoursUpdate, everyFiveMinutes.
    intros [Hm [H6%Nat.leb_le H22%Nat.leb_le]%andb_true_iff]%andb_true_iff.
    apply Nat.eqb_eq in Hm. auto.
  - intros hour minute. apply fifteen_is_five.
  - vm_compute. reflexivity.
Qed.

Lemma update_jobs_alternate_witness : 0 = 0 ∧ (23 < 6 ∨ 22 < 23).
Proof.
  apply (proj1 (proj2 (proj2 update_jobs_alternate)) 23 0). reflexivity.
Defined.

End ScheduleFacts.

(** ** The query surface *)

Module QueryFacts.

Import UniversalPriceAgent JsMore QuerySurface.

Lemma Math_max_step (values : list Z) (acc : Extended) :
  match
    fold_left
      (fun acc z =>
         match acc with
         | NegInfinity => Finite z
         | Finite m => Finite (Z.max m z)
         end)
      values acc
  with
  | NegInfinity => acc = NegInfinity ∧ values = []
  | Finite m =>
      (acc = Finite m ∨ m ∈ values)
      ∧ Forall (λ z, (z <= m)%Z) values
      ∧ (∀ a, acc = Finite a -> (a <= m)%Z)
  end.
Proof.
  revert acc. induction values as [|z values IH]; intros acc; simpl.
  - destruct acc as [|a]; [done|].
    split; [by left|]. split; [constructor|]. by intros ? [= ->].
  - set (acc' := match acc with NegInfinity => Finite z | Finite m => Finite (Z.max m z) end).
    specialize (IH acc').
    destruct (fold_left _ values acc') as [|m].
    + destruct IH as [Hacc _]. unfold acc' in Hacc. by destruct acc.
    + destruct IH as (Hin & Hall & Hle).
      assert (Hz : (z <= m)%Z).
      { unfold acc' in Hle. destruct acc as [|a].
        - by apply Hle.
        - specialize (Hle _ eq_refl). lia. }
      split; [|split].
      * destruct Hin as [Hin|Hin]; [|right; by apply list_elem_of_further].
        unfold acc' in Hin. destruct acc as [|a].
        -- injection Hin as ->. right. apply list_elem_of_here.
        -- injection Hin as Hm. destruct (Z.max_spec a z) as [[_ Hmax]|[_ Hmax]].
           ++ right. rewrite <- Hm, Hmax. apply list_elem_of_here.
           ++ left. by rewrite <- Hm, Hmax.
      * by constructor.
      * intros a ->. unfold acc' in Hle. specialize (Hle _ eq_refl). lia.
Qed.

Lemma Math_max_spec (values : list Z) :
  match Math_max values with
  | NegInfinity => values = []
  | Finite m => m ∈ values ∧ Forall (λ z, (z <= m)%Z) values
  end.
Proof.
  unfold Math_max. pose proof (Math_max_step values NegInfinity) as H.
  destruct (fold_left _ values NegInfinity) as [|m].
  - by destruct H.
  - destruct H as ([H|H] & Hall & _); [done|]. by split.
Qed.

(** X14.  The [lastUpdate] field of the answer of [GET /api/prices] (and
    of [GET /api/status]) is the latest of the timestamps recorded in
    [this.lastUpdate]: it is the timestamp of some symbol and no symbol
    has a later one.  Before the first update there is no timestamp and
    the field is [-Infinity], not a time. *)
Theorem latest_update_is_maximum this :
  (UniversalPriceAgent.lastUpdate this = ∅
   ↔ QuerySurface.lastUpdate (getPrices this) = NegInfinity)
  ∧ (∀ m,
       QuerySurface.lastUpdate (getPrices this) = Finite m ->
       (∃ symbol, UniversalPriceAgent.lastUpdate this !! symbol = Some m)
       ∧ ∀ symbol timestamp,
           UniversalPriceAgent.lastUpdate this !! symbol = Some timestamp ->
           (timestamp <= m)%Z)
  ∧ (∀ symbol timestamp,
       UniversalPriceAgent.lastUpdate this !! symbol = Some timestamp ->
       ∃ m, QuerySurface.lastUpdate (getPrices this) = Finite m ∧ (timestamp <= m)%Z)
  ∧ totalItems (getPrices this) = size (prices (getPrices this)).
Proof.
  cbn [getPrices QuerySurface.lastUpdate totalItems prices]. unfold latestUpdate.
  pose proof (Math_max_spec (map_to_list (UniversalPriceAgent.lastUpdate this)).*2) as H.
  assert (Hmem : ∀ symbol timestamp,
             UniversalPriceAgent.lastUpdate this !! symbol = Some timestamp ->
             timestamp ∈ (map_to_list (UniversalPriceAgent.lastUpdate this)).*2).
  { intros symbol timestamp Hl. apply list_elem_of_fmap.
    exists (symbol, timestamp). split; [done|]. by apply elem_of_map_to_list. }
  split; [|split; [|split]].
  - split.
    + intros ->. by rewrite map_to_list_empty.
    + intros Hneg. rewrite Hneg in H.
      apply fmap_nil_inv in H. by apply map_to_list_empty_iff.
  - intros m Hm. rewrite Hm in H. destruct H as [Hin Hall]. split.
    + apply list_elem_of_fmap in Hin as ([symbol timestamp] & -> & Hin).
      exists symbol. by apply elem_of_map_to_list.
    + intros symbol timestamp Hl.
      rewrite Forall_forall in Hall. by apply Hall, (Hmem symbol).
  - intros symbol timestamp Hl. apply Hmem in Hl.
    destruct (Math_max _) as [|m].
    + rewrite H in Hl. by apply elem_of_nil in Hl.
    + exists m. split; [done|]. destruct H as [_ Hall].
      rewrite Forall_forall in Hall. by apply Hall.
  - by rewrite map_size_fmap.
Qed.

Lemma latest_update_is_maximum_witness :
  ∃ m,
    QuerySurface.lastUpdate
      (getPrices (updateItemData 7 "BTC" 100 None None create)) = Finite m
    ∧ (7 <= m)%Z.
Proof.
  apply (proj1 (proj2 (proj2 (latest_update_is_maximum
                                (updateItemData 7 "BTC" 100 None None create))))
           "BTC"%string 7%Z).
  unfold updateItemData. cbn [UniversalPriceAgent.lastUpdate].
  apply lookup_insert_eq.
Defined.

End QueryFacts.

(** ** Saving and loading the histories *)

Module PersistenceFacts.

Import UniversalPriceAgent JsMore Persistence HistoryNotions.

Lemma last_sliceLast1000 (history : list HistoryPoint.t) :
  last (sliceLast1000 history) = last history.
Proof.
  unfold sliceLast1000. set (k := length history - 1000).
  rewrite <- (take_drop k history) at 2. rewrite last_app.
  destruct (last (drop k history)) eqn:Hlast; [done|].
  apply last_None in Hlast.
  assert (Hlen : length (drop k history) = 0) by by rewrite Hlast.
  rewrite length_drop in Hlen.
  assert (length history = 0) by lia.
  by destruct history.
Qed.

Lemma sliceLast1000_short (history : list HistoryPoint.t) :
  length history <= 1000 -> sliceLast1000 history = history.
Proof.
  intros Hlen. unfold sliceLast1000.
  by replace (length history - 1000) with 0 by lia.
Qed.

(** One entry of the stored object leaves the other symbols alone. *)
Lemma hydrate_other this symbol history other :
  symbol ≠ other ->
  dataStore (hydrate this (symbol, history)) !! other = dataStore this !! other
  ∧ lastUpdate (hydrate this (symbol, history)) !! other = lastUpdate this !! other
  ∧ updateHistory (hydrate this (symbol, history)) !! other
    = updateHistory this !! other
  ∧ isUpdating (hydrate this (symbol, history)) = isUpdating this.
Proof.
  intros Hne. unfold hydrate. destruct (last history);
    cbn [dataStore lastUpdate updateHistory isUpdating];
    by rewrite ?lookup_insert_ne.
Qed.

Lemma hydrate_same this symbol history :
  dataStore (hydrate this (symbol, history)) !! symbol
  = match last history with
    | Some latest => Some (latestOf latest)
    | None => dataStore this !! symbol
    end
  ∧ lastUpdate (hydrate this (symbol, history)) !! symbol
    = match last history with
      | Some latest => Some (HistoryPoint.timestamp latest)
      | None => lastUpdate this !! symbol
      end
  ∧ updateHistory (hydrate this (symbol, history)) !! symbol = Some history.
Proof.
  unfold hydrate. destruct (last history);
    cbn [dataStore lastUpdate updateHistory];
    by rewrite ?lookup_insert_eq.
Qed.

Lemma fold_hydrate_absent data this symbol :
  symbol ∉ data.*1 ->
  dataStore (fold_left hydrate data this) !! symbol = dataStore this !! symbol
  ∧ lastUpdate (fold_left hydrate data this) !! symbol = lastUpdate this !! symbol
  ∧ updateHistory (fold_left hydrate data this) !! symbol
    = updateHistory this !! symbol.
Proof.
  revert this. induction data as [|[other history] data IH]; intros this Hnot;
    [done|].
  cbn [fold_left]. rewrite fmap_cons in Hnot. cbn [fst] in Hnot.
  apply not_elem_of_cons in Hnot as [Hne Hnot].
  destruct (IH (hydrate this (other, history)) Hnot) as (-> & -> & ->).
  destruct (hydrate_other this other history symbol) as (-> & -> & -> & _); done.
Qed.

Lemma fold_hydrate_isUpdating data this :
  isUpdating (fold_left hydrate data this) = isUpdating this.
Proof.
  revert this. induction data as [|[symbol history] data IH]; intros this; [done|].
  cbn [fold_left]. rewrite IH. unfold hydrate. by destruct (last history).
Qed.

(** With one entry per symbol, as in an object read from JSON, the entry
    of a symbol decides what the stores hold for it. *)
Lemma fold_hydrate_present data this symbol history :
  NoDup data.*1 -> (symbol, history) ∈ data ->
  dataStore (fold_left hydrate data this) !! symbol
  = match last history with
    | Some latest => Some (latestOf latest)
    | None => dataStore this !! symbol
    end
  ∧ lastUpdate (fold_left hydrate data this) !! symbol
    = match last history with
      | Some latest => Some (HistoryPoint.timestamp latest)
      | None => lastUpdate this !! symbol
      end
  ∧ updateHistory (fold_left hydrate data this) !! symbol = Some history.
Proof.
  revert this. induction data as [|[other history'] data IH]; intros this Hnd Hin.
  - by apply elem_of_nil in Hin.
  - rewrite fmap_cons in Hnd. cbn [fst] in Hnd.
    apply NoDup_cons in Hnd as [Hnot Hnd]. cbn [fold_left].
    apply elem_of_cons in Hin as [[= <- <-]|Hin].
    + destruct (fold_hydrate_absent data (hydrate this (symbol, history)) symbol Hnot)
        as (-> & -> & ->).
      apply hydrate_same.
    + assert (Hne : other ≠ symbol).
      { intros ->. apply Hnot. apply list_elem_of_fmap. by exists (symbol, history). }
      destruct (IH (hydrate this (other, history')) Hnd Hin) as (-> & -> & ->).
      destruct (hydrate_other this other history' symbol Hne) as (-> & -> & _).
      done.
Qed.

(** X15.  Loading what [saveData] wrote into a fresh agent restores the
    histories as they were written, the last 1000 points of each, which
    are the histories themselves while none is longer than 1000; for
    every symbol with a nonempty history [dataStore] and [lastUpdate]
    are rebuilt from its last point, a symbol without points gets no
    current price, and the agent is not updating. *)
Theorem load_restores_saved_histories this :
  let reloaded := (loadStoredData (savedFile this) create).1 in
  updateHistory reloaded = saveData this
  ∧ (capped this -> updateHistory reloaded = updateHistory this)
  ∧ (∀ symbol,
       dataStore reloaded !! symbol
       = latestOf <$> (updateHistory this !! symbol ≫= last))
  ∧ (∀ symbol,
       lastUpdate reloaded !! symbol
       = HistoryPoint.timestamp <$> (updateHistory this !! symbol ≫= last))
  ∧ isUpdating reloaded = false.
Proof.
  cbv zeta. unfold savedFile, loadStoredData. cbn [fst].
  set (data := map_to_list (saveData this)).
  assert (Hnd : NoDup data.*1) by apply NoDup_fst_map_to_list.
  assert (Hlook : ∀ symbol,
             match saveData this !! symbol with
             | Some history =>
                 dataStore (fold_left hydrate data create) !! symbol
                 = latestOf <$> last history
                 ∧ lastUpdate (fold_left hydrate data create) !! symbol
                   = HistoryPoint.timestamp <$> last history
                 ∧ updateHistory (fold_left hydrate data create) !! symbol
                   = Some history
             | None =>
                 dataStore (fold_left hydrate data create) !! symbol = None
                 ∧ lastUpdate (fold_left hydrate data create) !! symbol = None
                 ∧ updateHistory (fold_left hydrate data create) !! symbol = None
             end).
  { intros symbol. destruct (saveData this !! symbol) as [history|] eqn:Hs.
    - apply elem_of_map_to_list in Hs.
      destruct (fold_hydrate_present data create symbol history Hnd Hs)
        as (-> & -> & ->).
      unfold create. cbn [dataStore lastUpdate]. rewrite !lookup_empty.
      by destruct (last history).
    - assert (Hnot : symbol ∉ data.*1).
      { intros ([symbol' history] & -> & Hin)%list_elem_of_fmap.
        apply elem_of_map_to_list in Hin. cbn [fst] in Hs. congruence. }
      destruct (fold_hydrate_absent data create symbol Hnot) as (-> & -> & ->).
      unfold create. cbn [dataStore lastUpdate updateHistory].
      by rewrite !lookup_empty. }
  assert (Hhist : updateHistory (fold_left hydrate data create) = saveData this).
  { apply map_eq. intros symbol. specialize (Hlook symbol).
    destruct (saveData this !! symbol); by destruct Hlook as (_ & _ & ->). }
  split; [exact Hhist|]. split; [|split; [|split]].
  - intros Hcap. rewrite Hhist. apply map_eq. intros symbol.
    unfold saveData. rewrite lookup_fmap.
    destruct (updateHistory this !! symbol) as [history|] eqn:Hh; [|done].
    cbn. f_equal. apply sliceLast1000_short. by apply (Hcap symbol).
  - intros symbol. specialize (Hlook symbol). unfold saveData in Hlook.
    rewrite lookup_fmap in Hlook.
    destruct (updateHistory this !! symbol) as [history|]; cbn in *.
    + destruct Hlook as (-> & _). by rewrite last_sliceLast1000.
    + by destruct Hlook as (-> & _).
  - intros symbol. specialize (Hlook symbol). unfold saveData in Hlook.
    rewrite lookup_fmap in Hlook.
    destruct (updateHistory this !! symbol) as [history|]; cbn in *.
    + destruct Hlook as (_ & -> & _). by rewrite last_sliceLast1000.
    + by destruct Hlook as (_ & -> & _).
  - by rewrite fold_hydrate_isUpdating.
Qed.

Lemma load_restores_saved_histories_witness :
  updateHistory (loadStoredData (savedFile boundaryAgent) create).1
  = updateHistory boundaryAgent.
Proof.
  apply (proj1 (proj2 (load_restores_saved_histories boundaryAgent))).
  intros symbol history. unfold boundaryAgent. cbn [updateHistory].
  intros [<- <-]%lookup_singleton_Some. simpl. lia.
Defined.

End PersistenceFacts.

(** ** Windows of the historical query *)

Module WindowFacts.

Import UniversalPriceAgent HistoryNotions.

Lemma filter_sublist {A : Type} (p q : A -> bool) (l : list A) :
  (∀ x, p x = true -> q x = true) ->
  sublist (List.filter p l) (List.filter q l).
Proof.
  intros Himp. induction l as [|x l IH]; simpl; [constructor|].
  destruct (p x) eqn:Hp.
  - rewrite (Himp x Hp). by constructor.
  - destruct (q x); [by constructor|done].
Qed.

Lemma getHistoricalData_sublist now now' symbol period period' this :
  (now' - windowMillis period' <= now - windowMillis period)%Z ->
  sublist (getHistoricalData now symbol period this)
    (getHistoricalData now' symbol period' this).
Proof.
  intros Hle. unfold getHistoricalData.
  destruct (length _ =? 0)%nat; [constructor|].
  apply (fmap_sublist toSample), filter_sublist.
  intros point Hp. apply Z.leb_le. apply Z.leb_le in Hp. lia.
Qed.

(** X16.  A query over a shorter window returns part of what the query
    over a longer window returns at the same moment, in the same order
    (an hour within a day, a day within a week, and so on up to a year,
    an unrecognised period counting as a week); a later query over the
    same window returns part of the earlier answer when nothing was
    appended in between; and no answer has more points than the stored
    history.  The answer of [GET /api/historical/:symbol] to a request
    without a period is the answer for the period 1W, and its
    [dataPoints] field is the number of points it carries. *)
Theorem shorter_window_within_longer now symbol this :
  (∀ period period',
     (windowMillis period <= windowMillis period')%Z ->
     sublist (getHistoricalData now symbol period this)
       (getHistoricalData now symbol period' this))
  ∧ (windowMillis "1H" <= windowMillis "1D" <= windowMillis "1W"
     ∧ windowMillis "1W" <= windowMillis "1M" <= windowMillis "3M"
     ∧ windowMillis "3M" <= windowMillis "1Y")%Z
  ∧ (∀ period later,
       (now <= later)%Z ->
       sublist (getHistoricalData later symbol period this)
         (getHistoricalData now symbol period this))
  ∧ (∀ period,
       length (getHistoricalData now symbol period this)
       <= length (historyOf symbol this))
  ∧ QuerySurface.getHistorical now symbol None this
    = QuerySurface.getHistorical now symbol (Some "1W"%string) this
  ∧ (∀ period,
       QuerySurface.dataPoints (QuerySurface.getHistorical now symbol period this)
       = length (QuerySurface.data (QuerySurface.getHistorical now symbol period this))
       ∧ QuerySurface.dataPoints (QuerySurface.getHistorical now symbol period this)
         <= length (historyOf symbol this)).
Proof.
  assert (Hshort : ∀ period,
             length (getHistoricalData now symbol period this)
             <= length (historyOf symbol this)).
  { intros period. unfold getHistoricalData, historyOf.
    destruct (length _ =? 0)%nat; [simpl; lia|].
    rewrite length_map. apply List.filter_length_le. }
  split; [|split; [|split; [|split; [|split]]]].
  - intros period period' Hle. apply getHistoricalData_sublist. lia.
  - vm_compute. repeat split; discriminate.
  - intros period later Hle. apply getHistoricalData_sublist. lia.
  - exact Hshort.
  - reflexivity.
  - intros period. split; [reflexivity|]. apply Hshort.
Qed.

Lemma shorter_window_within_longer_witness :
  sublist (getHistoricalData 3601000 "BTC" "1H" boundaryAgent)
    (getHistoricalData 3601000 "BTC" "1Y" boundaryAgent).
Proof.
  apply (proj1 (shorter_window_within_longer 3601000 "BTC" boundaryAgent)).
  vm_compute. discriminate.
Defined.

End WindowFacts.

(** ** The stores in step with each other *)

Module StoreFacts.

Import UniversalPriceAgent Orchestrator HistoryNotions CycleNotions StoreNotions
  Persistence OrchestratorFacts PersistenceFacts.

(** A property of the agent that [updateItemData] on a positive price
    and a change of the flag preserve holds along every run. *)
Section Invariant.
Variable P : UniversalPriceAgent.t -> Prop.
Hypothesis P_update :
  ∀ now symbol price source verified this,
    (0 < price)%R -> P this -> P (updateItemData now symbol price source verified this).
Hypothesis P_flag : ∀ flag this, P this -> P (setUpdating flag this).




End Invariant.









End StoreFacts.

(** ** Medians *)

Module MedianFacts.

Import JsMore PriceLists Medians SortFacts.

Lemma insert_ascending a l :
  ascending l -> ascending (Js.insert (fun a b => (a - b)%R) a l).
Proof.
  unfold ascending. induction 1 as [|b l Hl IH Hb]; simpl.
  - repeat constructor.
  - destruct (Rgt_dec (a - b) 0) as [Hgt|Hle].
    + constructor; [done|].
      rewrite (insert_perm (fun a b => (a - b)%R) a l).
      constructor; [lra|done].
    + constructor; [by constructor|].
      constructor; [lra|]. eapply Forall_impl; [exact Hb|]. simpl. intros; lra.
Qed.

Lemma sortAscending_ascending l : ascending (sortAscending l).
Proof.
  unfold sortAscending.
  induction l as [|a l IH]; simpl; [constructor|]. by apply insert_ascending.
Qed.

Lemma countIf_perm test l l' : l ≡ₚ l' -> countIf test l = countIf test l'.
Proof.
  unfold countIf. induction 1 as [|x l l' _ IH|x y l|l l' l'' _ IH1 _ IH2]; simpl.
  - done.
  - destruct (test x); simpl; lia.
  - destruct (test x), (test y); simpl; lia.
  - lia.
Qed.

Lemma countIf_app test l l' :
  countIf test (l ++ l') = countIf test l + countIf test l'.
Proof. unfold countIf. by rewrite List.filter_app, length_app. Qed.

Lemma countIf_all test l :
  Forall (λ x, test x = true) l -> countIf test l = length l.
Proof.
  unfold countIf. induction 1 as [|x l Hx _ IH]; simpl; [done|].
  rewrite Hx. simpl. lia.
Qed.

Lemma leb_true x m : (x <= m)%R -> leb x m = true.
Proof. intros H. unfold leb. destruct (Rle_dec x m); [done|lra]. Qed.

Lemma geb_true x m : (m <= x)%R -> geb x m = true.
Proof. intros H. unfold geb. destruct (Rge_dec x m); [done|lra]. Qed.

(** On a nonempty array, [prices[Math.floor(prices.length / 2)]] after
    the ascending sort is the median. *)
Lemma middle_centre prices :
  prices ≠ [] -> ∃ m, middle prices = Some m ∧ centre prices m.
Proof.
  intros Hne. unfold middle.
  set (n := length prices). set (k := n / 2).
  assert (Hn : 0 < n) by (unfold n; destruct prices; [done|simpl; lia]).
  assert (Hk : k < n) by (apply Nat.div_lt; lia).
  pose proof (sort_length (fun a b => (a - b)%R) prices) as Hlen.
  fold (sortAscending prices) in Hlen. fold n in Hlen.
  pose proof (sort_perm (fun a b => (a - b)%R) prices) as Hperm.
  fold (sortAscending prices) in Hperm.
  pose proof (sortAscending_ascending prices) as Hsorted.
  destruct (lookup_lt_is_Some_2 (sortAscending prices) k) as [m Hm]; [lia|].
  exists m. split; [done|].
  pose proof (take_drop_middle _ _ _ Hm) as Hsplit.
  set (before := take k (sortAscending prices)) in *.
  set (after := drop (S k) (sortAscending prices)) in *.
  assert (Hbefore : length before = k) by (unfold before; rewrite length_take; lia).
  assert (Hafter : length after = n - S k) by (unfold after; rewrite length_drop; lia).
  rewrite <- Hsplit in Hsorted. unfold ascending in Hsorted.
  assert (Hlow : Forall (λ x, leb x m = true) before).
  { apply Forall_forall. intros x Hx. apply leb_true.
    apply (StronglySorted_app_1_elem_of _ _ _ x m Hsorted Hx).
    apply list_elem_of_here. }
  assert (Hhigh : Forall (λ x, geb x m = true) (m :: after)).
  { apply StronglySorted_app_1_r in Hsorted.
    apply StronglySorted_inv in Hsorted as [_ Hall].
    constructor; [apply geb_true; lra|].
    eapply Forall_impl; [exact Hall|]. intros x Hx. by apply geb_true. }
  split; [|split].
  - rewrite <- Hperm, <- Hsplit. apply elem_of_app. right. apply list_elem_of_here.
  - rewrite <- (countIf_perm _ _ _ Hperm), <- Hsplit, countIf_app.
    rewrite (countIf_all _ before Hlow), Hbefore.
    unfold countIf at 1. cbn [List.filter]. rewrite (leb_true m m) by lra.
    cbn [length]. fold n k. lia.
  - rewrite <- (countIf_perm _ _ _ Hperm), <- Hsplit, countIf_app.
    rewrite (countIf_all _ (m :: after) Hhigh). cbn [length]. rewrite Hafter.
    fold n k. lia.
Qed.

Lemma middle_nil : middle [] = None.
Proof. reflexivity. Qed.

End MedianFacts.

(** ** Scrapers that return a median *)

Module MedianScrapers.

Import Collector CollectorNotions CollectorFacts CollectorMore ResultShape JsMore
  PriceLists Medians MedianFacts AdapterFacts.

Lemma keep_elem test parsed x :
  x ∈ LuxuryCollector.keep test parsed ↔ Some x ∈ parsed ∧ test x = true.
Proof.
  unfold LuxuryCollector.keep. rewrite list_elem_of_omap. split.
  - intros ([y|] & Hin & Hy); [|done].
    destruct (test y) eqn:Ht; [|done]. injection Hy as ->. by split.
  - intros [Hin Ht]. exists (Some x). split; [done|]. by rewrite Ht.
Qed.

Lemma length_positive_nonempty {A : Type} (l : list A) :
  (0 <? length l)%nat = true -> l ≠ [].
Proof. destruct l; [done|]. by intros _. Qed.

(** X18.  The two live scrapers of the luxury collector never throw.
    [scrapeChrono24] returns the median of the page's prices strictly
    between 5000 and 500000 (the upper middle one when their number is
    even), and [scrapeEbaySoldListings] the median of the prices above
    100 among the first ten sold listings; each returns a price as soon
    as one price passes its test. *)
Theorem luxury_scrapers_return_median response :
  ((∃ v, LuxuryCollector.scrapeChrono24 response = Returns v)
   ∧ ∃ v, LuxuryCollector.scrapeEbaySoldListings response = Returns v)
  ∧ (∀ p,
       LuxuryCollector.scrapeChrono24 response = Returns (Some p) ->
       ∃ parsed,
         response = Responds parsed
         ∧ centre
             (LuxuryCollector.keep
                (fun price => Js.gtb price 5000 && Js.ltb price 500000) parsed) p
         ∧ Some p ∈ parsed
         ∧ (5000 < p < 500000)%R)
  ∧ (∀ p,
       LuxuryCollector.scrapeEbaySoldListings response = Returns (Some p) ->
       ∃ parsed,
         response = Responds parsed
         ∧ centre
             (LuxuryCollector.keep (fun price => Js.gtb price 100) (take 10 parsed)) p
         ∧ Some p ∈ take 10 parsed
         ∧ (100 < p)%R)
  ∧ (∀ parsed x,
       response = Responds parsed ->
       Some x ∈ parsed -> (5000 < x < 500000)%R ->
       ∃ p, LuxuryCollector.scrapeChrono24 response = Returns (Some p))
  ∧ (∀ parsed x,
       response = Responds parsed ->
       Some x ∈ take 10 parsed -> (100 < x)%R ->
       ∃ p, LuxuryCollector.scrapeEbaySoldListings response = Returns (Some p)).
Proof.
  split; [|split; [|split; [|split]]].
  - unfold LuxuryCollector.scrapeChrono24, LuxuryCollector.scrapeEbaySoldListings.
    destruct response as [parsed|message]; [|by split; eexists].
    cbv zeta. split; destruct (0 <? _)%nat; by eexists.
  - intros p. unfold LuxuryCollector.scrapeChrono24.
    destruct response as [parsed|message]; [|done]. cbv zeta.
    destruct (0 <? _)%nat eqn:Hlen; [|done].
    apply length_positive_nonempty in Hlen.
    destruct (middle_centre _ Hlen) as (m & Hm & Hcentre).
    rewrite Hm. intros [= <-]. exists parsed. split; [done|]. split; [done|].
    destruct Hcentre as [Hin _]. apply keep_elem in Hin as [Hin Htest].
    split; [done|]. by apply andb_gt_lt.
  - intros p. unfold LuxuryCollector.scrapeEbaySoldListings.
    destruct response as [parsed|message]; [|done]. cbv zeta.
    destruct (0 <? _)%nat eqn:Hlen; [|done].
    apply length_positive_nonempty in Hlen.
    destruct (middle_centre _ Hlen) as (m & Hm & Hcentre).
    rewrite Hm. intros [= <-]. exists parsed. split; [done|]. split; [done|].
    destruct Hcentre as [Hin _]. apply keep_elem in Hin as [Hin Htest].
    split; [done|]. unfold Js.gtb in Htest. by destruct (Rgt_dec m 100).
  - intros parsed x -> Hin Hx. unfold LuxuryCollector.scrapeChrono24. cbv zeta.
    set (prices := LuxuryCollector.keep _ parsed).
    assert (Hx' : x ∈ prices).
    { apply keep_elem. split; [done|]. by apply andb_gt_lt. }
    assert (Hne : prices ≠ []) by (intros Heq; rewrite Heq in Hx'; by apply elem_of_nil in Hx').
    destruct (middle_centre _ Hne) as (m & Hm & _).
    destruct prices; [done|]. cbn [length Nat.ltb Nat.leb]. rewrite Hm. by exists m.
  - intros parsed x -> Hin Hx. unfold LuxuryCollector.scrapeEbaySoldListings. cbv zeta.
    set (prices := LuxuryCollector.keep _ (take 10 parsed)).
    assert (Hx' : x ∈ prices).
    { apply keep_elem. split; [done|]. unfold Js.gtb. destruct (Rgt_dec x 100); [done|lra]. }
    assert (Hne : prices ≠ []) by (intros Heq; rewrite Heq in Hx'; by apply elem_of_nil in Hx').
    destruct (middle_centre _ Hne) as (m & Hm & _).
    destruct prices; [done|]. cbn [length Nat.ltb Nat.leb]. rewrite Hm. by exists m.
Qed.

Lemma luxury_scrapers_return_median_witness :
  ∃ p,
    LuxuryCollector.scrapeChrono24 (Responds [Some 100%R; None; Some 9000%R])
    = Returns (Some p).
Proof.
  apply (proj1 (proj2 (proj2 (proj2 (luxury_scrapers_return_median
                                       (Responds [Some 100%R; None; Some 9000%R])))))
           [Some 100%R; None; Some 9000%R] 9000%R).
  - reflexivity.
  - apply list_elem_of_further, list_elem_of_further, list_elem_of_here.
  - lra.
Defined.

Lemma validSale_spec sale q :
  RealEstateAdapters.validSale sale = Some q ->
  ∃ price feet,
    RealEstateAdapters.sale_price sale = Some price
    ∧ RealEstateAdapters.gross_square_feet sale = Some feet
    ∧ (100000 < price)%R ∧ (100 < feet)%R ∧ q = (price / feet)%R.
Proof.
  unfold RealEstateAdapters.validSale.
  destruct (RealEstateAdapters.sale_price sale) as [price|]; [|done].
  destruct (RealEstateAdapters.gross_square_feet sale) as [feet|]; [|done].
  unfold Js.gtb.
  destruct (Rgt_dec price 100000), (Rgt_dec feet 100); try done.
  intros [= <-]. exists price, feet. repeat split; try done; lra.
Qed.

(** X19.  [getNycOpenDataPrice] never throws.  It returns a price only
    when more than ten of the sales are valid (a sale price above 100000
    for more than 100 square feet), and the price is then the median of
    the prices per square foot of the valid sales: the quotient of one
    of them, a positive number below a hundredth of that sale's price. *)
Theorem nyc_price_is_median_per_square_foot response :
  (∃ v, RealEstateAdapters.getNycOpenDataPrice response = Returns v)
  ∧ ∀ p,
      RealEstateAdapters.getNycOpenDataPrice response = Returns (Some p) ->
      ∃ sales,
        response = Responds sales
        ∧ 10 < length (omap RealEstateAdapters.validSale sales)
        ∧ centre (omap RealEstateAdapters.validSale sales) p
        ∧ ∃ sale price feet,
            sale ∈ sales
            ∧ RealEstateAdapters.sale_price sale = Some price
            ∧ RealEstateAdapters.gross_square_feet sale = Some feet
            ∧ (100000 < price)%R ∧ (100 < feet)%R
            ∧ p = (price / feet)%R
            ∧ (0 < p < price / 100)%R.
Proof.
  unfold RealEstateAdapters.getNycOpenDataPrice.
  destruct response as [sales|message]; [|split; [by eexists|done]].
  split; [destruct (10 <? _)%nat; by eexists|].
  intros p. unfold RealEstateAdapters.validSales.
  set (prices := omap RealEstateAdapters.validSale sales).
  pose proof (SortFacts.sort_length (fun a b => (a - b)%R) prices) as Hlen.
  fold (sortAscending prices) in Hlen. rewrite Hlen.
  destruct (10 <? length prices)%nat eqn:Hten; [|done].
  apply Nat.ltb_lt in Hten.
  assert (Hne : prices ≠ []) by (destruct prices; [simpl in Hten; lia|done]).
  destruct (middle_centre _ Hne) as (m & Hm & Hcentre).
  unfold middle in Hm. rewrite Hm. intros [= <-].
  exists sales. split; [done|]. split; [done|]. split; [done|].
  destruct Hcentre as [Hin _].
  apply list_elem_of_omap in Hin as (sale & Hin & Hvalid).
  apply validSale_spec in Hvalid as (price & feet & Hprice & Hfeet & Hp & Hf & ->).
  exists sale, price, feet. repeat split; try done.
  - apply Rdiv_lt_0_compat; lra.
  - unfold Rdiv. apply Rmult_lt_compat_l; [lra|].
    apply Rinv_lt_contravar; [nra|done].
Qed.

Lemma sortAscending_replicate (x : R) n :
  sortAscending (replicate n x) = replicate n x.
Proof.
  unfold sortAscending. induction n as [|n IH]; simpl; [done|]. rewrite IH.
  destruct n; simpl; [done|]. destruct (Rgt_dec (x - x) 0); [lra|done].
Qed.

Lemma omap_replicate {A B : Type} (f : A -> option B) (x : A) (y : B) n :
  f x = Some y -> omap f (replicate n x) = replicate n y.
Proof.
  intros H. induction n as [|n IH]; simpl; [done|]. rewrite H. f_equal. exact IH.
Qed.

Lemma elevenSales_price :
  RealEstateAdapters.getNycOpenDataPrice (Responds SalesExample.elevenSales)
  = Returns (Some (200000 / 200)%R).
Proof.
  unfold RealEstateAdapters.getNycOpenDataPrice, RealEstateAdapters.validSales,
    SalesExample.elevenSales.
  rewrite (omap_replicate _ _ (200000 / 200)%R).
  - rewrite sortAscending_replicate, length_replicate.
    change (10 <? 11)%nat with true. cbv iota. reflexivity.
  - unfold RealEstateAdapters.validSale. simpl. unfold Js.gtb.
    destruct (Rgt_dec 200000 100000); [|lra].
    destruct (Rgt_dec 200 100); [|lra]. done.
Qed.

Lemma nyc_price_is_median_per_square_foot_witness :
  ∃ sales,
    Responds SalesExample.elevenSales = Responds sales
    ∧ 10 < length (omap RealEstateAdapters.validSale sales).
Proof.
  destruct (proj2 (nyc_price_is_median_per_square_foot
                     (Responds SalesExample.elevenSales))
              (200000 / 200)%R elevenSales_price)
    as (sales & Hsales & Hten & _).
  by exists sales.
Defined.

End MedianScrapers.

(** ** The luxury collector *)

Module LuxuryFacts.

Import Collector CollectorNotions CollectorFacts CollectorMore ResultShape JsMore
  PriceLists Medians MedianFacts AdapterFacts MedianScrapers.

Lemma scrapeChrono24_bounds response p :
  LuxuryCollector.scrapeChrono24 response = Returns (Some p) ->
  (5000 < p < 500000)%R.
Proof.
  unfold LuxuryCollector.scrapeChrono24.
  destruct response as [parsed|message]; [|done]. cbv zeta.
  destruct (0 <? _)%nat eqn:Hlen; [|done].
  apply length_positive_nonempty in Hlen.
  destruct (middle_centre _ Hlen) as (m & Hm & [Hin _]).
  rewrite Hm. intros [= <-].
  apply keep_elem in Hin as [_ Htest]. by apply andb_gt_lt.
Qed.

Lemma scrapeEbaySoldListings_bounds response p :
  LuxuryCollector.scrapeEbaySoldListings response = Returns (Some p) ->
  (100 < p)%R.
Proof.
  unfold LuxuryCollector.scrapeEbaySoldListings.
  destruct response as [parsed|message]; [|done]. cbv zeta.
  destruct (0 <? _)%nat eqn:Hlen; [|done].
  apply length_positive_nonempty in Hlen.
  destruct (middle_centre _ Hlen) as (m & Hm & [Hin _]).
  rewrite Hm. intros [= <-].
  apply keep_elem in Hin as [_ Htest].
  unfold Js.gtb in Htest. by destruct (Rgt_dec m 100).
Qed.

(** A placeholder adds nothing, with or without an item. *)
Lemma withItem_placeholder item (adapter : string -> AdapterOutcome) :
  (∀ searchTerm, adapter searchTerm = Returns None) ->
  falsyOutcome (LuxuryCollector.withItem item adapter).
Proof. intros H. destruct item as [searchTerm|]; simpl; [by rewrite H|done]. Qed.

Lemma withItem_returns item adapter p :
  LuxuryCollector.withItem item adapter = Returns (Some p) ->
  ∃ searchTerm, item = Some searchTerm ∧ adapter searchTerm = Returns (Some p).
Proof. destruct item as [searchTerm|]; [|done]. simpl. by exists searchTerm. Qed.

(** The tail of [collectLuxuryPrice] on what one adapter gathered. *)
Lemma luxury_one_adapter name reliability warning outcome symbol log :
  ∃ r,
    (finish LuxuryCollector.verifyAndConsolidate "No valid sources available"
       symbol
       (LuxuryCollector.validSources
          (tryAdapter name reliability warning outcome ([], [])).1) log).1
    = Js.Normal r
    ∧ unverifiable r
    ∧ (Result.success r = true ->
       Result.source r = Some name
       ∧ ∃ p, outcome = Returns (Some p) ∧ Result.price r = Some p).
Proof.
  destruct (tryAdapter_first name reliability warning outcome) as [->|(p & -> & ->)].
  - eexists. split; [reflexivity|]. split; [apply failure_unverifiable|].
    simpl. discriminate.
  - unfold LuxuryCollector.validSources. cbn [List.filter Observation.price].
    destruct (Js.gtb p 0).
    + unfold LuxuryCollector.verifyAndConsolidate. rewrite finish_one.
      eexists. split; [reflexivity|]. split; [by split|].
      intros _. split; [done|]. by exists p.
    + eexists. split; [reflexivity|]. split; [apply failure_unverifiable|].
      simpl. discriminate.
Qed.

(** X20.  A result of the luxury collector is never verified: of the
    sources of each kind of item only one is implemented (Chrono24 for
    watches, eBay sold listings for cards), the others being
    placeholders.  A successful result carries that scraper's median,
    within the scraper's bounds; comics, whose two sources are both
    placeholders, and symbols of no known kind always get the failure
    object 'No valid sources available'. *)
Theorem luxury_never_verified web symbol :
  ∃ r,
    (LuxuryCollector.collectLuxuryPrice web symbol).1 = Js.Normal r
    ∧ unverifiable r
    ∧ (Result.success r = true ->
       (Result.source r = Some "Chrono24"%string
        ∧ ∃ p, Result.price r = Some p ∧ (5000 < p < 500000)%R)
       ∨ (Result.source r = Some "eBay Sold"%string
          ∧ ∃ p, Result.price r = Some p ∧ (100 < p)%R))
    ∧ (includes symbol "ROLEX" || includes symbol "AP" || includes symbol "PATEK"
       || includes symbol "CHAR" || includes symbol "MTG" = false ->
       r = failure symbol "No valid sources available").
Proof.
  unfold LuxuryCollector.collectLuxuryPrice. cbv zeta.
  destruct (includes symbol "ROLEX" || includes symbol "AP" || includes symbol "PATEK")
    eqn:Hwatch; [|destruct (includes symbol "CHAR" || includes symbol "MTG") eqn:Hcard].
  - unfold LuxuryCollector.collectWatchPrices. cbv zeta.
    set (acc := tryAdapter "Chrono24" _ _ _ _).
    destruct (tryAdapter "WatchStation" _ _ _ _) as [sources log] eqn:Hacc.
    assert (Hsources : sources = acc.1).
    { replace sources with (sources, log).1 by done. rewrite <- Hacc.
      rewrite !tryAdapter_falsy; [done|by apply withItem_placeholder..]. }
    destruct (luxury_one_adapter "Chrono24" 0.88%R
                ("Chrono24 failed for " ++ symbol ++ ":")
                (LuxuryCollector.withItem (LuxuryCollector.luxuryItems symbol)
                   (fun _ => LuxuryCollector.scrapeChrono24 (LuxuryCollector.chrono24 web)))
                symbol log) as (r & Hr & Hu & Hs).
    fold acc in Hr. rewrite <- Hsources in Hr.
    exists r. split; [exact Hr|]. split; [done|]. split; [|done].
    intros Hok. left. destruct (Hs Hok) as (Hsrc & p & Hp & Hprice).
    split; [done|]. exists p. split; [done|].
    apply withItem_returns in Hp as (searchTerm & _ & Hp).
    by apply (scrapeChrono24_bounds _ _ Hp).
  - unfold LuxuryCollector.collectCardPrices. cbv zeta.
    set (acc := tryAdapter "eBay Sold" _ _ _ _).
    destruct (tryAdapter "Goldin" _ _ _ _) as [sources log] eqn:Hacc.
    assert (Hsources : sources = acc.1).
    { replace sources with (sources, log).1 by done. rewrite <- Hacc.
      rewrite !tryAdapter_falsy; [done|by apply withItem_placeholder..]. }
    destruct (luxury_one_adapter "eBay Sold" 0.90%R
                ("eBay failed for " ++ symbol ++ ":")
                (LuxuryCollector.withItem (LuxuryCollector.luxuryItems symbol)
                   (fun _ => LuxuryCollector.scrapeEbaySoldListings
                               (LuxuryCollector.ebay web)))
                symbol log) as (r & Hr & Hu & Hs).
    fold acc in Hr. rewrite <- Hsources in Hr.
    exists r. split; [exact Hr|]. split; [done|]. split.
    + intros Hok. right. destruct (Hs Hok) as (Hsrc & p & Hp & Hprice).
      split; [done|]. exists p. split; [done|].
      apply withItem_returns in Hp as (searchTerm & _ & Hp).
      by apply (scrapeEbaySoldListings_bounds _ _ Hp).
    + cbn [orb]. intros H. congruence.
  - assert (Hempty :
              (if includes symbol "AC"
               then LuxuryCollector.collectComicPrices web symbol
                      (LuxuryCollector.luxuryItems symbol)
               else ([], [])).1 = []).
    { destruct (includes symbol "AC"); [|done].
      unfold LuxuryCollector.collectComicPrices. cbv zeta.
      rewrite !tryAdapter_falsy; [done|by apply withItem_placeholder..]. }
    destruct (if includes symbol "AC" then _ else _) as [sources log].
    cbn [fst] in Hempty. subst sources.
    eexists. split; [reflexivity|]. split; [apply failure_unverifiable|].
    split; [simpl; discriminate|done].
Qed.

Lemma luxury_never_verified_witness :
  ∃ r,
    (LuxuryCollector.collectLuxuryPrice
       (LuxuryCollector.mkWeb (HttpError "down") (HttpError "down")) "AC1").1
    = Js.Normal r
    ∧ r = failure "AC1" "No valid sources available".
Proof.
  destruct (luxury_never_verified
              (LuxuryCollector.mkWeb (HttpError "down") (HttpError "down")) "AC1")
    as (r & Hr & _ & _ & Hfail).
  exists r. split; [exact Hr|]. apply Hfail. reflexivity.
Defined.

End LuxuryFacts.

(** ** The counters of a cycle *)

Module CountFacts.

Import UniversalPriceAgent Orchestrator CycleNotions CountNotions OrchestratorFacts.

Lemma fold_applyResult_tally results acc :
  (fold_left applyResult results acc).1.2.1
  = acc.1.2.1 + acceptedCount results
  ∧ (fold_left applyResult results acc).1.2.2
    = acc.1.2.2 + (length results - acceptedCount results)
  ∧ acceptedCount results <= length results.
Proof.
  revert acc. induction results as [|[now result] results IH]; intros acc.
  - unfold acceptedCount. simpl. lia.
  - cbn [fold_left]. destruct (IH (applyResult acc (now, result))) as (-> & -> & Hle).
    destruct acc as [[this [successes errors]] out].
    unfold acceptedCount in *. cbn [List.filter].
    assert (Hp : passes (now, result)
                 = match accepted result with Some _ => true | None => false end)
      by done.
    rewrite Hp. cbn [applyResult].
    destruct (accepted result); cbn [fst snd length]; lia.
Qed.

Lemma faults_le outs : faults outs <= length outs.
Proof. unfold faults. apply List.filter_length_le. Qed.

(** X21.  A cycle counts every result exactly once: the success count it
    reports is the number of delivered results that pass the
    orchestrator's test, and the two counts add up to the number of
    results delivered plus the number of rejected collector promises, of
    which there are six at most. *)
Theorem cycle_counts_every_result s0 start outs :
  idle s0 ->
  start = PostUpdate ∨ start = CronTick ->
  map fst outs ≡ₚ collectors ->
  ∃ s' out successCount errorCount,
    exec (start :: settlements outs ++ [AllSettled 0]) s0 = Some (s', out)
    ∧ CycleCompleted successCount errorCount ∈ out
    ∧ successCount = acceptedCount (delivered outs)
    ∧ successCount + errorCount = length (delivered outs) + faults outs
    ∧ faults outs <= 6.
Proof.
  intros [Hflag Hrun] Hstart Hperm.
  destruct s0 as [this run]. simpl in Hflag, Hrun. subst run.
  destruct (exec_cycle this start outs Hflag Hstart Hperm) as (out & Hexec & Hdone).
  cbv zeta in Hexec, Hdone.
  destruct (fold_applyResult_tally (delivered outs) (this, (0, 0), []))
    as (Hs & He & Hle).
  cbn [fst snd] in Hs, He.
  eexists _, out, _, _. split; [exact Hexec|]. split; [exact Hdone|].
  unfold tally. rewrite Hs, He. split; [lia|]. split; [lia|].
  pose proof (faults_le outs) as Hf.
  apply Permutation_length in Hperm. rewrite length_map in Hperm.
  rewrite Hperm in Hf. exact Hf.
Qed.

Lemma cycle_counts_every_result_witness :
  ∃ s' out,
    exec (CronTick :: settlements oneFault ++ [AllSettled 0]) initial
    = Some (s', out)
    ∧ CycleCompleted (acceptedCount (delivered oneFault))
        (length (delivered oneFault) + faults oneFault
         - acceptedCount (delivered oneFault)) ∈ out.
Proof.
  destruct (cycle_counts_every_result initial CronTick oneFault)
    as (s' & out & successCount & errorCount & Hexec & Hdone & Hs & Hsum & _).
  - split; reflexivity.
  - by right.
  - reflexivity.
  - exists s', out. split; [exact Hexec|].
    replace (length (delivered oneFault) + faults oneFault
             - acceptedCount (delivered oneFault)) with errorCount by lia.
    by rewrite <- Hs.
Defined.

End CountFacts.

(** ** Answers to manual updates *)

Module ResponseFacts.

Import UniversalPriceAgent Orchestrator CycleNotions ResponseNotions OrchestratorFacts.

Lemma responses_app out out' :
  responses (out ++ out') = responses out ++ responses out'.
Proof. unfold responses. apply omap_app. Qed.

Lemma fold_applyResult_responses results acc :
  responses (fold_left applyResult results acc).2 = responses acc.2.
Proof.
  revert acc. induction results as [|[now result] results IH]; intros acc; [done|].
  cbn [fold_left]. rewrite IH. destruct acc as [[this [successes errors]] out].
  cbn [applyResult]. destruct (accepted result); cbn [snd]; [done|].
  rewrite responses_app. cbn. by rewrite app_nil_r.
Qed.

Lemma settle_responses category outcome cycle this :
  responses (settle category outcome cycle this).2 = [].
Proof.
  unfold settle. destruct outcome as [results|error]; [|done].
  pose proof (fold_applyResult_responses results
                (this, (successCount cycle, errorCount cycle), [])) as H.
  destruct (fold_left _ _ _) as [[this' [successes errors]] out]. exact H.
Qed.

(** The settlement of a collector promise answers no request. *)
Lemma exec_settlements_responses outs s s' out :
  exec (settlements outs) s = Some (s', out) -> responses out = [].
Proof.
  revert s s' out. induction outs as [|[category outcome] outs IH]; intros s s' out.
  - simpl. by intros [= _ <-].
  - cbn [settlements map exec fst snd]. fold (settlements outs).
    destruct (step _ s) as [[s1 out1]|] eqn:Hstep; [|done].
    destruct (exec (settlements outs) s1) as [[s2 out2]|] eqn:Hexec; [|done].
    intros [= _ <-]. rewrite responses_app, (IH _ _ _ Hexec), app_nil_r.
    simpl in Hstep. destruct (running s !! 0) as [cycle|]; [|done].
    destruct (decide _); [|done].
    pose proof (settle_responses category outcome cycle (agent s)) as Hs.
    destruct (settle _ _ _ _) as [[this cycle'] out']. by injection Hstep as _ <-.
Qed.

(** X22.  A manual update that finds the agent idle is answered exactly
    once, with status 200 and 'Update completed', and the answer is the
    last output of the cycle, after the settlement of every collector
    promise and the completion message; a cycle started by the schedule
    answers no request; and a manual update that finds a cycle in flight
    is answered at once with status 429 and nothing else. *)
Theorem manual_update_answered_once s0 outs :
  idle s0 ->
  map fst outs ≡ₚ collectors ->
  (∃ s' out,
     exec (PostUpdate :: settlements outs ++ [AllSettled 0]) s0 = Some (s', out)
     ∧ responses out = [(200, "Update completed"%string)]
     ∧ last out = Some (HttpResponse 200 "Update completed"))
  ∧ (∃ s' out,
       exec (CronTick :: settlements outs ++ [AllSettled 0]) s0 = Some (s', out)
       ∧ responses out = [])
  ∧ (∀ s,
       isUpdating (agent s) = true ->
       ∃ out,
         step PostUpdate s = Some (s, out)
         ∧ responses out = [(429, "Update already in progress"%string)]).
Proof.
  intros [Hflag Hrun] Hperm.
  destruct s0 as [this run]. simpl in Hflag, Hrun. subst run.
  assert (Hcycle : ∀ start origin,
             step start (mkSystem this [])
             = Some (mkSystem (setUpdating true this) [mkCycle origin collectors 0 0],
                     [Logger (LogInfo "Starting price update cycle")]) ->
             ∃ s' out1 successes errors,
               exec (start :: settlements outs ++ [AllSettled 0]) (mkSystem this [])
               = Some (s', Logger (LogInfo "Starting price update cycle")
                             :: out1 ++ CycleCompleted successes errors
                             :: afterReturn origin)
               ∧ responses out1 = []).
  { intros start origin Hstep. cbn [exec]. rewrite Hstep, exec_app.
    destruct (exec_settlements outs (setUpdating true this)
                (mkCycle origin collectors 0 0)) as (out1 & Hexec).
    { cbn [pending]. apply collectors_NoDup. }
    { done. }
    rewrite Hexec. cbn [exec step running agent].
    change ([?c] !! 0) with (Some c). cbv beta iota. cbn [pending].
    rewrite app_nil_r.
    eexists _, out1, _, _. split; [reflexivity|].
    by apply exec_settlements_responses in Hexec. }
  split; [|split].
  - destruct (Hcycle PostUpdate Manual) as (s' & out1 & successes & errors & -> & Hnone).
    { simpl. unfold postUpdate, updateAllPrices. simpl. by rewrite Hflag. }
    eexists _, _. split; [reflexivity|]. split.
    + change (Logger ?e :: ?l) with ([Logger e] ++ l).
      rewrite !responses_app, Hnone. reflexivity.
    + cbn [afterReturn]. rewrite last_cons, last_app. reflexivity.
  - destruct (Hcycle CronTick Scheduled) as (s' & out1 & successes & errors & -> & Hnone).
    { simpl. unfold updateAllPrices. simpl. by rewrite Hflag. }
    eexists _, _. split; [reflexivity|].
    change (Logger ?e :: ?l) with ([Logger e] ++ l).
    rewrite !responses_app, Hnone. reflexivity.
  - intros s Hbusy. destruct (busy_trigger s Hbusy) as [-> _].
    eexists. split; [reflexivity|]. reflexivity.
Qed.

Lemma manual_update_answered_once_witness :
  ∃ s' out,
    exec (PostUpdate :: settlements oneFault ++ [AllSettled 0]) initial
    = Some (s', out)
    ∧ responses out = [(200, "Update completed"%string)].
Proof.
  destruct (proj1 (manual_update_answered_once initial oneFault
                     ltac:(split; reflexivity) ltac:(reflexivity)))
    as (s' & out & Hexec & Hone & _).
  by exists s', out.
Defined.

End ResponseFacts.

(** ** The gate of the metals collector *)

Module MetalsGate.

Import Collector CollectorNotions CollectorFacts JsMore AdapterFacts.

Lemma tryAdapter_pushes name reliability warning p acc :
  p ≠ 0%R ->
  (tryAdapter name reliability warning (Returns (Some p)) acc).1
  = acc.1 ++ [Observation.mk name p reliability].
Proof. intros Hp. simpl. by destruct (Req_dec_T p 0). Qed.

Lemma tryAdapter_keeps name reliability warning outcome acc o :
  o ∈ acc.1 -> o ∈ (tryAdapter name reliability warning outcome acc).1.
Proof.
  intros Hin. destruct outcome as [[p|]|message]; simpl; try done.
  destruct (Req_dec_T p 0); simpl; [done|]. apply elem_of_app. by left.
Qed.

(** X23.  The metals collector tests the adapters' prices for truthiness
    only.  With the FMP key set, every price of Financial Modeling Prep
    other than 0 is passed on to [verifyAndConsolidate], a negative one
    as well; with the Metals-API key set, so is the reciprocal of every
    rate other than 0 of a successful Metals-API answer, which is
    negative for a negative rate. *)
Theorem metals_gate_is_truthiness env symbol :
  (∀ p,
     MetalsCollection.FMP_API_KEY env = true ->
     MetalsCollection.fmp env = Responds (Some p) ->
     p ≠ 0%R ->
     ∃ sources,
       invocations (MetalsCollection.collectMetalPrice env symbol).2 = [sources]
       ∧ Observation.mk "FinancialModelingPrep" p 0.92 ∈ sources)
  ∧ (∀ rate,
       MetalsCollection.METALS_API_KEY env = true ->
       MetalsCollection.metalsApi env = Responds (true, Some rate) ->
       rate ≠ 0%R ->
       ∃ sources,
         invocations (MetalsCollection.collectMetalPrice env symbol).2 = [sources]
         ∧ Observation.mk "MetalsAPI" (1 / rate) 0.9 ∈ sources
         ∧ (rate < 0 -> 1 / rate < 0)%R).
Proof.
  assert (Hcalled : ∀ o,
             o ∈ (MetalsCollection.gather env symbol).1 ->
             ∃ sources,
               invocations (MetalsCollection.collectMetalPrice env symbol).2
               = [sources]
               ∧ o ∈ sources).
  { intros o Hin. rewrite metals_invocations.
    destruct (MetalsCollection.gather env symbol).1 as [|first rest] eqn:Hg.
    - by apply elem_of_nil in Hin.
    - simpl. by eexists. }
  split.
  - intros p Hkey Hfmp Hp. apply Hcalled.
    unfold MetalsCollection.gather. cbv zeta. rewrite Hkey.
    unfold MetalsCollection.getFmpPrice. rewrite Hfmp.
    rewrite tryAdapter_pushes by done. apply elem_of_app. right.
    apply list_elem_of_here.
  - intros rate Hkey Hapi Hrate.
    assert (Hinv : (1 / rate)%R ≠ 0%R).
    { unfold Rdiv. rewrite Rmult_1_l. by apply Rinv_neq_0_compat. }
    destruct (Hcalled (Observation.mk "MetalsAPI" (1 / rate) 0.9)) as (sources & Hs & Hin).
    { unfold MetalsCollection.gather. cbv zeta.
      unfold MetalsCollection.getMetalsApiPrice. rewrite Hkey, Hapi.
      cbn [negb andb Js.truthy]. destruct (Req_dec_T rate 0) as [?|_]; [done|].
      destruct (MetalsCollection.FMP_API_KEY env);
        [apply tryAdapter_keeps|]; apply tryAdapter_keeps;
        (destruct (String.eqb symbol "XAU"); [apply tryAdapter_keeps|]);
        rewrite tryAdapter_pushes by done; apply elem_of_app; right;
        apply list_elem_of_here. }
    exists sources. split; [done|]. split; [done|].
    intros Hneg. unfold Rdiv. rewrite Rmult_1_l. by apply Rinv_lt_0_compat.
Qed.

Lemma metals_gate_is_truthiness_witness :
  ∃ sources,
    invocations
      (MetalsCollection.collectMetalPrice
         (MetalsCollection.mkEnv false true (HttpError "no key") (HttpError "down")
            (HttpError "down") (Responds (Some (-3)%R))) "XAG").2 = [sources]
    ∧ Observation.mk "FinancialModelingPrep" (-3) 0.92 ∈ sources.
Proof.
  apply (proj1 (metals_gate_is_truthiness
                  (MetalsCollection.mkEnv false true (HttpError "no key")
                     (HttpError "down") (HttpError "down") (Responds (Some (-3)%R)))
                  "XAG") (-3)%R).
  - reflexivity.
  - reflexivity.
  - lra.
Defined.

End MetalsGate.
